(** * PhueAPI: a shallow embedding of [models/PhueAPI.py]

    The Python module is a stateful client of a lighting bridge: a [Bridge]
    session object owning three registries (groups, lights, scenes) and the
    entity classes [Light], [Group] and [Scene] whose mutators send
    authenticated requests through the session.

    Conventions of the embedding:
    - Python exceptions are the constructors of [exn]; a method is a
      computation in the state-and-exception monad [M], whose state survives
      a raise, as the mutated Python objects do;
    - the registries are insertion-ordered association lists (Python dicts
      iterate in insertion order and the by-name lookups depend on it);
      the [state] and [action] dicts of an entity are finite maps;
    - the HTTP transport ([requests.request]) is an oracle from the history
      of requests and the current request to a response or a transport
      failure; every attempt is recorded in the world's [sent] log;
    - Python numbers are integers or finite floats, the latter as rationals
      (only comparisons are performed on them; NaN is left out). *)

From Stdlib Require Import ZArith QArith Ascii String List Bool Lia DecimalString.
From stdpp Require Import base gmap strings.
Import ListNotations.

Close Scope Q_scope.
Open Scope Z_scope.
Open Scope string_scope.

(** ** Python values *)

Inductive Num : Type :=
| NInt (z : Z)
| NFloat (q : Q).

Definition num_Q (n : Num) : Q :=
  match n with
  | NInt z => inject_Z z
  | NFloat q => q
  end.

(** [a < b] on numbers, the only comparison [sorted] performs. *)
Definition num_ltb (a b : Num) : bool := negb (Qle_bool (num_Q b) (num_Q a)).

Definition num_leb (a b : Num) : bool := Qle_bool (num_Q a) (num_Q b).

#[warnings="-register-all"]
Inductive Json : Type :=
| JNull
| JBool (b : bool)
| JNum (n : Num)
| JStr (s : string)
| JArr (l : list Json)
| JObj (o : list (string * Json)).

Definition JInt (z : Z) : Json := JNum (NInt z).

(** Python truthiness of a JSON value. *)
Definition truthy (j : Json) : bool :=
  match j with
  | JNull => false
  | JBool b => b
  | JNum n => negb (Qeq_bool (num_Q n) (inject_Z 0))
  | JStr s => negb (String.eqb s "")
  | JArr l => match l with [] => false | _ => true end
  | JObj o => match o with [] => false | _ => true end
  end.

(** ** Strings *)

Definition lower_ascii (c : ascii) : ascii :=
  let n := nat_of_ascii c in
  if (Nat.leb 65 n && Nat.leb n 90)%bool then ascii_of_nat (n + 32) else c.

(** What [str.lower()] does to ASCII text; the sessions of the examples
    are run with it. *)
Fixpoint ascii_lower (s : string) : string :=
  match s with
  | EmptyString => EmptyString
  | String c r => String (lower_ascii c) (ascii_lower r)
  end.

Definition startswith (s p : string) : bool := String.prefix p s.

(** [needle in hay] on strings. *)
Fixpoint str_in (needle hay : string) : bool :=
  if String.prefix needle hay then true
  else match hay with
       | EmptyString => false
       | String _ r => str_in needle r
       end.

(** [str(i)] for an integer, as f-strings format it. *)
Definition str_of_int (z : Z) : string := NilZero.string_of_int (Z.to_int z).

(** [str(x)] for an optional string ([None] prints as "None"). *)
Definition str_of_opt (o : option string) : string :=
  match o with
  | Some s => s
  | None => "None"
  end.

(** The slash an URL is joined with when it does not start with one. *)
Definition slash_unless_rooted (url : string) : string :=
  if startswith url "/" then "" else "/".

(** ** [sorted]

    Python's sort is stable and compares with [<] only; on the three-element
    tuples of this module an insertion sort gives the same list. *)

Section Sorted.
Context {A : Type} (ltb : A -> A -> bool).

Fixpoint insert_sorted (x : A) (l : list A) : list A :=
  match l with
  | [] => [x]
  | y :: r => if ltb x y then x :: y :: r else y :: insert_sorted x r
  end.

Definition sorted (l : list A) : list A :=
  fold_left (fun acc x => insert_sorted x acc) l [].
End Sorted.

(** [sorted((lo, value, hi))[1]] on integers and on numbers. *)
Definition sorted3_mid_Z (lo v hi : Z) : Z :=
  nth 1 (sorted Z.ltb [lo; v; hi]) v.

Definition sorted3_mid_Num (lo v hi : Num) : Num :=
  nth 1 (sorted num_ltb [lo; v; hi]) v.

(** ** Exceptions and the method monad *)

Inductive exn : Type :=
| UnauthorizedUser
| LinkButtonNotPressed
| NoPhueIP
| NoPhueBridgeFound
| PhueRegistrationError
| PhueRequestError
| SelectorError
| NoSuchLight
| NoSuchGroup
| NoSuchScene
| NoSuchSceneInGroup
| LightNotReachable
| OSError
| JSONDecodeError
| FileNotFoundError
| KeyError
| IndexError
| ValueError
| TypeError
| AttributeError
| OtherException.

(** The outcome of a call: a value or a raised exception. *)
Inductive Result (A : Type) : Type :=
| Returns (a : A)
| Raises (e : exn).
Arguments Returns {A} a.
Arguments Raises {A} e.

Definition M (S A : Type) : Type := S -> Result A * S.

Definition ret {S A} (a : A) : M S A := fun s => (Returns a, s).
Definition raise {S A} (e : exn) : M S A := fun s => (Raises e, s).
Definition bind {S A B} (c : M S A) (k : A -> M S B) : M S B :=
  fun s => match c s with
           | (Returns a, s') => k a s'
           | (Raises e, s') => (Raises e, s')
           end.
Definition get {S} : M S S := fun s => (Returns s, s).
Definition put {S} (s : S) : M S unit := fun _ => (Returns tt, s).
Definition modify {S} (f : S -> S) : M S unit := fun s => (Returns tt, f s).

(** [try: c except: h e]; the handler re-raises what it does not catch. *)
Definition try_except {S A} (c : M S A) (h : exn -> M S A) : M S A :=
  fun s => match c s with
           | (Returns a, s') => (Returns a, s')
           | (Raises e, s') => h e s'
           end.

Notation "x <- c ;; k" := (bind c (fun x => k))
  (at level 100, c at next level, right associativity).
Notation "c ;;; k" := (bind c (fun _ => k))
  (at level 100, right associativity).

(** [for x in l: body x], stopping at the first raise. *)
Fixpoint for_each {S A} (l : list A) (body : A -> M S unit) : M S unit :=
  match l with
  | [] => ret tt
  | x :: r => body x ;;; for_each r body
  end.

(** Run a computation on the second component of the state. *)
Definition in_world {E W A} (c : M W A) : M (E * W) A :=
  fun s => let '(r, w) := c (snd s) in (r, (fst s, w)).

(** What [int(s)] does to a plain decimal numeral (digits, with an
    optional minus sign); the sessions of the examples are run with it. *)
Definition decimal (s : string) : Result Z :=
  if String.eqb s "" || String.eqb s "-" then Raises ValueError
  else match NilZero.int_of_string s with
       | Some d => Returns (Z.of_int d)
       | None => Raises ValueError
       end.

Definition lift_result {S A} (r : Result A) : M S A := fun s => (r, s).

(** ** Insertion-ordered dictionaries

    A registry is a Python [dict]: assigning to a key that is present
    replaces the value where it stands, assigning to a new key appends, and
    [values()] iterates in that order. *)

Section Dict.
Context {K V : Type} `{EqDecision K}.

Fixpoint dict_get (d : list (K * V)) (k : K) : option V :=
  match d with
  | [] => None
  | (k', v) :: r => if decide (k = k') then Some v else dict_get r k
  end.

Fixpoint dict_set (d : list (K * V)) (k : K) (v : V) : list (K * V) :=
  match d with
  | [] => [(k, v)]
  | (k', v') :: r =>
      if decide (k = k') then (k', v) :: r else (k', v') :: dict_set r k v
  end.

Definition dict_mem (d : list (K * V)) (k : K) : bool :=
  match dict_get d k with
  | Some _ => true
  | None => false
  end.

Definition dict_keys (d : list (K * V)) : list K := map fst d.
Definition dict_values (d : list (K * V)) : list V := map snd d.
End Dict.

(** ** The entities *)

(** The back-reference of an entity to the session that loaded it. *)
Inductive BridgeRef : Type := TheBridge.

Record Light : Type := mkLight {
  light_state : gmap string Json;
  light_swupdate : Json;
  light_type : string;
  light_name : string;
  light_modelid : string;
  light_manufacturername : string;
  light_productname : string;
  light_capabilities : Json;
  light_config : Json;
  light_uniqueid : string;
  light_swversion : string;
  light_swconfigid : string;
  light_productid : string;
  light_id : Z;
  light_bridge : option BridgeRef;
  light_myScenes : list string
}.

Record Group : Type := mkGroup {
  group_name : string;
  group_lights : list string;
  group_sensors : list string;
  group_type : string;
  group_state : gmap string Json;
  group_recycle : bool;
  group_action : gmap string Json;
  group_clazz : string;
  group_stream : Json;
  group_locations : Json;
  group_id : Z;
  group_bridge : option BridgeRef;
  group_myScenes : list string
}.

Record Scene : Type := mkScene {
  scene_name : string;
  scene_type : string;
  scene_lights : list string;
  scene_owner : string;
  scene_recycle : bool;
  scene_locked : bool;
  scene_appdata : Json;
  scene_picture : string;
  scene_lastupdated : string;
  scene_version : Z;
  scene_image : string;
  scene_group : option string;
  scene_id : string;
  scene_bridge : option BridgeRef
}.

(** Attribute assignments. *)
Definition light_with_state (st : gmap string Json) (l : Light) : Light :=
  mkLight st (light_swupdate l) (light_type l) (light_name l) (light_modelid l)
    (light_manufacturername l) (light_productname l) (light_capabilities l)
    (light_config l) (light_uniqueid l) (light_swversion l)
    (light_swconfigid l) (light_productid l) (light_id l) (light_bridge l)
    (light_myScenes l).

Definition light_with_myScenes (ms : list string) (l : Light) : Light :=
  mkLight (light_state l) (light_swupdate l) (light_type l) (light_name l)
    (light_modelid l) (light_manufacturername l) (light_productname l)
    (light_capabilities l) (light_config l) (light_uniqueid l)
    (light_swversion l) (light_swconfigid l) (light_productid l) (light_id l)
    (light_bridge l) ms.

Definition group_with_name (n : string) (g : Group) : Group :=
  mkGroup n (group_lights g) (group_sensors g) (group_type g) (group_state g)
    (group_recycle g) (group_action g) (group_clazz g) (group_stream g)
    (group_locations g) (group_id g) (group_bridge g) (group_myScenes g).

Definition group_with_state (st : gmap string Json) (g : Group) : Group :=
  mkGroup (group_name g) (group_lights g) (group_sensors g) (group_type g) st
    (group_recycle g) (group_action g) (group_clazz g) (group_stream g)
    (group_locations g) (group_id g) (group_bridge g) (group_myScenes g).

Definition group_with_action (a : gmap string Json) (g : Group) : Group :=
  mkGroup (group_name g) (group_lights g) (group_sensors g) (group_type g)
    (group_state g) (group_recycle g) a (group_clazz g) (group_stream g)
    (group_locations g) (group_id g) (group_bridge g) (group_myScenes g).

Definition group_with_myScenes (ms : list string) (g : Group) : Group :=
  mkGroup (group_name g) (group_lights g) (group_sensors g) (group_type g)
    (group_state g) (group_recycle g) (group_action g) (group_clazz g)
    (group_stream g) (group_locations g) (group_id g) (group_bridge g) ms.

Section Environment.
(** The builtins [str.lower] and [int] (on strings) are taken as they are:
    nothing is assumed of them. *)
Variable lower : string -> string.
Variable int : string -> Result Z.

(** [Light.init], [Group.init], [Scene.init]: the id, the session and the
    lower-cased name. *)
Definition Light_init (lightId : Z) (l : Light) : Light :=
  mkLight (light_state l) (light_swupdate l) (light_type l)
    (lower (light_name l)) (light_modelid l) (light_manufacturername l)
    (light_productname l) (light_capabilities l) (light_config l)
    (light_uniqueid l) (light_swversion l) (light_swconfigid l)
    (light_productid l) lightId (Some TheBridge) (light_myScenes l).

Definition Group_init (groupId : Z) (g : Group) : Group :=
  mkGroup (lower (group_name g)) (group_lights g) (group_sensors g)
    (group_type g) (group_state g) (group_recycle g) (group_action g)
    (group_clazz g) (group_stream g) (group_locations g) groupId
    (Some TheBridge) (group_myScenes g).

Definition Scene_init (sceneId : string) (s : Scene) : Scene :=
  mkScene (lower (scene_name s)) (scene_type s) (scene_lights s)
    (scene_owner s) (scene_recycle s) (scene_locked s) (scene_appdata s)
    (scene_picture s) (scene_lastupdated s) (scene_version s) (scene_image s)
    (scene_group s) sceneId (Some TheBridge).

(** [Group()] with every field at its default. *)
Definition Group_default : Group :=
  mkGroup "" [] [] "" ∅ false ∅ "" (JObj []) (JObj []) 0 None [].

(** ** The decoded payloads of the bridge

    The keyword arguments a constructor is called with.  The dataclass
    constructors accept exactly their fields; a JSON object of another
    shape makes them raise [TypeError]. *)

Record GroupData : Type := mkGroupData {
  gd_name : string;
  gd_lights : list string;
  gd_sensors : list string;
  gd_type : string;
  gd_state : gmap string Json;
  gd_recycle : bool;
  gd_action : gmap string Json;
  gd_class : option string;
  gd_stream : Json;
  gd_locations : Json
}.

Record LightData : Type := mkLightData {
  ld_state : gmap string Json;
  ld_swupdate : Json;
  ld_type : string;
  ld_name : string;
  ld_modelid : string;
  ld_manufacturername : string;
  ld_productname : string;
  ld_capabilities : Json;
  ld_config : Json;
  ld_uniqueid : string;
  ld_swversion : string;
  ld_swconfigid : string;
  ld_productid : string
}.

Record SceneData : Type := mkSceneData {
  sd_name : string;
  sd_type : string;
  sd_lights : list string;
  sd_owner : string;
  sd_recycle : bool;
  sd_locked : bool;
  sd_appdata : Json;
  sd_picture : string;
  sd_lastupdated : string;
  sd_version : Z;
  sd_image : string;
  sd_group : option string
}.

(** The [Group] built from [data] after ["class"] has been renamed to
    ["clazz"]. *)
Definition Group_of_data (d : GroupData) : Group :=
  mkGroup (gd_name d) (gd_lights d) (gd_sensors d) (gd_type d) (gd_state d)
    (gd_recycle d) (gd_action d)
    (match gd_class d with Some c => c | None => "" end)
    (gd_stream d) (gd_locations d) 0 None [].

Definition Light_of_data (d : LightData) : Light :=
  mkLight (ld_state d) (ld_swupdate d) (ld_type d) (ld_name d) (ld_modelid d)
    (ld_manufacturername d) (ld_productname d) (ld_capabilities d)
    (ld_config d) (ld_uniqueid d) (ld_swversion d) (ld_swconfigid d)
    (ld_productid d) 0 None [].

(** The [group] field of the dataclass defaults to the empty string. *)
Definition Scene_of_data (d : SceneData) : Scene :=
  mkScene (sd_name d) (sd_type d) (sd_lights d) (sd_owner d) (sd_recycle d)
    (sd_locked d) (sd_appdata d) (sd_picture d) (sd_lastupdated d)
    (sd_version d) (sd_image d)
    (match sd_group d with Some g => Some g | None => Some "" end)
    "" None.

(** ** Requests, responses and the world *)

Record Request : Type := mkRequest {
  req_method : string;
  req_url : string;
  req_data : Json
}.

(** What [Response.json()] gives: plain JSON, or one of the three resource
    listings, decoded, in the order of the JSON object. *)
Inductive Answer : Type :=
| Plain (j : Json)
| GroupsObj (items : list (string * GroupData))
| LightsObj (items : list (string * LightData))
| ScenesObj (items : list (string * SceneData)).

(** A [requests.Response]: its truth value is [ok]; [payload] is [None]
    when the body is not JSON. *)
Record Response : Type := mkResponse {
  ok : bool;
  payload : option Answer
}.

Record Conf : Type := mkConf {
  conf_ip : option string;
  conf_username : string
}.

(** The config file: absent, present but not loadable, or holding the
    object [saveConfigFile] wrote. *)
Inductive ConfFile : Type :=
| NoFile
| Unreadable
| Stored (c : Conf).

Record Bridge : Type := mkBridge {
  _ip : option string;
  _deviceName : string;
  _username : string;
  _connected : bool;
  _groups : list (Z * Group);
  _lights : list (Z * Light);
  _scenes : list (string * Scene)
}.

Record World : Type := mkWorld {
  bridge : Bridge;
  sent : list Request;
  confFile : ConfFile
}.

Definition with_bridge (f : Bridge -> Bridge) (w : World) : World :=
  mkWorld (f (bridge w)) (sent w) (confFile w).

Definition with_sent (f : list Request -> list Request) (w : World) : World :=
  mkWorld (bridge w) (f (sent w)) (confFile w).

Definition with_confFile (c : ConfFile) (w : World) : World :=
  mkWorld (bridge w) (sent w) c.

Definition bridge_with_ip (ip : option string) (b : Bridge) : Bridge :=
  mkBridge ip (_deviceName b) (_username b) (_connected b) (_groups b)
    (_lights b) (_scenes b).

Definition bridge_with_username (u : string) (b : Bridge) : Bridge :=
  mkBridge (_ip b) (_deviceName b) u (_connected b) (_groups b) (_lights b)
    (_scenes b).

Definition bridge_with_connected (c : bool) (b : Bridge) : Bridge :=
  mkBridge (_ip b) (_deviceName b) (_username b) c (_groups b) (_lights b)
    (_scenes b).

Definition bridge_with_groups (g : list (Z * Group)) (b : Bridge) : Bridge :=
  mkBridge (_ip b) (_deviceName b) (_username b) (_connected b) g (_lights b)
    (_scenes b).

Definition bridge_with_lights (l : list (Z * Light)) (b : Bridge) : Bridge :=
  mkBridge (_ip b) (_deviceName b) (_username b) (_connected b) (_groups b) l
    (_scenes b).

Definition bridge_with_scenes (s : list (string * Scene)) (b : Bridge) : Bridge :=
  mkBridge (_ip b) (_deviceName b) (_username b) (_connected b) (_groups b)
    (_lights b) s.

Definition truthy_str (s : string) : bool := negb (String.eqb s "").

Definition truthy_opt_str (o : option string) : bool :=
  match o with
  | Some s => truthy_str s
  | None => false
  end.

Definition opt_str_eqb (a b : option string) : bool :=
  match a, b with
  | Some x, Some y => String.eqb x y
  | None, None => true
  | _, _ => false
  end.

(** Truth value of an [Optional[Response]]. *)
Definition truthy_resp (r : option Response) : bool :=
  match r with
  | Some r => ok r
  | None => false
  end.

(** ** The constructor and the config store *)

(** [Bridge.loadConfigFileData]: [None] when the file is absent or cannot
    be loaded. *)
Definition Bridge_loadConfigFileData : M ConfFile (option Conf) :=
  f <- get ;;
  match f with
  | Stored c => ret (Some c)
  | NoFile | Unreadable => ret None
  end.

(** [Path.unlink()]: raises when there is no file to remove. *)
Definition unlink : M ConfFile unit :=
  f <- get ;;
  match f with
  | NoFile => raise FileNotFoundError
  | Unreadable | Stored _ => put NoFile
  end.

(** [Bridge.__init__].  The second test compares the supplied username with
    [conf['ip']], as the source does. *)
Definition Bridge___init__ (ip : option string) (deviceName username : string)
  : M ConfFile Bridge :=
  conf <- Bridge_loadConfigFileData ;;
  match conf with
  | Some c =>
      ip' <- (if truthy_opt_str ip && negb (opt_str_eqb ip (conf_ip c))
              then unlink ;;; ret ip
              else if negb (truthy_opt_str ip) then ret (conf_ip c)
              else ret ip) ;;
      username' <- (if truthy_str username
                       && negb (opt_str_eqb (Some username) (conf_ip c))
                    then unlink ;;; ret username
                    else if negb (truthy_str username) then ret (conf_username c)
                    else ret username) ;;
      ret (mkBridge ip' deviceName username' false [] [] [])
  | None => ret (mkBridge ip deviceName username false [] [] [])
  end.

(** The outcome of [Path.write_text]: the file holds the text, or the
    write raised and left the file in some state. *)
Inductive WriteOutcome : Type :=
| Written
| WriteFailed (left_behind : ConfFile).

(** The storage the config file lives on: what writing a config over the
    present file gives. *)
Variable disk : ConfFile -> Conf -> WriteOutcome.

(** [Bridge.saveConfigFile]: a failed write is logged and swallowed. *)
Definition Bridge_saveConfigFile : M World unit :=
  w <- get ;;
  let conf := mkConf (_ip (bridge w)) (_username (bridge w)) in
  match disk (confFile w) conf with
  | Written => put (with_confFile (Stored conf) w)
  | WriteFailed left_behind => put (with_confFile left_behind w)
  end.

(** ** Lookups *)

(** [Bridge.light]. *)
Definition Bridge_light (b : Bridge) (lightId : Z) (lightName : string)
  : Result Light :=
  if (lightId =? 0)%Z && negb (truthy_str lightName) then Raises SelectorError
  else if (lightId =? 0)%Z then
    match List.find (fun l => String.eqb (light_name l) lightName)
            (dict_values (_lights b)) with
    | Some l => Returns l
    | None => Raises NoSuchLight
    end
  else
    match dict_get (_lights b) lightId with
    | None => Raises NoSuchLight
    | Some l => Returns l
    end.

(** [Bridge.group]: the name decides when given, the id otherwise; there is
    no selector test. *)
Definition Bridge_group (b : Bridge) (groupId : Z) (groupName : string)
  : Result Group :=
  if truthy_str groupName then
    match List.find (fun g => String.eqb (group_name g) groupName)
            (dict_values (_groups b)) with
    | Some g => Returns g
    | None => Raises NoSuchGroup
    end
  else
    match dict_get (_groups b) groupId with
    | None => Raises NoSuchGroup
    | Some g => Returns g
    end.

(** [Bridge.scene]. *)
Definition Bridge_scene (b : Bridge) (sceneId sceneName : string)
  : Result Scene :=
  if negb (truthy_str sceneId) && negb (truthy_str sceneName)
  then Raises SelectorError
  else if negb (truthy_str sceneId) then
    match List.find (fun s => String.eqb (scene_name s) sceneName)
            (dict_values (_scenes b)) with
    | Some s => Returns s
    | None => Raises NoSuchScene
    end
  else
    match dict_get (_scenes b) sceneId with
    | None => Raises NoSuchScene
    | Some s => Returns s
    end.

(** [Bridge.groupsByName]: the dict comprehension assigns the groups to
    their names in registry order, a later group replacing an earlier one of
    the same name. *)
Definition Bridge_groupsByName (b : Bridge) : list (string * Group) :=
  fold_left (fun acc g => dict_set acc (group_name g) g)
    (dict_values (_groups b)) [].

(** [Bridge.scenesByName]. *)
Definition Bridge_scenesByName (b : Bridge) : list (string * Scene) :=
  fold_left (fun acc sc => dict_set acc (scene_name (snd sc)) (snd sc))
    (_scenes b) [].

(** [Light.isOn] and [Light.isOff]. *)
Definition Light_isOn (self : Light) : Result Json :=
  match light_state self !! "on" with
  | Some v => Returns v
  | None => Raises KeyError
  end.

Definition Light_isOff (self : Light) : Result bool :=
  match light_state self !! "on" with
  | Some v => Returns (negb (truthy v))
  | None => Raises KeyError
  end.

(** [Group.isOn] and [Group.isOff]. *)
Definition Group_isOn (self : Group) : Result Json :=
  match group_state self !! "any_on" with
  | Some v => Returns v
  | None => Raises KeyError
  end.

Definition Group_isOff (self : Group) : Result bool :=
  match group_state self !! "any_on" with
  | Some v => Returns (negb (truthy v))
  | None => Raises KeyError
  end.

(** ** Reading answers *)

Definition json_eq_str (j : Json) (s : string) : bool :=
  match j with
  | JStr t => String.eqb t s
  | _ => false
  end.

(** [key in j] for a string [key]. *)
Definition py_in (key : string) (j : Json) : Result bool :=
  match j with
  | JObj o => Returns (dict_mem o key)
  | JArr l => Returns (existsb (fun x => json_eq_str x key) l)
  | JStr s => Returns (str_in key s)
  | JNull | JBool _ | JNum _ => Raises TypeError
  end.

(** [j[key]] for a string [key]. *)
Definition py_getitem (j : Json) (key : string) : Result Json :=
  match j with
  | JObj o => match dict_get o key with
              | Some v => Returns v
              | None => Raises KeyError
              end
  | _ => Raises TypeError
  end.

Definition chars (s : string) : list Json :=
  map (fun c => JStr (String c EmptyString)) (list_ascii_of_string s).

(** [iter(answer)]: the elements of a list, the keys of an object. *)
Definition py_iter (a : Answer) : Result (list Json) :=
  match a with
  | Plain (JArr l) => Returns l
  | Plain (JObj o) => Returns (map (fun kv => JStr (fst kv)) o)
  | Plain (JStr s) => Returns (chars s)
  | Plain _ => Raises TypeError
  | GroupsObj items => Returns (map (fun kv => JStr (fst kv)) items)
  | LightsObj items => Returns (map (fun kv => JStr (fst kv)) items)
  | ScenesObj items => Returns (map (fun kv => JStr (fst kv)) items)
  end.

(** [Response.json()]. *)
Definition json (r : Response) : Result Answer :=
  match payload r with
  | Some a => Returns a
  | None => Raises JSONDecodeError
  end.

(** [isinstance(answer, list) and key in answer[0]], the body shared by
    [errorReturned] and [successReturned]. *)
Definition first_has (key : string) (answer : Answer) : Result bool :=
  match answer with
  | Plain (JArr l) =>
      match l with
      | [] => Raises IndexError
      | x :: _ => py_in key x
      end
  | _ => Returns false
  end.

(** [Bridge.errorReturned]. *)
Definition Bridge_errorReturned (answer : Answer) : Result bool :=
  first_has "error" answer.

(** [Bridge.successReturned]. *)
Definition Bridge_successReturned (answer : Answer) : Result bool :=
  first_has "success" answer.

(** ** The session's operations *)

Definition is_phue_exn_reraised_by_connect (e : exn) : bool :=
  match e with
  | UnauthorizedUser | NoPhueIP | NoPhueBridgeFound => true
  | _ => false
  end.

(** The items of a resource listing, or the exception iterating over it and
    constructing its entities raises.  An empty JSON object is an empty
    listing of any kind; an array has no [items()]. *)
Definition group_items (a : Answer) : Result (list (string * GroupData)) :=
  match a with
  | GroupsObj items => Returns items
  | Plain (JObj []) | LightsObj [] | ScenesObj [] => Returns []
  | Plain (JObj _) | LightsObj _ | ScenesObj _ => Raises TypeError
  | Plain _ => Raises AttributeError
  end.

Definition light_items (a : Answer) : Result (list (string * LightData)) :=
  match a with
  | LightsObj items => Returns items
  | Plain (JObj []) | GroupsObj [] | ScenesObj [] => Returns []
  | Plain (JObj _) | GroupsObj _ | ScenesObj _ => Raises TypeError
  | Plain _ => Raises AttributeError
  end.

Definition scene_items (a : Answer) : Result (list (string * SceneData)) :=
  match a with
  | ScenesObj items => Returns items
  | Plain (JObj []) | GroupsObj [] | LightsObj [] => Returns []
  | Plain (JObj _) | GroupsObj _ | LightsObj _ => Raises TypeError
  | Plain _ => Raises AttributeError
  end.

(** Group 0, as [loadDevices] builds it. *)
Definition everywhere : Group :=
  group_with_state
    (<["all_on" := JBool false]> (<["any_on" := JBool false]> ∅))
    (group_with_name "everywhere" (Group_init 0 Group_default)).

(** [self._scenes[sceneId] = scene] for the scene built from [data]. *)
Definition store_scene (sceneId : string) (data : SceneData) (w : World)
  : World :=
  with_bridge (fun b =>
    bridge_with_scenes
      (dict_set (_scenes b) sceneId (Scene_init sceneId (Scene_of_data data)))
      b) w.

(** The request [sendRequest] hands to [requests.request]: [data or dict()],
    [url or '/api'], the API root put in front of an URL that lacks it, and
    the address of the session. *)
Definition request_of (b : Bridge) (url : option string) (data : option Json)
    (method : string) : Request :=
  let data := match data with
              | Some d => if truthy d then d else JObj []
              | None => JObj []
              end in
  let url := match url with
             | Some u => if truthy_str u then u else "/api"
             | None => "/api"
             end in
  let url := if startswith url "/api" then url
             else "/api" +:+ slash_unless_rooted url +:+ url in
  mkRequest method ("http://" +:+ str_of_opt (_ip b) +:+ url) data.

(** The URL [sendAuthRequest] passes on: the credential becomes the leading
    segment unless the URL already contains it. *)
Definition auth_url (b : Bridge) (url : string) : string :=
  if negb (str_in (_username b) url)
  then "/" +:+ _username b +:+ slash_unless_rooted url +:+ url
  else url.

Section Session.
(** [requests.request]: the response to a request, given the requests
    attempted before it; [None] is a transport failure. *)
Variable transport : list Request -> Request -> option Response.

(** The discovery service and the probe of each candidate address:
    [None] when the service cannot be reached or answers no JSON,
    otherwise the candidates with the verdict of [/api/config]. *)
Variable discovery : option (list (string * bool)).

(** [Bridge.sendRequest]. *)
Definition Bridge_sendRequest (url : option string) (data : option Json)
    (method : string) (silent : bool) : M World (option Response) :=
  w <- get ;;
  let rq := request_of (bridge w) url data method in
  put (with_sent (fun l => (l ++ [rq])%list) w) ;;;
  match transport (sent w) rq with
  | Some r => ret (Some r)
  | None => if silent then ret None else raise PhueRequestError
  end.

(** [Bridge.sendAuthRequest]. *)
Definition Bridge_sendAuthRequest (url : string) (data : option Json)
    (method : string) (silent : bool) : M World (option Response) :=
  w <- get ;;
  Bridge_sendRequest (Some (auth_url (bridge w) url)) data method silent.

(** What a non-silent request gives: the response, or the request error
    when the transport fails. *)
Definition delivered (w : World) (rq : Request) : Result (option Response) :=
  match transport (sent w) rq with
  | Some r => Returns (Some r)
  | None => Raises PhueRequestError
  end.

Definition record (rq : Request) (w : World) : World :=
  with_sent (fun l => (l ++ [rq])%list) w.

(** The request an entity sends for [url] under [root] ("/lights" or
    "/groups"). *)
Definition entity_request (w : World) (root url : string)
    (data : option Json) (method : string) : Request :=
  request_of (bridge w)
    (Some (auth_url (bridge w) (root +:+ slash_unless_rooted url +:+ url)))
    data method.

(** [Bridge.isPhueBridge], on a candidate and the verdict of its probe. *)
Definition Bridge_isPhueBridge (candidate : string * bool) : bool :=
  if negb (truthy_str (fst candidate)) then false else snd candidate.

(** [Bridge.autodiscover]. *)
Definition Bridge_autodiscover : M World unit :=
  match discovery with
  | None => ret tt
  | Some candidates =>
      match List.find Bridge_isPhueBridge candidates with
      | Some device =>
          modify (with_bridge (bridge_with_ip (Some (fst device)))) ;;;
          Bridge_saveConfigFile
      | None => raise NoPhueBridgeFound
      end
  end.

(** One turn of the groups loop of [loadDevices]. *)
Definition load_group (item : string * GroupData) : M World unit :=
  groupId <- lift_result (int (fst item)) ;;
  let group := Group_init groupId (Group_of_data (snd item)) in
  modify (with_bridge (fun b =>
    bridge_with_groups (dict_set (_groups b) groupId group) b)).

(** One turn of the lights loop. *)
Definition load_light (item : string * LightData) : M World unit :=
  lightId <- lift_result (int (fst item)) ;;
  let light := Light_init lightId (Light_of_data (snd item)) in
  modify (with_bridge (fun b =>
    bridge_with_lights (dict_set (_lights b) lightId light) b)).

(** [self.group(int(data['group'])).myScenes.append(sceneId)] under
    [except NoSuchGroup: pass]. *)
Definition link_group_scene (sceneId : string) (data : SceneData)
  : M World unit :=
  match sd_group data with
  | None => raise KeyError
  | Some g =>
      groupId <- lift_result (int g) ;;
      w <- get ;;
      match Bridge_group (bridge w) groupId "" with
      | Returns group =>
          modify (with_bridge (fun b =>
            bridge_with_groups
              (dict_set (_groups b) groupId
                 (group_with_myScenes (group_myScenes group ++ [sceneId])%list
                    group)) b))
      | Raises NoSuchGroup => ret tt
      | Raises e => raise e
      end
  end.

(** [self.light(int(lightId)).myScenes.append(sceneId)] under
    [except NoSuchLight: pass]. *)
Definition link_light_scene (sceneId : string) (lightId : string)
  : M World unit :=
  lightId <- lift_result (int lightId) ;;
  w <- get ;;
  match Bridge_light (bridge w) lightId "" with
  | Returns light =>
      modify (with_bridge (fun b =>
        bridge_with_lights
          (dict_set (_lights b) lightId
             (light_with_myScenes (light_myScenes light ++ [sceneId])%list
                light)) b))
  | Raises NoSuchLight => ret tt
  | Raises e => raise e
  end.

(** One turn of the scenes loop.  The constructor requires [type], so
    the test for its absence never succeeds on constructed scenes. *)
Definition load_scene (item : string * SceneData) : M World unit :=
  let sceneId := fst item in
  let data := snd item in
  modify (store_scene sceneId data) ;;;
  if String.eqb (sd_type data) "GroupScene" then
    link_group_scene sceneId data
  else if String.eqb (sd_type data) "LightScene"
          && negb (String.eqb (sd_name data) "Last on state") then
    for_each (sd_lights data) (link_light_scene sceneId)
  else ret tt.

(** [Bridge.loadDevices]. *)
Definition Bridge_loadDevices : M World unit :=
  modify (with_bridge (fun b =>
    bridge_with_groups (dict_set (_groups b) 0 everywhere) b)) ;;;
  req <- Bridge_sendAuthRequest "/groups" None "GET" false ;;
  match req with
  | Some r =>
      if ok r then
        answer <- lift_result (json r) ;;
        items <- lift_result (group_items answer) ;;
        for_each items load_group
      else ret tt
  | None => ret tt
  end ;;;
  req <- Bridge_sendAuthRequest "/lights" None "GET" false ;;
  match req with
  | Some r =>
      if ok r then
        answer <- lift_result (json r) ;;
        items <- lift_result (light_items answer) ;;
        for_each items load_light
      else ret tt
  | None => ret tt
  end ;;;
  if truthy_resp req then
    req <- Bridge_sendAuthRequest "/scenes" None "GET" false ;;
    match req with
    | Some r =>
        answer <- lift_result (json r) ;;
        items <- lift_result (scene_items answer) ;;
        for_each items load_scene
    | None => raise AttributeError
    end
  else ret tt.

(** [Bridge.connect]. *)
Definition Bridge_connect (autodiscover : bool) : M World bool :=
  connected <-
    try_except
      (w <- get ;;
       (if negb (truthy_opt_str (_ip (bridge w))) && autodiscover
        then Bridge_autodiscover
        else if negb (truthy_opt_str (_ip (bridge w))) && negb autodiscover
             then raise NoPhueIP
             else ret tt) ;;;
       w <- get ;;
       if negb (truthy_str (_username (bridge w))) then raise UnauthorizedUser
       else
         req <- Bridge_sendRequest (Some ("/" +:+ _username (bridge w)))
                  None "GET" false ;;
         match req with
         | Some r =>
             if ok r then
               answer <- lift_result (json r) ;;
               err <- lift_result (Bridge_errorReturned answer) ;;
               if err : bool then raise UnauthorizedUser
               else
                 modify (with_bridge (bridge_with_connected true)) ;;;
                 ret true
             else raise OSError
         | None => raise OSError
         end)
      (fun e => if is_phue_exn_reraised_by_connect e then raise e
                else ret false) ;;
  if connected : bool then
    try_except Bridge_loadDevices (fun _ => ret tt) ;;;
    ret true
  else ret false.

(** [answer[0]['success']['username']].  The session holds its credential
    as a string, as the annotation of the constructor has it; an answer
    that grants a value of another JSON type is outside this model (the
    source would assign that value as it is), and the statements about
    [register] are made for bridges that grant strings. *)
Definition registered_username (answer : Answer) : Result string :=
  match answer with
  | Plain (JArr (x :: _)) =>
      match py_getitem x "success" with
      | Returns s =>
          match py_getitem s "username" with
          | Returns (JStr u) => Returns u
          | Returns _ => Raises TypeError
          | Raises e => Raises e
          end
      | Raises e => Raises e
      end
  | Plain (JArr []) => Raises IndexError
  | _ => Raises KeyError
  end.

(** [Bridge.register]. *)
Definition Bridge_register (saveConnection : bool) : M World bool :=
  try_except
    (w <- get ;;
     req <- Bridge_sendRequest None
              (Some (JObj [("devicetype",
                            JStr ("phueAPI#" +:+ _deviceName (bridge w)))]))
              "POST" false ;;
     match req with
     | Some r =>
         if ok r then
           answer <- lift_result (json r) ;;
           err <- lift_result (Bridge_errorReturned answer) ;;
           if err : bool then raise LinkButtonNotPressed
           else
             suc <- lift_result (Bridge_successReturned answer) ;;
             if suc : bool then
               (if saveConnection then
                  u <- lift_result (registered_username answer) ;;
                  modify (with_bridge (bridge_with_username u)) ;;;
                  Bridge_saveConfigFile
                else ret tt) ;;;
               ret true
             else raise OtherException
         else raise PhueRegistrationError
     | None => raise PhueRegistrationError
     end)
    (fun e => match e with
              | LinkButtonNotPressed => raise LinkButtonNotPressed
              | _ => raise PhueRegistrationError
              end).

(** ** [Light] *)

Definition self_light : M (Light * World) Light :=
  s <- get ;; ret (fst s).

(** [self.state[key] = value]. *)
Definition Light_state_set (key : string) (value : Json)
  : M (Light * World) unit :=
  modify (fun s : Light * World =>
    (light_with_state (<[key := value]> (light_state (fst s))) (fst s),
     snd s)).

(** [Light.reachable]. *)
Definition Light_reachable : M (Light * World) Json :=
  self <- self_light ;;
  match light_state self !! "reachable" with
  | Some r => ret r
  | None => raise KeyError
  end.

(** [Light.request]. *)
Definition Light_request (url : string) (data : option Json)
    (method : string) : M (Light * World) unit :=
  reachable <- Light_reachable ;;
  self <- self_light ;;
  if negb (truthy reachable)
     || negb (match light_bridge self with Some _ => true | None => false end)
  then raise LightNotReachable
  else
    in_world (Bridge_sendAuthRequest
                ("/lights" +:+ slash_unless_rooted url +:+ url)
                data method false) ;;;
    ret tt.

Definition light_state_url (self : Light) : string :=
  "/" +:+ str_of_int (light_id self) +:+ "/state".

(** [Light.on]. *)
Definition Light_on : M (Light * World) unit :=
  self <- self_light ;;
  Light_request (light_state_url self)
    (Some (JObj [("on", JBool true)])) "PUT".

(** [Light.off]. *)
Definition Light_off : M (Light * World) unit :=
  self <- self_light ;;
  Light_request (light_state_url self)
    (Some (JObj [("on", JBool false)])) "PUT".

(** [Light.alert]. *)
Definition Light_alert (state : string) : M (Light * World) unit :=
  self <- self_light ;;
  Light_request (light_state_url self)
    (Some (JObj [("alert", JStr state)])) "PUT".

(** [Light.effect]. *)
Definition Light_effect (effect : string) : M (Light * World) unit :=
  self <- self_light ;;
  Light_request (light_state_url self)
    (Some (JObj [("effect", JStr effect)])) "PUT".

(** The setter of [Light.brightness]. *)
Definition Light_brightness_set (value : Z) : M (Light * World) unit :=
  if (value =? 0)%Z then
    Light_off ;;;
    Light_state_set "bri" (JInt 0)
  else
    let value := sorted3_mid_Z 1 value 254 in
    Light_state_set "bri" (JInt value) ;;;
    self <- self_light ;;
    Light_request (light_state_url self)
      (Some (JObj [("bri", JInt value)])) "PUT".

(** The setter of [Light.saturation]. *)
Definition Light_saturation_set (value : Z) : M (Light * World) unit :=
  let value := sorted3_mid_Z 1 value 254 in
  Light_state_set "sat" (JInt value) ;;;
  self <- self_light ;;
  Light_request (light_state_url self)
    (Some (JObj [("sat", JInt value)])) "PUT".

(** The setter of [Light.hue]. *)
Definition Light_hue_set (value : Z) : M (Light * World) unit :=
  let value := sorted3_mid_Z 0 value 65535 in
  Light_state_set "hue" (JInt value) ;;;
  self <- self_light ;;
  Light_request (light_state_url self)
    (Some (JObj [("hue", JInt value)])) "PUT".

(** [value[i]] on a list. *)
Definition index {S} (value : list Num) (i : nat) : M S Num :=
  match nth_error value i with
  | Some x => ret x
  | None => raise IndexError
  end.

(** The setter of [Light.xy]: the clamped pair is cached, [value] itself
    is the payload. *)
Definition Light_xy_set (value : list Num) : M (Light * World) unit :=
  v0 <- index value 0 ;;
  let x := sorted3_mid_Num (NInt 0) v0 (NInt 1) in
  v1 <- index value 1 ;;
  let y := sorted3_mid_Num (NInt 0) v1 (NInt 1) in
  Light_state_set "xy" (JArr [JNum x; JNum y]) ;;;
  self <- self_light ;;
  Light_request (light_state_url self)
    (Some (JObj [("xy", JArr (map JNum value))])) "PUT".

(** The setter of [Light.mired]. *)
Definition Light_mired_set (value : Z) : M (Light * World) unit :=
  Light_state_set "ct" (JInt value) ;;;
  self <- self_light ;;
  Light_request (light_state_url self)
    (Some (JObj [("ct", JInt value)])) "PUT".

Definition valid_colormode (mode : string) : bool :=
  String.eqb mode "hs" || String.eqb mode "xy" || String.eqb mode "ct".

(** The setter of [Light.colormode]: a light without the key is left
    alone, with a warning. *)
Definition Light_colormode_set (mode : string) : M (Light * World) unit :=
  self <- self_light ;;
  match light_state self !! "colormode" with
  | None => ret tt
  | Some _ =>
      let mode := if valid_colormode mode then mode else "ct" in
      Light_state_set "colormode" (JStr mode) ;;;
      Light_request (light_state_url self)
        (Some (JObj [("colormode", JStr mode)])) "PUT"
  end.

(** [Light.delete]. *)
Definition Light_delete : M (Light * World) unit :=
  self <- self_light ;;
  Light_request ("/" +:+ str_of_int (light_id self)) None "DELETE".

(** A call of one of the mutators of a light, with its arguments; the
    setter of [xy] is given a pair. *)
Inductive LightCall : Type :=
| CallOn
| CallOff
| CallAlert (state : string)
| CallEffect (effect : string)
| SetBrightness (value : Z)
| SetSaturation (value : Z)
| SetHue (value : Z)
| SetXy (x y : Num)
| SetMired (value : Z)
| SetColormode (mode : string)
| CallDelete.

Definition Light_call (c : LightCall) : M (Light * World) unit :=
  match c with
  | CallOn => Light_on
  | CallOff => Light_off
  | CallAlert state => Light_alert state
  | CallEffect effect => Light_effect effect
  | SetBrightness value => Light_brightness_set value
  | SetSaturation value => Light_saturation_set value
  | SetHue value => Light_hue_set value
  | SetXy x y => Light_xy_set [x; y]
  | SetMired value => Light_mired_set value
  | SetColormode mode => Light_colormode_set mode
  | CallDelete => Light_delete
  end.

(** ** [Group] *)

Definition self_group : M (Group * World) Group :=
  s <- get ;; ret (fst s).

Definition Group_state_set (key : string) (value : Json)
  : M (Group * World) unit :=
  modify (fun s : Group * World =>
    (group_with_state (<[key := value]> (group_state (fst s))) (fst s),
     snd s)).

Definition Group_action_set (key : string) (value : Json)
  : M (Group * World) unit :=
  modify (fun s : Group * World =>
    (group_with_action (<[key := value]> (group_action (fst s))) (fst s),
     snd s)).

Definition Group_name_set (name : string) : M (Group * World) unit :=
  modify (fun s : Group * World => (group_with_name name (fst s), snd s)).

(** [Group.request]. *)
Definition Group_request (url : string) (data : option Json)
    (method : string) : M (Group * World) (option Response) :=
  self <- self_group ;;
  match group_bridge self with
  | None => ret None
  | Some _ =>
      in_world (Bridge_sendAuthRequest
                  ("/groups" +:+ slash_unless_rooted url +:+ url)
                  data method false)
  end.

Definition group_action_url (self : Group) : string :=
  "/" +:+ str_of_int (group_id self) +:+ "/action".

(** [Group.on]. *)
Definition Group_on : M (Group * World) unit :=
  Group_state_set "any_on" (JBool true) ;;;
  Group_state_set "all_on" (JBool true) ;;;
  self <- self_group ;;
  Group_request (group_action_url self)
    (Some (JObj [("on", JBool true)])) "PUT" ;;;
  ret tt.

(** [Group.off]. *)
Definition Group_off : M (Group * World) unit :=
  Group_state_set "any_on" (JBool false) ;;;
  Group_state_set "all_on" (JBool false) ;;;
  self <- self_group ;;
  Group_request (group_action_url self)
    (Some (JObj [("on", JBool false)])) "PUT" ;;;
  ret tt.

(** [Group.toggle], through [isOff]. *)
Definition Group_toggle : M (Group * World) unit :=
  self <- self_group ;;
  match group_state self !! "any_on" with
  | None => raise KeyError
  | Some any_on => if negb (truthy any_on) then Group_on else Group_off
  end.

(** The setter of [Group.brightness]. *)
Definition Group_brightness_set (value : Z) : M (Group * World) unit :=
  if (value =? 0)%Z then
    Group_off ;;;
    Group_action_set "bri" (JInt 0)
  else
    let value := sorted3_mid_Z 1 value 254 in
    Group_action_set "bri" (JInt value) ;;;
    self <- self_group ;;
    Group_request (group_action_url self)
      (Some (JObj [("bri", JInt value)])) "PUT" ;;;
    ret tt.

(** The setter of [Group.saturation]. *)
Definition Group_saturation_set (value : Z) : M (Group * World) unit :=
  let value := sorted3_mid_Z 1 value 254 in
  Group_action_set "sat" (JInt value) ;;;
  self <- self_group ;;
  Group_request (group_action_url self)
    (Some (JObj [("sat", JInt value)])) "PUT" ;;;
  ret tt.

(** The setter of [Group.hue]. *)
Definition Group_hue_set (value : Z) : M (Group * World) unit :=
  let value := sorted3_mid_Z 0 value 65535 in
  Group_action_set "hue" (JInt value) ;;;
  self <- self_group ;;
  Group_request (group_action_url self)
    (Some (JObj [("hue", JInt value)])) "PUT" ;;;
  ret tt.

(** The key of the acknowledgment of a rename: [/groups/<id>/name]. *)
Definition group_name_key (self : Group) : string :=
  "/groups/" +:+ str_of_int (group_id self) +:+ "/name".

(** The test that makes the loop of [rename] skip an answer:
    [not 'success' in answer or not key in answer['success']]. *)
Definition rename_skips (key : string) (answer : Json) : Result bool :=
  match py_in "success" answer with
  | Raises e => Raises e
  | Returns false => Returns true
  | Returns true =>
      match py_getitem answer "success" with
      | Raises e => Raises e
      | Returns success =>
          match py_in key success with
          | Raises e => Raises e
          | Returns b => Returns (negb b)
          end
      end
  end.

(** [answer['success'][key]]. *)
Definition acknowledged (key : string) (answer : Json) : Result Json :=
  match py_getitem answer "success" with
  | Raises e => Raises e
  | Returns success => py_getitem success key
  end.

(** The loop of [Group.rename] over the answers; falling off its end is
    the final [return False].  An acknowledged name that is no string is
    stored as the empty string when adopted. *)
Fixpoint rename_loop (newName : string) (allowExistingName : bool)
    (answers : list Json) : M (Group * World) bool :=
  match answers with
  | [] => ret false
  | answer :: rest =>
      self <- self_group ;;
      skip <- lift_result (rename_skips (group_name_key self) answer) ;;
      if skip : bool then rename_loop newName allowExistingName rest
      else
        name <- lift_result (acknowledged (group_name_key self) answer) ;;
        if json_eq_str name newName then
          Group_name_set newName ;;; ret true
        else if allowExistingName then
          Group_name_set (match name with JStr n => n | _ => "" end) ;;;
          ret true
        else
          Group_request ("/" +:+ str_of_int (group_id self))
            (Some (JObj [("name", JStr (group_name self))])) "PUT" ;;;
          ret false
  end.

(** [Group.rename]. *)
Definition Group_rename (newName : string) (allowExistingName : bool)
  : M (Group * World) bool :=
  self <- self_group ;;
  response <- Group_request ("/" +:+ str_of_int (group_id self))
                (Some (JObj [("name", JStr newName)])) "PUT" ;;
  match response with
  | None => ret false
  | Some r =>
      if ok r then
        answer <- lift_result (json r) ;;
        answers <- lift_result (py_iter answer) ;;
        rename_loop newName allowExistingName answers
      else ret false
  end.

(** [Group.alert]. *)
Definition Group_alert (state : string) : M (Group * World) unit :=
  self <- self_group ;;
  Group_request (group_action_url self)
    (Some (JObj [("alert", JStr state)])) "PUT" ;;;
  ret tt.

(** [Group.effect]. *)
Definition Group_effect (effect : string) : M (Group * World) unit :=
  self <- self_group ;;
  Group_request (group_action_url self)
    (Some (JObj [("effect", JStr effect)])) "PUT" ;;;
  ret tt.

(** [Group.delete]. *)
Definition Group_delete : M (Group * World) unit :=
  self <- self_group ;;
  Group_request ("/" +:+ str_of_int (group_id self)) None "DELETE" ;;;
  ret tt.

(** The loop of [Group.scene] over [myScenes] when only a name is given:
    [self.bridge.scenes[sceneId]] raises [KeyError] on an id the registry
    does not hold; falling off the end is the final raise. *)
Fixpoint scene_by_name (sceneName : string) (ids : list string)
  : M (Group * World) unit :=
  match ids with
  | [] => raise NoSuchSceneInGroup
  | sceneId :: rest =>
      s <- get ;;
      match dict_get (_scenes (bridge (snd s))) sceneId with
      | None => raise KeyError
      | Some scene =>
          if negb (String.eqb (lower (scene_name scene)) (lower sceneName))
          then scene_by_name sceneName rest
          else
            Group_request (group_action_url (fst s))
              (Some (JObj [("scene", JStr sceneId)])) "PUT" ;;;
            ret tt
      end
  end.

(** [Group.scene]. *)
Definition Group_scene (sceneId sceneName : string) : M (Group * World) unit :=
  if negb (truthy_str sceneId) && negb (truthy_str sceneName)
  then raise SelectorError
  else
    s <- get ;;
    match group_bridge (fst s) with
    | None => raise SelectorError
    | Some _ =>
        if negb (truthy_str sceneId)
        then scene_by_name sceneName (group_myScenes (fst s))
        else if negb (dict_mem (_scenes (bridge (snd s))) sceneId)
        then raise NoSuchScene
        else if negb (existsb (String.eqb sceneId) (group_myScenes (fst s)))
        then raise NoSuchSceneInGroup
        else
          Group_request (group_action_url (fst s))
            (Some (JObj [("scene", JStr sceneId)])) "PUT" ;;;
          ret tt
    end.

(** The loop of [Light.configure]: a key the state does not hold is
    passed over. *)
Fixpoint configure_state (data : list (string * Json))
    (state : gmap string Json) : gmap string Json :=
  match data with
  | [] => state
  | (key, value) :: rest =>
      match state !! key with
      | None => configure_state rest state
      | Some _ => configure_state rest (<[key := value]> state)
      end
  end.

(** [Light.configure]. *)
Definition Light_configure (data : list (string * Json)) (sendToBridge : bool)
  : M (Light * World) unit :=
  modify (fun s : Light * World =>
    (light_with_state (configure_state data (light_state (fst s))) (fst s),
     snd s)) ;;;
  if sendToBridge then
    self <- self_light ;;
    Light_request (light_state_url self) (Some (JObj data)) "PUT"
  else ret tt.

Definition valid_groupType (groupType : string) : bool :=
  existsb (String.eqb groupType)
    ["LightGroup"; "Room"; "Luminaire"; "LightSource"; "Zone";
     "Entertainment"].

(** The body [addGroup] posts. *)
Definition addGroup_body (groupName : string) (lights : list string)
    (groupType clazz : string) : list (string * Json) :=
  let groupType := if negb (valid_groupType groupType) then "LightGroup"
                   else groupType in
  let body := [("lights", JArr (map JStr lights));
               ("name", JStr groupName);
               ("type", JStr groupType)] in
  if String.eqb groupType "Room" then dict_set body "class" (JStr clazz)
  else body.

(** [Bridge.addGroup]. *)
Definition Bridge_addGroup (groupName : string) (lights : list string)
    (groupType clazz : string) : M World unit :=
  Bridge_sendAuthRequest "/groups"
    (Some (JObj (addGroup_body groupName lights groupType clazz)))
    "POST" false ;;;
  ret tt.

End Session.
End Environment.

(** A disk on which every write succeeds, and one on which every write
    fails and leaves the file as it was. *)
Definition good_disk : ConfFile -> Conf -> WriteOutcome :=
  fun _ _ => Written.

Definition full_disk : ConfFile -> Conf -> WriteOutcome :=
  fun file _ => WriteFailed file.

(** * Sample sessions *)

Definition sample_bridge : Bridge :=
  mkBridge (Some "192.168.1.2") "phuepython" "user" true
    [(0, everywhere ascii_lower)] [] [].

Definition sample_world : World := mkWorld sample_bridge [] NoFile.

(** A transport that answers every request with an empty success list. *)
Definition always_ok : list Request -> Request -> option Response :=
  fun _ _ => Some (mkResponse true (Some (Plain (JArr [])))).

(** A transport that never reaches the bridge. *)
Definition always_down : list Request -> Request -> option Response :=
  fun _ _ => None.

(** A colour light, as loaded, and the same light out of reach. *)
Definition colour_light : Light :=
  mkLight
    (<["reachable" := JBool true]>
       (<["colormode" := JStr "xy"]>
          (<["xy" := JArr [JNum (NFloat (3 # 10)); JNum (NFloat (3 # 10))]]>
             (<["bri" := JInt 100]> (<["on" := JBool true]> ∅)))))
    (JObj []) "Extended color light" "desk" "LCT015" "Philips"
    "Hue color lamp" (JObj []) (JObj []) "00:17:88:01:02:03:04:06-0b"
    "1.50.2" "" "" 3 (Some TheBridge) [].

Definition unreachable_colour_light : Light :=
  light_with_state (<["reachable" := JBool false]> (light_state colour_light))
    colour_light.

(** A dimmable white light out of reach: its state has no colour mode. *)
Definition unreachable_white_light : Light :=
  mkLight
    (<["reachable" := JBool false]>
       (<["bri" := JInt 100]> (<["on" := JBool true]> ∅)))
    (JObj []) "Dimmable light" "hall" "LWB010" "Philips" "Hue white lamp"
    (JObj []) (JObj []) "00:17:88:01:02:03:04:07-0b" "1.50.2" "" "" 4
    (Some TheBridge) [].

(** A room, as loaded. *)
Definition living_room : Group :=
  mkGroup "living room" ["3"; "4"] [] "Room"
    (<["all_on" := JBool true]> (<["any_on" := JBool true]> ∅)) false
    (<["bri" := JInt 50]> (<["on" := JBool true]> ∅)) "Living room"
    (JObj []) (JObj []) 1 (Some TheBridge) [].

(** The bridge acknowledging a rename of group 1 under another name. *)
Definition renamed_otherwise : Response :=
  mkResponse true
    (Some (Plain (JArr [JObj [("success",
                               JObj [("/groups/1/name", JStr "den 1")])]]))).

Definition one_group_bridge : Bridge :=
  mkBridge (Some "192.168.1.2") "phuepython" "user" true
    [(0, everywhere ascii_lower)] [] [].

Definition kitchen_data : LightData :=
  mkLightData (<["reachable" := JBool true]> (<["on" := JBool false]> ∅))
    (JObj []) "Dimmable light" "Kitchen" "LWB010" "Philips" "Hue white lamp"
    (JObj []) (JObj []) "00:17:88:01:02:03:04:05-0b" "1.50.2" "" "".

(** The session after a load that reported one light, named "Kitchen". *)
Definition kitchen_bridge : Bridge :=
  mkBridge (Some "192.168.1.2") "phuepython" "user" true
    [(0, everywhere ascii_lower)]
    [(1, Light_init ascii_lower 1 (Light_of_data kitchen_data))]
    [].

(** A light scene over light 1 and a light the registry does not know, and
    the world after a load that reported the kitchen light. *)
Definition evening_scene : SceneData :=
  mkSceneData "Evening" "LightScene" ["1"; "9"] "owner" false false (JObj [])
    "" "2020-01-01T00:00:00" 2 "" None.

Definition kitchen_world : World := mkWorld kitchen_bridge [] NoFile.

(** A bridge that reports no group, no light and no scene any more. *)
Definition emptied_bridge : list Request -> Request -> option Response :=
  fun _ _ => Some (mkResponse true (Some (Plain (JObj [])))).

(** A room as the bridge lists it, and a bridge that lists this room as
    group 1, the kitchen light as light 1 and the evening scene as "s2". *)
Definition den_data : GroupData :=
  mkGroupData "Den" ["1"] [] "Room"
    (<["all_on" := JBool false]> (<["any_on" := JBool false]> ∅)) false
    (<["on" := JBool false]> ∅) (Some "Living room") (JObj []) (JObj []).

Definition listing_bridge : list Request -> Request -> option Response :=
  fun history _ =>
    match history with
    | [] => Some (mkResponse true (Some (GroupsObj [("1", den_data)])))
    | [_] => Some (mkResponse true (Some (LightsObj [("1", kitchen_data)])))
    | _ => Some (mkResponse true (Some (ScenesObj [("s2", evening_scene)])))
    end.

(** A session whose registry holds light 1, group 7 and scene "s1" from an
    earlier load. *)
Definition loaded_world : World :=
  mkWorld
    (mkBridge (Some "192.168.1.2") "phuepython" "user" true
       [(0, everywhere ascii_lower);
        (7, Group_init ascii_lower 7 living_room)]
       [(1, Light_init ascii_lower 1 (Light_of_data kitchen_data))]
       [("s1", Scene_init ascii_lower "s1" (Scene_of_data evening_scene))])
    [] NoFile.

(** The stored config of an earlier pairing. *)
Definition stored_conf : Conf := mkConf (Some "192.168.1.2") "abc".

(** The answer [[]] and a session that knows its address and credential. *)
Definition empty_array : Response := mkResponse true (Some (Plain (JArr []))).

Definition paired_world : World :=
  mkWorld (mkBridge (Some "192.168.1.2") "phuepython" "user" false [] [] [])
    [] NoFile.

(** A transport that answers the first request of a session with
    [renamed_otherwise] and fails from then on. *)
Definition down_after_first : list Request -> Request -> option Response :=
  fun history _ =>
    match history with
    | [] => Some renamed_otherwise
    | _ :: _ => None
    end.

(** A light scene that lists the light id "0". *)
Definition zero_scene : SceneData :=
  mkSceneData "Morning" "LightScene" ["0"; "1"] "owner" false false (JObj [])
    "" "2020-01-01T00:00:00" 2 "" None.


Definition granted_answer : Response :=
  mkResponse true
    (Some (Plain (JArr [JObj [("success",
                               JObj [("username", JStr "k3y")])]]))).

(** A session that knows the address of its bridge and has no credential. *)
Definition unpaired_world : World :=
  mkWorld (mkBridge (Some "192.168.1.2") "phuepython" "" false [] [] [])
    [] NoFile.

Definition granting_bridge : list Request -> Request -> option Response :=
  fun _ _ => Some granted_answer.


(** Two candidates of the discovery service: the first is no bridge, the
    second is. *)
Definition two_candidates : option (list (string * bool)) :=
  Some [("192.168.1.7", false); ("192.168.1.2", true)].

(** A session that knows nothing yet. *)
Definition fresh_world : World :=
  mkWorld (mkBridge None "phuepython" "" false [] [] []) [] NoFile.

(** The living room with two scenes of its own, and a session whose
    registry holds the first of them under the name "relax". *)
Definition living_room_with_scenes : Group :=
  group_with_myScenes ["s1"; "s2"] living_room.

Definition relax_scene : SceneData :=
  mkSceneData "Relax" "GroupScene" ["3"; "4"] "owner" false false (JObj [])
    "" "2020-01-01T00:00:00" 2 "" (Some "1").

Definition scenes_world : World :=
  mkWorld
    (mkBridge (Some "192.168.1.2") "phuepython" "user" true
       [(0, everywhere ascii_lower); (1, living_room_with_scenes)] []
       [("s1", Scene_init ascii_lower "s1" (Scene_of_data relax_scene));
        ("s9", Scene_init ascii_lower "s9" (Scene_of_data evening_scene))])
    [] NoFile.

(** Two groups that were given the same name. *)
Definition twin_bridge : Bridge :=
  mkBridge (Some "192.168.1.2") "phuepython" "user" true
    [(0, everywhere ascii_lower); (1, living_room);
     (2, Group_init ascii_lower 2 (group_with_name "Living Room" Group_default))]
    [] [].

(** A bridge that answers every request with an error status. *)
Definition erring_bridge : list Request -> Request -> option Response :=
  fun _ _ => Some (mkResponse false (Some (Plain (JArr [])))).

(** A group built by hand, never loaded: it has no session. *)
Definition detached_group : Group :=
  group_with_state (<["any_on" := JBool false]> ∅)
    (group_with_name "draft" Group_default).

(** The bridge answering a rename without a word on the name. *)
Definition unrelated_answer : Response :=
  mkResponse true
    (Some (Plain (JArr [JObj [("error", JObj [("type", JInt 7)])];
                        JObj [("success", JObj [("/groups/1/lights",
                                                 JArr [])])]]))).

(** * Notions of the statements *)

(** Every id of the three registries of [w] is an id of those of [w']. *)
Definition keeps_entries (w w' : World) : Prop :=
  (forall k, dict_mem (_groups (bridge w)) k = true ->
             dict_mem (_groups (bridge w')) k = true)
  /\ (forall k, dict_mem (_lights (bridge w)) k = true ->
                dict_mem (_lights (bridge w')) k = true)
  /\ (forall k, dict_mem (_scenes (bridge w)) k = true ->
                dict_mem (_scenes (bridge w')) k = true).

(** A computation that removes no entry, whatever its outcome. *)
Definition grows {A} (c : M World A) : Prop :=
  forall w, keeps_entries w (snd (c w)).

(** A computation whose final state is [R]-related to its initial state,
    whatever its outcome. *)
Definition preserves (R : World -> World -> Prop) {A} (c : M World A) : Prop :=
  forall w, R w (snd (c w)).

(** The address, the label, the credential, the connection flag and the
    config file of [w'] are those of [w]. *)
Definition same_session (w w' : World) : Prop :=
  _ip (bridge w') = _ip (bridge w)
  /\ _deviceName (bridge w') = _deviceName (bridge w)
  /\ _username (bridge w') = _username (bridge w)
  /\ _connected (bridge w') = _connected (bridge w)
  /\ confFile w' = confFile w.

(** The exceptions [connect] lets through. *)
Definition connect_exception (e : exn) : Prop :=
  e = UnauthorizedUser \/ e = NoPhueIP \/ e = NoPhueBridgeFound.

(** The first step of [loadDevices]: group 0 is assigned. *)
Definition set_everywhere (lower : string -> string) (w : World) : World :=
  with_bridge (fun b =>
    bridge_with_groups (dict_set (_groups b) 0 (everywhere lower)) b) w.

(** The request [loadDevices] sends for a listing. *)
Definition listing_request (w : World) (url : string) : Request :=
  request_of (bridge w) (Some (auth_url (bridge w) url)) None "GET".

(** The bridge answers the three listings of a reload of [w]: the
    requests for the groups, the lights and the scenes, sent in this order
    after the requests of [w], get [gitems], [litems] and [sitems], the
    first two with a success status. *)
Definition answers_listings
    (transport : list Request -> Request -> option Response) (w : World)
    (gitems : list (string * GroupData)) (litems : list (string * LightData))
    (sitems : list (string * SceneData)) : Prop :=
  exists rg rl rs,
    transport (sent w) (listing_request w "/groups") = Some rg
    /\ ok rg = true /\ payload rg = Some (GroupsObj gitems)
    /\ transport (sent w ++ [listing_request w "/groups"])%list
         (listing_request w "/lights") = Some rl
    /\ ok rl = true /\ payload rl = Some (LightsObj litems)
    /\ transport (sent w ++ [listing_request w "/groups";
                             listing_request w "/lights"])%list
         (listing_request w "/scenes") = Some rs
    /\ payload rs = Some (ScenesObj sitems).

(** The groups and the lights of [w] are in [w'] under their ids, each
    what it was but for scene ids among [ids] appended to its
    [myScenes]. *)
Definition extended (ids : list string) (w w' : World) : Prop :=
  (forall k g,
     dict_get (_groups (bridge w)) k = Some g ->
     exists extra,
       Forall (fun sceneId => In sceneId ids) extra
       /\ dict_get (_groups (bridge w')) k
          = Some (group_with_myScenes (group_myScenes g ++ extra)%list g))
  /\ (forall k l,
        dict_get (_lights (bridge w)) k = Some l ->
        exists extra,
          Forall (fun sceneId => In sceneId ids) extra
          /\ dict_get (_lights (bridge w')) k
             = Some (light_with_myScenes (light_myScenes l ++ extra)%list l)).

(** [extended], with the scenes of the registry untouched. *)
Definition linked (ids : list string) (w w' : World) : Prop :=
  _scenes (bridge w') = _scenes (bridge w) /\ extended ids w w'.

(** What the groups loop of a reload leaves alone, and what the lights
    loop leaves alone. *)
Definition but_groups (w : World) :=
  (_lights (bridge w), _scenes (bridge w), sent w, _ip (bridge w),
   _username (bridge w)).

Definition but_lights (w : World) :=
  (_groups (bridge w), _scenes (bridge w), sent w, _ip (bridge w),
   _username (bridge w)).

(** An URL as it is joined to what precedes it: after a slash, unless it
    starts with one. *)
Definition rooted (url : string) : string := slash_unless_rooted url +:+ url.

(** The value the setters cache and send: [lo] below the range, [hi] above
    it, the value itself inside. *)
Definition clamp (lo hi value : Z) : Z := Z.max lo (Z.min value hi).

(** The credential an answer grants, [answer[0]['success']['username']],
    when it has one. *)
Definition granted_credential (answer : Answer) : option Json :=
  match answer with
  | Plain (JArr (x :: _)) =>
      match py_getitem x "success" with
      | Returns s =>
          match py_getitem s "username" with
          | Returns v => Some v
          | Raises _ => None
          end
      | Raises _ => None
      end
  | _ => None
  end.

(** The bridge grants strings only: whatever it answers the next request
    of [w], a credential in the answer is a string.  The session of the
    model keeps its credential as a string, as the constructor's annotation
    has it. *)
Definition grants_strings_only
    (transport : list Request -> Request -> option Response) (w : World)
    : Prop :=
  forall rq r answer v,
    transport (sent w) rq = Some r ->
    payload r = Some answer ->
    granted_credential answer = Some v ->
    exists u, v = JStr u.

(** The config file after a write of [conf] over [file]: [conf] when the
    write succeeds, what the failed write left behind otherwise. *)
Definition after_write (disk : ConfFile -> Conf -> WriteOutcome)
    (file : ConfFile) (conf : Conf) : ConfFile :=
  match disk file conf with
  | Written => Stored conf
  | WriteFailed left_behind => left_behind
  end.

(** * Properties *)

(** Unfolding the combinators of the monad. *)
Ltac unfold_monad :=
  cbv beta iota delta
    [bind ret raise get put modify try_except lift_result in_world
     fst snd negb andb orb].

(** ** Dictionaries *)

Section DictFacts.
Context {K V : Type} `{EqDecision K}.
Implicit Types (d : list (K * V)) (k : K) (v : V).

Lemma dict_get_set_eq d k v : dict_get (dict_set d k v) k = Some v.
Proof.
  induction d as [|[k' v'] d IH]; simpl.
  - destruct (decide (k = k)); congruence.
  - destruct (decide (k = k')) as [->|Hne]; simpl.
    + destruct (decide (k' = k')); congruence.
    + destruct (decide (k = k')); [congruence | exact IH].
Qed.

Lemma dict_get_set_ne d k k' v :
  k <> k' -> dict_get (dict_set d k v) k' = dict_get d k'.
Proof.
  intros Hne. induction d as [|[k0 v0] d IH]; simpl.
  - destruct (decide (k' = k)); congruence.
  - destruct (decide (k = k0)) as [->|Hk]; simpl.
    + destruct (decide (k' = k0)); congruence.
    + destruct (decide (k' = k0)); [reflexivity | exact IH].
Qed.

Lemma dict_mem_set d k k' v :
  dict_mem d k' = true -> dict_mem (dict_set d k v) k' = true.
Proof.
  unfold dict_mem. destruct (decide (k = k')) as [->|Hne].
  - now rewrite dict_get_set_eq.
  - now rewrite dict_get_set_ne.
Qed.

Lemma dict_mem_set_eq d k v : dict_mem (dict_set d k v) k = true.
Proof. unfold dict_mem. now rewrite dict_get_set_eq. Qed.

(** Assigning to a key that is present keeps the keys and their order. *)
Lemma dict_keys_set_present d k v :
  dict_mem d k = true -> dict_keys (dict_set d k v) = dict_keys d.
Proof.
  unfold dict_mem, dict_keys. induction d as [|[k' v'] d IH]; simpl.
  - discriminate.
  - destruct (decide (k = k')) as [->|Hne]; simpl; [reflexivity|].
    intros Hm. now rewrite IH.
Qed.

Lemma dict_get_None_not_In d k :
  dict_get d k = None -> ~ In k (dict_keys d).
Proof.
  unfold dict_keys. induction d as [|[k' v'] d IH]; simpl; [tauto|].
  destruct (decide (k = k')); [discriminate|].
  intros Hg [Heq|Hin]; [congruence | now apply IH].
Qed.
End DictFacts.

(** ** The first match of a scan by name *)

Lemma find_first_match {A} (p : A -> bool) (pre post : list A) (x : A) :
  p x = true -> (forall y, In y pre -> p y = false) ->
  List.find p (pre ++ x :: post) = Some x.
Proof.
  intros Hx Hpre. induction pre as [|y pre IH]; simpl.
  - now rewrite Hx.
  - rewrite (Hpre y) by now left. apply IH. intros z Hz. apply Hpre. now right.
Qed.

Lemma find_no_match {A} (p : A -> bool) (l : list A) :
  (forall y, In y l -> p y = false) -> List.find p l = None.
Proof.
  intros Hl. induction l as [|y l IH]; simpl; [reflexivity|].
  rewrite (Hl y) by now left. apply IH. intros z Hz. apply Hl. now right.
Qed.

Lemma truthy_str_nonempty (s : string) : s <> "" -> truthy_str s = true.
Proof.
  intros Hs. unfold truthy_str.
  destruct (String.eqb_spec s ""); [congruence | reflexivity].
Qed.

(** ** Lookups without a selector *)

(** C3, as stated, fails for [group()]: with neither id nor name it returns
    the group stored under id 0 instead of raising the selector error. *)
Lemma group_without_selector_returns_group_0 :
  Bridge_group one_group_bridge 0 "" = Returns (everywhere ascii_lower)
  /\ Bridge_group one_group_bridge 0 "" <> Raises SelectorError.
Proof. split; [reflexivity | discriminate]. Qed.

(** C3, amended: [light()] and [scene()] called with neither id nor name
    raise the selector error in every registry state; [group()] has no
    selector test: with neither id nor name it looks id 0 up, returning the
    group stored there and raising the group not-found error when there is
    none. *)
Theorem lookup_without_selector (b : Bridge) :
  Bridge_light b 0 "" = Raises SelectorError
  /\ Bridge_scene b "" "" = Raises SelectorError
  /\ Bridge_group b 0 "" =
       match dict_get (_groups b) 0 with
       | Some g => Returns g
       | None => Raises NoSuchGroup
       end.
Proof.
  split; [reflexivity | split; [reflexivity |]].
  unfold Bridge_group. simpl. destruct (dict_get (_groups b) 0); reflexivity.
Qed.

(** ** Lookups by name *)

(** C4, as stated, fails: the stored name is "kitchen", the query "Kitchen"
    equals it up to letter case, and the lookup raises the not-found
    error. *)
Lemma light_lookup_is_case_sensitive :
  dict_get (_lights kitchen_bridge) 1
    = Some (Light_init ascii_lower 1 (Light_of_data kitchen_data))
  /\ light_name (Light_init ascii_lower 1 (Light_of_data kitchen_data)) = ascii_lower "Kitchen"
  /\ Bridge_light kitchen_bridge 0 "Kitchen" = Raises NoSuchLight.
Proof. repeat split. Qed.

Lemma String_eqb_neq (a b : string) : a <> b -> String.eqb a b = false.
Proof. intros Hne. destruct (String.eqb_spec a b); congruence. Qed.

(** C4, amended: the stored names are compared with the query exactly (the
    query is not case-normalised).  For every non-empty query that equals
    the name of a stored light or group, [light(lightName=...)] and
    [group(groupName=...)] return the first entry in the registry's
    insertion order whose name equals the query; when every stored name is
    lower-case and the query is not, the lookup raises the not-found
    error of its kind. *)
Theorem lookup_by_name_first_exact_match (lower : string -> string) (b : Bridge)
    (query : string) :
  query <> "" ->
  (forall pre k l post,
     _lights b = (pre ++ (k, l) :: post)%list ->
     light_name l = query ->
     (forall k' l', In (k', l') pre -> light_name l' <> query) ->
     Bridge_light b 0 query = Returns l)
  /\ (forall groupId pre k g post,
        _groups b = (pre ++ (k, g) :: post)%list ->
        group_name g = query ->
        (forall k' g', In (k', g') pre -> group_name g' <> query) ->
        Bridge_group b groupId query = Returns g)
  /\ (lower query <> query ->
      (forall k l, In (k, l) (_lights b) -> lower (light_name l) = light_name l) ->
      Bridge_light b 0 query = Raises NoSuchLight)
  /\ (lower query <> query ->
      (forall k g, In (k, g) (_groups b) -> lower (group_name g) = group_name g) ->
      forall groupId, Bridge_group b groupId query = Raises NoSuchGroup).
Proof.
  intros Hq. pose proof (truthy_str_nonempty query Hq) as Ht.
  repeat split.
  - intros pre k l post Hl Hname Hpre.
    unfold Bridge_light. rewrite Ht. simpl.
    unfold dict_values. rewrite Hl, map_app. simpl.
    rewrite (find_first_match _ (map snd pre) (map snd post) l).
    + reflexivity.
    + rewrite Hname. apply String.eqb_refl.
    + intros y Hy. apply in_map_iff in Hy as [[k' l'] [<- Hin]].
      apply String_eqb_neq. exact (Hpre k' l' Hin).
  - intros groupId pre k g post Hg Hname Hpre.
    unfold Bridge_group. rewrite Ht.
    unfold dict_values. rewrite Hg, map_app. simpl.
    rewrite (find_first_match _ (map snd pre) (map snd post) g).
    + reflexivity.
    + rewrite Hname. apply String.eqb_refl.
    + intros y Hy. apply in_map_iff in Hy as [[k' g'] [<- Hin]].
      apply String_eqb_neq. exact (Hpre k' g' Hin).
  - intros Hlow Hall. unfold Bridge_light. rewrite Ht. simpl.
    rewrite find_no_match; [reflexivity|].
    intros y Hy. apply in_map_iff in Hy as [[k l] [<- Hin]]. simpl.
    apply String_eqb_neq. intros Heq. apply Hlow.
    rewrite <- Heq. exact (Hall k l Hin).
  - intros Hlow Hall groupId. unfold Bridge_group. rewrite Ht.
    rewrite find_no_match; [reflexivity|].
    intros y Hy. apply in_map_iff in Hy as [[k g] [<- Hin]]. simpl.
    apply String_eqb_neq. intros Heq. apply Hlow.
    rewrite <- Heq. exact (Hall k g Hin).
Qed.

Lemma lookup_by_name_first_exact_match_witness :
  Bridge_light kitchen_bridge 0 "kitchen"
    = Returns (Light_init ascii_lower 1 (Light_of_data kitchen_data))
  /\ Bridge_group kitchen_bridge 7 "everywhere" = Returns (everywhere ascii_lower).
Proof.
  assert (Hq : "kitchen" <> "") by discriminate.
  assert (Hq' : "everywhere" <> "") by discriminate.
  split.
  - apply (proj1 (lookup_by_name_first_exact_match ascii_lower kitchen_bridge "kitchen" Hq)
             [] 1 _ []); [reflexivity | reflexivity |].
    intros k' l' [].
  - apply (proj1 (proj2 (lookup_by_name_first_exact_match ascii_lower kitchen_bridge
                           "everywhere" Hq'))
             7 [] 0 _ []); [reflexivity | reflexivity |].
    intros k' g' [].
Defined.

(** ** The constructor and the stored config *)

(** What the constructor does to the config file, case by case: the file
    is removed when a supplied address differs from the stored one, and
    when a supplied username differs from the stored address. *)
Lemma init_discards (ip : option string) (deviceName username : string)
    (c : Conf) :
  truthy_opt_str ip && negb (opt_str_eqb ip (conf_ip c)) = false ->
  snd (Bridge___init__ ip deviceName username (Stored c)) =
    if truthy_str username && negb (opt_str_eqb (Some username) (conf_ip c))
    then NoFile else Stored c.
Proof.
  intros Hip.
  remember (truthy_str username
            && negb (opt_str_eqb (Some username) (conf_ip c))) as discard.
  cbv beta iota delta [Bridge___init__ bind Bridge_loadConfigFileData get ret].
  rewrite Hip, <- Heqdiscard.
  destruct discard, (negb (truthy_opt_str ip)), (negb (truthy_str username));
    reflexivity.
Qed.

(** C2: the claim (the stored config is discarded only on a conflict with
    the correspondingly stored value) against the code, run on a supplied
    username that equals the stored username, no address being supplied:
    the constructor fills the address in from the file and removes the
    file, because the username is compared with the stored address. *)
Theorem init_discards_config_on_matching_username :
  Bridge___init__ None "phuepython" "abc" (Stored stored_conf)
  = (Returns (mkBridge (Some "192.168.1.2") "phuepython" "abc" false [] [] []),
     NoFile).
Proof. reflexivity. Qed.

(** With a conflicting address as well, the file is unlinked twice and the
    second [unlink] raises. *)
Lemma init_double_unlink_raises :
  Bridge___init__ (Some "10.0.0.9") "phuepython" "abc" (Stored stored_conf)
  = (Raises FileNotFoundError, NoFile).
Proof. reflexivity. Qed.

(** ** An empty array as the bridge's answer *)

(** C10, as stated, fails for [connect()]: on an empty array the index
    error of [errorReturned] is caught by the generic handler and
    [connect()] returns false, the session staying unconnected. *)
Lemma connect_returns_false_on_empty_array :
  Bridge_connect ascii_lower decimal good_disk (fun _ _ => Some empty_array) None true paired_world
  = (Returns false,
     mkWorld (bridge paired_world)
       [mkRequest "GET" "http://192.168.1.2/api/user" (JObj [])] NoFile).
Proof. reflexivity. Qed.

(** C10, amended: on an answer that is an empty JSON array both
    [errorReturned] and [successReturned] raise the index error instead of
    returning false.  In [connect()] (address and credential known) the
    generic handler catches it: [connect()] returns false after its one
    probe and leaves the session as it was; in [register()] it is wrapped
    and raised as the registration error. *)
Theorem empty_array_answer (lower : string -> string) (int : string -> Result Z)
    (disk : ConfFile -> Conf -> WriteOutcome)
    (transport : list Request -> Request -> option Response)
    (discovery : option (list (string * bool))) (w : World) (r : Response) :
  (forall rq, transport (sent w) rq = Some r) ->
  ok r = true ->
  payload r = Some (Plain (JArr [])) ->
  Bridge_errorReturned (Plain (JArr [])) = Raises IndexError
  /\ Bridge_successReturned (Plain (JArr [])) = Raises IndexError
  /\ (truthy_opt_str (_ip (bridge w)) = true ->
      truthy_str (_username (bridge w)) = true ->
      forall autodiscover, exists rq,
        Bridge_connect lower int disk transport discovery autodiscover w
        = (Returns false, with_sent (fun l => (l ++ [rq])%list) w))
  /\ (forall saveConnection, exists rq,
        Bridge_register disk transport saveConnection w
        = (Raises PhueRegistrationError,
           with_sent (fun l => (l ++ [rq])%list) w)).
Proof.
  intros Hnet Hok Hbody. split; [reflexivity | split; [reflexivity | split]].
  - intros Hip Huser autodiscover. eexists.
    unfold Bridge_connect, Bridge_sendRequest. unfold_monad.
    rewrite Hip. unfold_monad. rewrite Huser. unfold_monad.
    rewrite Hnet, Hok. unfold json. rewrite Hbody. simpl. reflexivity.
  - intros saveConnection. eexists.
    unfold Bridge_register, Bridge_sendRequest. unfold_monad.
    rewrite Hnet, Hok. unfold json. rewrite Hbody. simpl. reflexivity.
Qed.

Lemma empty_array_answer_witness :
  (exists rq,
     Bridge_connect ascii_lower decimal good_disk (fun _ _ => Some empty_array) None false paired_world
     = (Returns false, with_sent (fun l => (l ++ [rq])%list) paired_world))
  /\ (exists rq,
        Bridge_register good_disk (fun _ _ => Some empty_array) true paired_world
        = (Raises PhueRegistrationError,
           with_sent (fun l => (l ++ [rq])%list) paired_world)).
Proof.
  pose proof (empty_array_answer ascii_lower decimal good_disk (fun _ _ => Some empty_array) None
                paired_world empty_array (fun _ => eq_refl) eq_refl eq_refl)
    as (_ & _ & Hconnect & Hregister).
  split.
  - exact (Hconnect eq_refl eq_refl false).
  - exact (Hregister true).
Defined.

(** ** Clamping through [sorted] *)

Lemma sorted3_mid_Z_clamp (lo v hi : Z) :
  lo <= hi -> sorted3_mid_Z lo v hi = Z.max lo (Z.min v hi).
Proof.
  intros Hle. unfold sorted3_mid_Z, sorted. simpl.
  destruct (Z.ltb_spec v lo); simpl.
  - destruct (Z.ltb_spec hi v); simpl; [lia|].
    destruct (Z.ltb_spec hi lo); simpl; lia.
  - destruct (Z.ltb_spec hi lo); simpl; [lia|].
    destruct (Z.ltb_spec hi v); simpl; lia.
Qed.

Lemma num_ltb_lt (a b : Num) : num_ltb a b = true <-> (num_Q a < num_Q b)%Q.
Proof.
  unfold num_ltb. rewrite negb_true_iff.
  destruct (Qle_bool (num_Q b) (num_Q a)) eqn:E.
  - apply Qle_bool_iff in E. split; [discriminate|].
    intros Hlt. exfalso. exact (Qlt_not_le _ _ Hlt E).
  - split; [intros _ | reflexivity].
    apply Qnot_le_lt. intros Hle. apply Qle_bool_iff in Hle. congruence.
Qed.

(** The middle of [sorted((0, v, 1))]: 0 below the range, 1 above it, [v]
    itself inside. *)
Lemma sorted3_mid_Num_unit (v : Num) :
  sorted3_mid_Num (NInt 0) v (NInt 1) =
    if num_ltb v (NInt 0) then NInt 0
    else if num_ltb (NInt 1) v then NInt 1
    else v.
Proof.
  unfold sorted3_mid_Num, sorted. simpl.
  destruct (num_ltb v (NInt 0)) eqn:Elo; simpl.
  - destruct (num_ltb (NInt 1) v) eqn:Ehi; simpl; [|reflexivity].
    apply num_ltb_lt in Elo, Ehi. simpl in Elo, Ehi. exfalso.
    apply (Qlt_irrefl (num_Q v)).
    apply Qlt_trans with (inject_Z 0); [exact Elo|].
    apply Qlt_trans with (inject_Z 1); [reflexivity | exact Ehi].
  - change (num_ltb (NInt 1) (NInt 0)) with false. simpl.
    destruct (num_ltb (NInt 1) v); reflexivity.
Qed.

Lemma sorted3_mid_Num_in_unit (v : Num) :
  num_leb (NInt 0) (sorted3_mid_Num (NInt 0) v (NInt 1)) = true
  /\ num_leb (sorted3_mid_Num (NInt 0) v (NInt 1)) (NInt 1) = true.
Proof.
  rewrite sorted3_mid_Num_unit. unfold num_leb.
  destruct (num_ltb v (NInt 0)) eqn:Elo; [split; reflexivity|].
  destruct (num_ltb (NInt 1) v) eqn:Ehi; [split; reflexivity|].
  unfold num_ltb in Elo, Ehi. rewrite negb_false_iff in Elo, Ehi.
  split; assumption.
Qed.

(** ** Running requests *)

Section Runs.
Variable transport : list Request -> Request -> option Response.

Lemma sendAuthRequest_run url data method w :
  Bridge_sendAuthRequest transport url data method false w =
    let rq := request_of (bridge w) (Some (auth_url (bridge w) url))
                data method in
    (delivered transport w rq, record rq w).
Proof.
  unfold Bridge_sendAuthRequest, Bridge_sendRequest, delivered, record.
  unfold_monad. destruct (transport _ _); reflexivity.
Qed.

Lemma entity_request_data w root url d method :
  truthy d = true ->
  req_data (entity_request w root url (Some d) method) = d.
Proof. intros Hd. unfold entity_request, request_of. simpl. now rewrite Hd. Qed.

Lemma entity_request_method w root url data method :
  req_method (entity_request w root url data method) = method.
Proof. reflexivity. Qed.

Lemma Light_request_unreachable url data method l w r :
  light_state l !! "reachable" = Some r -> truthy r = false ->
  Light_request transport url data method (l, w)
  = (Raises LightNotReachable, (l, w)).
Proof.
  intros Hr Ht. unfold Light_request, Light_reachable, self_light.
  unfold_monad. rewrite Hr. unfold_monad. rewrite Ht. reflexivity.
Qed.

Lemma Light_request_reachable url data method l w r br :
  light_state l !! "reachable" = Some r -> truthy r = true ->
  light_bridge l = Some br ->
  Light_request transport url data method (l, w)
  = (match delivered transport w (entity_request w "/lights" url data method) with
     | Returns _ => Returns tt
     | Raises e => Raises e
     end,
     (l, record (entity_request w "/lights" url data method) w)).
Proof.
  intros Hr Ht Hb. unfold Light_request, Light_reachable, self_light.
  unfold_monad. rewrite Hr. unfold_monad. rewrite Ht, Hb. unfold_monad.
  rewrite sendAuthRequest_run. cbv zeta. unfold entity_request.
  destruct (delivered _ _ _); reflexivity.
Qed.

Lemma Light_state_set_run key value l w :
  Light_state_set key value (l, w)
  = (Returns tt, (light_with_state (<[key := value]> (light_state l)) l, w)).
Proof. reflexivity. Qed.

Lemma Group_request_attached url data method g w br :
  group_bridge g = Some br ->
  Group_request transport url data method (g, w)
  = (delivered transport w (entity_request w "/groups" url data method),
     (g, record (entity_request w "/groups" url data method) w)).
Proof.
  intros Hb. unfold Group_request, self_group. unfold_monad. rewrite Hb.
  unfold_monad. rewrite sendAuthRequest_run. reflexivity.
Qed.
End Runs.

(** ** The reachability gate *)

(** C7, as stated, fails for the setter of [colormode]: on an unreachable
    light whose state has no colour mode it returns without raising. *)
Lemma colormode_setter_returns_when_unsupported :
  light_state unreachable_white_light !! "reachable" = Some (JBool false)
  /\ Light_colormode_set always_ok "hs" (unreachable_white_light, sample_world)
     = (Returns tt, (unreachable_white_light, sample_world)).
Proof. split; reflexivity. Qed.

(** C7, amended: on a light whose state has [reachable] false, each of
    [on], [off], [alert], [effect], [delete] and the setters of brightness,
    saturation, hue, xy and mired raises the not-reachable error, and so
    does the setter of [colormode] when the state has a [colormode] key;
    on a state without that key the setter of [colormode] returns without
    raising.  In every case no request is dispatched: the session and its
    log of requests are as before the call. *)
Theorem unreachable_light_sends_nothing
    (transport : list Request -> Request -> option Response)
    (call : LightCall) (l : Light) (w : World) (r : Json) :
  light_state l !! "reachable" = Some r ->
  truthy r = false ->
  snd (snd (Light_call transport call (l, w))) = w
  /\ fst (Light_call transport call (l, w)) =
       match call with
       | SetColormode _ =>
           match light_state l !! "colormode" with
           | Some _ => Raises LightNotReachable
           | None => Returns tt
           end
       | _ => Raises LightNotReachable
       end.
Proof.
  intros Hr Ht.
  destruct call; unfold Light_call;
    unfold Light_brightness_set, Light_saturation_set, Light_hue_set,
      Light_xy_set, Light_mired_set, Light_colormode_set, Light_on, Light_off,
      Light_alert, Light_effect, Light_delete, Light_state_set, self_light,
      index;
    cbn [nth_error].
  all: try (destruct (value =? 0)%Z).
  all: unfold_monad.
  all: try (destruct (light_state l !! "colormode"); [|split; reflexivity];
            unfold_monad).
  all: erewrite Light_request_unreachable;
    [ split; reflexivity
    | simpl; rewrite ?lookup_insert_ne by done; exact Hr
    | exact Ht ].
Qed.

Lemma unreachable_light_sends_nothing_witness :
  snd (snd (Light_call always_ok (SetBrightness 0)
              (unreachable_colour_light, sample_world))) = sample_world
  /\ fst (Light_call always_ok (SetBrightness 0)
            (unreachable_colour_light, sample_world))
     = Raises LightNotReachable.
Proof.
  exact (unreachable_light_sends_nothing always_ok (SetBrightness 0)
           unreachable_colour_light sample_world (JBool false)
           eq_refl eq_refl).
Defined.

(** ** The setter of [xy] *)

(** On a reachable light the setter caches the clamped pair and sends the
    pair it was given. *)
Lemma xy_setter_run
    (transport : list Request -> Request -> option Response)
    (l : Light) (w : World) (r : Json) (br : BridgeRef) (x y : Num) :
  light_state l !! "reachable" = Some r ->
  truthy r = true ->
  light_bridge l = Some br ->
  exists rq,
    sent (snd (snd (Light_xy_set transport [x; y] (l, w))))
      = (sent w ++ [rq])%list
    /\ req_method rq = "PUT"
    /\ req_data rq = JObj [("xy", JArr [JNum x; JNum y])]
    /\ light_state (fst (snd (Light_xy_set transport [x; y] (l, w)))) !! "xy"
       = Some (JArr [JNum (sorted3_mid_Num (NInt 0) x (NInt 1));
                     JNum (sorted3_mid_Num (NInt 0) y (NInt 1))]).
Proof.
  intros Hr Ht Hb.
  unfold Light_xy_set, Light_state_set, self_light, index. simpl nth_error.
  unfold_monad.
  erewrite Light_request_reachable;
    [ | simpl; rewrite lookup_insert_ne by done; exact Hr | exact Ht
      | exact Hb ].
  eexists. split; [reflexivity | split; [reflexivity | split; [reflexivity|]]].
  apply lookup_insert_eq.
Qed.

(** C5: the claim (both the cached and the transmitted coordinates are
    clamped to [0,1]) against the code, run on the pair [1.5, -1] assigned
    to a reachable light: the cache holds [1, 0], the body of the PUT holds
    [1.5, -1]. *)
Theorem xy_setter_sends_unclamped_pair :
  fst (Light_xy_set always_ok [NFloat (3 # 2); NInt (-1)]
         (colour_light, sample_world)) = Returns tt
  /\ light_state
       (fst (snd (Light_xy_set always_ok [NFloat (3 # 2); NInt (-1)]
                    (colour_light, sample_world)))) !! "xy"
     = Some (JArr [JNum (NInt 1); JNum (NInt 0)])
  /\ sent (snd (snd (Light_xy_set always_ok [NFloat (3 # 2); NInt (-1)]
                       (colour_light, sample_world))))
     = [mkRequest "PUT" "http://192.168.1.2/api/user/lights/3/state"
          (JObj [("xy", JArr [JNum (NFloat (3 # 2)); JNum (NInt (-1))])])].
Proof. repeat split. Qed.

(** ** The setters of brightness *)

(** C6, as stated, fails on an unreachable light: assigning 0 raises the
    not-reachable error, no off request is issued and the cached brightness
    stays what it was. *)
Lemma brightness_zero_on_unreachable_light :
  Light_brightness_set always_ok 0 (unreachable_colour_light, sample_world)
  = (Raises LightNotReachable, (unreachable_colour_light, sample_world))
  /\ sent sample_world = []
  /\ light_state unreachable_colour_light !! "bri" = Some (JInt 100).
Proof. repeat split. Qed.

(** When the transport fails on the off PUT, the cached brightness is not
    set to 0. *)
Lemma brightness_zero_on_transport_failure :
  fst (Light_brightness_set always_down 0 (colour_light, sample_world))
    = Raises PhueRequestError
  /\ light_state (fst (snd (Light_brightness_set always_down 0
                              (colour_light, sample_world)))) !! "bri"
     = Some (JInt 100).
Proof. split; reflexivity. Qed.

(** C6, amended: for a reachable light attached to its session, and for a
    group attached to its session, and every integer value assigned to the
    setter of brightness: if the value is 0, one request is issued, the off
    PUT, and no brightness PUT, and once that request has gone through
    (no transport failure) the cached brightness is 0; if the value is not
    0, the cached brightness and the brightness in the body of the one PUT
    issued are the same value: 1 below the range, 254 above it, the value
    itself inside [1,254]. *)
Theorem brightness_setter_clamps
    (transport : list Request -> Request -> option Response)
    (l : Light) (g : Group) (w : World) (r : Json) (br bg : BridgeRef)
    (value : Z) :
  light_state l !! "reachable" = Some r ->
  truthy r = true ->
  light_bridge l = Some br ->
  group_bridge g = Some bg ->
  let lrun := Light_brightness_set transport value (l, w) in
  let grun := Group_brightness_set transport value (g, w) in
  (value = 0 ->
   (exists rq,
      sent (snd (snd lrun)) = (sent w ++ [rq])%list
      /\ req_method rq = "PUT"
      /\ req_data rq = JObj [("on", JBool false)]
      /\ (transport (sent w) rq <> None ->
          fst lrun = Returns tt
          /\ light_state (fst (snd lrun)) !! "bri" = Some (JInt 0)))
   /\ (exists rq,
         sent (snd (snd grun)) = (sent w ++ [rq])%list
         /\ req_method rq = "PUT"
         /\ req_data rq = JObj [("on", JBool false)]
         /\ (transport (sent w) rq <> None ->
             fst grun = Returns tt
             /\ group_action (fst (snd grun)) !! "bri" = Some (JInt 0))))
  /\ (value <> 0 ->
      exists sent_value rql rqg,
        (value < 1 -> sent_value = 1)
        /\ (254 < value -> sent_value = 254)
        /\ (1 <= value <= 254 -> sent_value = value)
        /\ sent (snd (snd lrun)) = (sent w ++ [rql])%list
        /\ req_method rql = "PUT"
        /\ req_data rql = JObj [("bri", JInt sent_value)]
        /\ light_state (fst (snd lrun)) !! "bri" = Some (JInt sent_value)
        /\ sent (snd (snd grun)) = (sent w ++ [rqg])%list
        /\ req_method rqg = "PUT"
        /\ req_data rqg = JObj [("bri", JInt sent_value)]
        /\ group_action (fst (snd grun)) !! "bri" = Some (JInt sent_value)).
Proof.
  intros Hr Ht Hbl Hbg lrun grun. split.
  - intros ->. subst lrun grun. split.
    + unfold Light_brightness_set. rewrite Z.eqb_refl.
      unfold Light_off, Light_state_set, self_light. unfold_monad.
      erewrite Light_request_reachable by eassumption.
      eexists. split; [|split; [|split]].
      * destruct (delivered _ _ _); reflexivity.
      * reflexivity.
      * reflexivity.
      * intros Hnet. unfold delivered.
        destruct (transport (sent w) _); [|congruence].
        split; [reflexivity | apply lookup_insert_eq].
    + unfold Group_brightness_set. rewrite Z.eqb_refl.
      unfold Group_off, Group_state_set, Group_action_set, self_group.
      unfold_monad.
      erewrite Group_request_attached by exact Hbg.
      eexists. split; [|split; [|split]].
      * destruct (delivered _ _ _); reflexivity.
      * reflexivity.
      * reflexivity.
      * intros Hnet. unfold delivered.
        destruct (transport (sent w) _); [|congruence].
        split; [reflexivity | apply lookup_insert_eq].
  - intros Hv. subst lrun grun.
    exists (sorted3_mid_Z 1 value 254).
    unfold Light_brightness_set, Group_brightness_set.
    destruct (Z.eqb_spec value 0) as [|_]; [contradiction|].
    unfold Light_state_set, Group_action_set, self_light, self_group.
    unfold_monad.
    erewrite Light_request_reachable;
      [ | simpl; rewrite lookup_insert_ne by done; exact Hr | exact Ht
        | exact Hbl ].
    erewrite Group_request_attached by exact Hbg.
    do 2 eexists.
    rewrite sorted3_mid_Z_clamp by lia.
    split; [lia | split; [lia | split; [lia|]]].
    split; [reflexivity|].
    split; [reflexivity|]. split; [reflexivity|].
    split; [apply lookup_insert_eq|].
    split; [destruct (delivered _ _ _); reflexivity|].
    split; [reflexivity|]. split; [reflexivity|].
    destruct (delivered _ _ _); simpl; apply lookup_insert_eq.
Qed.

Lemma brightness_setter_clamps_witness :
  light_state (fst (snd (Light_brightness_set always_ok 300
                           (colour_light, sample_world)))) !! "bri"
    = Some (JInt 254)
  /\ group_action (fst (snd (Group_brightness_set always_ok 300
                               (living_room, sample_world)))) !! "bri"
     = Some (JInt 254).
Proof.
  assert (Hv : 300 <> 0) by discriminate.
  destruct (proj2 (brightness_setter_clamps always_ok colour_light living_room
                     sample_world (JBool true) TheBridge TheBridge 300
                     eq_refl eq_refl eq_refl eq_refl) Hv)
    as (v & rql & rqg & _ & Hhigh & _ & _ & _ & _ & Hl & _ & _ & _ & Hg).
  assert (Hgt : 254 < 300) by reflexivity.
  rewrite (Hhigh Hgt) in Hl, Hg. split; assumption.
Defined.

(** ** Renaming a group *)

Lemma rename_loop_skips
    (transport : list Request -> Request -> option Response)
    (newName : string) (allowExistingName : bool) (pre rest : list Json)
    (g : Group) (w : World) :
  Forall (fun a => rename_skips (group_name_key g) a = Returns true) pre ->
  rename_loop transport newName allowExistingName (pre ++ rest)%list (g, w)
  = rename_loop transport newName allowExistingName rest (g, w).
Proof.
  induction 1 as [|a pre Ha _ IH]; [reflexivity|].
  simpl. unfold self_group. unfold_monad. rewrite Ha. exact IH.
Qed.

(** C9, as stated, fails when the compensating request meets a transport
    failure: the bridge acknowledged another name, [allowExistingName] is
    false, the second request is issued and fails, and [rename] raises the
    request error instead of returning false. *)
Lemma rename_raises_when_compensation_fails :
  fst (Group_rename down_after_first "den" false (living_room, sample_world))
    = Raises PhueRequestError
  /\ length (sent (snd (snd (Group_rename down_after_first "den" false
                               (living_room, sample_world))))) = 2%nat.
Proof. split; reflexivity. Qed.

(** C9, amended: [Group.rename] on a group attached to its session whose
    request yields a successful response acknowledging the name of the
    group (the first answer of the response that is not skipped carries the
    acknowledged name).  If the acknowledged name is the requested one, the
    local name becomes it and [rename] returns true; if it differs and
    [allowExistingName] is true, the local name becomes the acknowledged
    name and [rename] returns true; if it differs and [allowExistingName]
    is false, the local name is unchanged and a second request with the
    prior name is issued to the same URL; [rename] then returns false when
    that request is delivered and raises the request error when the
    transport fails on it. *)
Theorem group_rename_acknowledged
    (transport : list Request -> Request -> option Response)
    (g : Group) (w : World) (bg : BridgeRef) (r : Response)
    (newName : string) (allowExistingName : bool)
    (pre post : list Json) (ack : Json) (acked : string) :
  group_bridge g = Some bg ->
  (forall rq, transport (sent w) rq = Some r) ->
  ok r = true ->
  payload r = Some (Plain (JArr (pre ++ ack :: post))) ->
  Forall (fun a => rename_skips (group_name_key g) a = Returns true) pre ->
  rename_skips (group_name_key g) ack = Returns false ->
  acknowledged (group_name_key g) ack = Returns (JStr acked) ->
  let run := Group_rename transport newName allowExistingName (g, w) in
  (acked = newName ->
   fst run = Returns true /\ group_name (fst (snd run)) = newName)
  /\ (acked <> newName -> allowExistingName = true ->
      fst run = Returns true /\ group_name (fst (snd run)) = acked)
  /\ (acked <> newName -> allowExistingName = false ->
      group_name (fst (snd run)) = group_name g
      /\ exists rq1 rq2,
           sent (snd (snd run)) = (sent w ++ [rq1; rq2])%list
           /\ req_data rq1 = JObj [("name", JStr newName)]
           /\ req_method rq2 = "PUT"
           /\ req_url rq2 = req_url rq1
           /\ req_data rq2 = JObj [("name", JStr (group_name g))]
           /\ (transport (sent w ++ [rq1])%list rq2 <> None ->
               fst run = Returns false)
           /\ (transport (sent w ++ [rq1])%list rq2 = None ->
               fst run = Raises PhueRequestError)).
Proof.
  intros Hb Hnet Hok Hbody Hpre Hack Hname run.
  assert (Hrun : run =
    rename_loop transport newName allowExistingName (ack :: post)
      (g, record (entity_request w "/groups" ("/" +:+ str_of_int (group_id g))
                    (Some (JObj [("name", JStr newName)])) "PUT") w)).
  { subst run. unfold Group_rename, self_group. unfold_monad.
    erewrite Group_request_attached by exact Hb.
    unfold delivered. rewrite Hnet, Hok. unfold json. rewrite Hbody.
    unfold_monad. simpl py_iter. cbv iota.
    apply rename_loop_skips. exact Hpre. }
  rewrite Hrun. clear Hrun run.
  simpl rename_loop. unfold self_group. unfold_monad.
  rewrite Hack, Hname. unfold json_eq_str.
  split; [|split].
  - intros ->. rewrite String.eqb_refl. split; reflexivity.
  - intros Hne ->. rewrite (String_eqb_neq _ _ Hne). split; reflexivity.
  - intros Hne ->. rewrite (String_eqb_neq _ _ Hne).
    erewrite Group_request_attached by exact Hb.
    split; [destruct (delivered _ _ _); reflexivity|].
    do 2 eexists. split; [|split; [|split; [|split; [|split; [|split]]]]].
    + destruct (delivered _ _ _); simpl; rewrite <- app_assoc; reflexivity.
    + reflexivity.
    + reflexivity.
    + reflexivity.
    + reflexivity.
    + intros Hnet2. unfold delivered. simpl sent.
      destruct (transport _ _); [reflexivity | congruence].
    + intros Hnet2. unfold delivered. simpl sent. rewrite Hnet2. reflexivity.
Qed.

Lemma group_rename_acknowledged_witness :
  fst (Group_rename (fun _ _ => Some renamed_otherwise) "den" false
         (living_room, sample_world)) = Returns false
  /\ group_name (fst (snd (Group_rename (fun _ _ => Some renamed_otherwise)
                             "den" false (living_room, sample_world))))
     = "living room".
Proof.
  pose proof (group_rename_acknowledged (fun _ _ => Some renamed_otherwise)
                living_room sample_world TheBridge renamed_otherwise "den"
                false [] []
                (JObj [("success", JObj [("/groups/1/name", JStr "den 1")])])
                "den 1" eq_refl (fun _ => eq_refl) eq_refl eq_refl
                (List.Forall_nil _) eq_refl eq_refl) as (_ & _ & Hkeep).
  assert (Hne : "den 1" <> "den") by discriminate.
  destruct (Hkeep Hne eq_refl)
    as (Hname & rq1 & rq2 & _ & _ & _ & _ & _ & Hret & _).
  split; [apply Hret; discriminate | exact Hname].
Defined.

(** ** Cross-linking scenes *)

Lemma for_each_cons_returns {S A} (body : A -> M S unit) (x : A)
    (r : list A) (s s1 : S) :
  body x s = (Returns tt, s1) ->
  for_each (x :: r) body s = for_each r body s1.
Proof. intros Hx. simpl. unfold bind. now rewrite Hx. Qed.

Lemma for_each_cons_raises {S A} (body : A -> M S unit) (x : A)
    (r : list A) (s s1 : S) (e : exn) :
  body x s = (Raises e, s1) ->
  for_each (x :: r) body s = (Raises e, s1).
Proof. intros Hx. simpl. unfold bind. now rewrite Hx. Qed.

(** One known or unknown light of a light scene. *)
Lemma link_light_scene_run {int : string -> Result Z} (sceneId s : string)
    (k : Z) (w : World) :
  int s = Returns k -> k <> 0 ->
  link_light_scene int sceneId s w =
    (Returns tt,
     match dict_get (_lights (bridge w)) k with
     | Some l =>
         with_bridge (fun b =>
           bridge_with_lights
             (dict_set (_lights b) k
                (light_with_myScenes (light_myScenes l ++ [sceneId])%list l))
             b) w
     | None => w
     end).
Proof.
  intros Hint Hk. unfold link_light_scene. unfold_monad. rewrite Hint.
  unfold Bridge_light.
  destruct (Z.eqb_spec k 0) as [|_]; [contradiction|]. cbn [andb].
  destruct (dict_get (_lights (bridge w)) k); reflexivity.
Qed.

Lemma light_with_myScenes_same (l : Light) :
  light_with_myScenes (light_myScenes l) l = l.
Proof. now destruct l. Qed.

(** The lights loop of a light scene: every light of the registry gets
    the scene id once for each time the scene lists it. *)
Lemma link_lights_run {int : string -> Result Z} (sceneId : string)
    (strs : list string) (ids : list Z) :
  Forall2 (fun s k => int s = Returns k /\ k <> 0) strs ids ->
  forall w,
    fst (for_each strs (link_light_scene int sceneId) w) = Returns tt
    /\ _groups (bridge (snd (for_each strs (link_light_scene int sceneId) w)))
       = _groups (bridge w)
    /\ _scenes (bridge (snd (for_each strs (link_light_scene int sceneId) w)))
       = _scenes (bridge w)
    /\ dict_keys
         (_lights (bridge (snd (for_each strs (link_light_scene int sceneId) w))))
       = dict_keys (_lights (bridge w))
    /\ forall k l,
         dict_get (_lights (bridge w)) k = Some l ->
         dict_get
           (_lights
              (bridge (snd (for_each strs (link_light_scene int sceneId) w)))) k
         = Some (light_with_myScenes
                   (light_myScenes l
                    ++ repeat sceneId (count_occ Z.eq_dec ids k))%list l).
Proof.
  induction 1 as [|s k strs ids [Hint Hk] _ IH]; intros w.
  - simpl. repeat split; try reflexivity.
    intros k l Hl. now rewrite app_nil_r, light_with_myScenes_same.
  - rewrite (for_each_cons_returns _ _ _ _ _
               (link_light_scene_run sceneId s k w Hint Hk)).
    destruct (dict_get (_lights (bridge w)) k) as [lk|] eqn:Hlk.
    + match goal with
      | |- context [for_each strs _ ?w1] =>
          destruct (IH w1) as (Hret & Hg & Hs & Hkeys & Hlights)
      end.
      rewrite Hret, Hg, Hs, Hkeys.
      split; [reflexivity|]. split; [reflexivity|]. split; [reflexivity|].
      split.
      { simpl. apply dict_keys_set_present. unfold dict_mem. now rewrite Hlk. }
      intros k0 l0 Hl0. destruct (Z.eq_dec k k0) as [<-|Hne].
      * assert (lk = l0) as <- by congruence.
        rewrite (Hlights k
                   (light_with_myScenes
                      (light_myScenes lk ++ [sceneId])%list lk))
          by (simpl; apply dict_get_set_eq).
        rewrite count_occ_cons_eq by reflexivity.
        cbn [light_myScenes light_with_myScenes repeat].
        now rewrite <- app_assoc.
      * rewrite (Hlights k0 l0)
          by (simpl; rewrite dict_get_set_ne by exact Hne; exact Hl0).
        now rewrite count_occ_cons_neq by exact Hne.
    + destruct (IH w) as (Hret & Hg & Hs & Hkeys & Hlights).
      rewrite Hret, Hg, Hs, Hkeys. repeat split.
      intros k0 l0 Hl0. rewrite (Hlights k0 l0 Hl0).
      destruct (Z.eq_dec k k0) as [<-|Hne]; [congruence|].
      now rewrite count_occ_cons_neq by exact Hne.
Qed.

(** C8, as stated, fails on a light id "0": [Bridge.light] takes 0 for
    an absent id, the selector error it raises is not the not-found error
    the loop catches, and it escapes the turn; the lights listed after it
    are not linked. *)
Lemma light_id_zero_escapes_scene_loading :
  dict_get (_lights (bridge kitchen_world)) 0 = None
  /\ fst (load_scene ascii_lower decimal ("s2", zero_scene) kitchen_world) = Raises SelectorError
  /\ _lights (bridge (snd (load_scene ascii_lower decimal ("s2", zero_scene) kitchen_world)))
     = _lights (bridge kitchen_world).
Proof. repeat split. Qed.

(** C8, amended: one turn of the scene loop of [loadDevices], on a scene
    [data] stored under [sceneId].  A GroupScene whose group is not in the
    registry: the turn returns, and it has stored the scene and done
    nothing else, so that no group is created.  A LightScene named exactly
    "Last on state": the turn returns, and it has stored the scene and done
    nothing else, so that no light's [myScenes] has changed.  Any other
    LightScene whose light ids [int] reads as integers other than 0: the
    turn returns; the groups are as before and the scene is stored; the
    lights of the registry are the same ids in the same order, so that no
    light is created for an unknown id; and every light of the registry is
    what it was but for its [myScenes], to which the scene id has been
    appended once for each time the scene lists the light: an unlisted
    light is as before. *)
Theorem scene_cross_linking (lower : string -> string)
    (int : string -> Result Z) (w : World) (sceneId : string)
    (data : SceneData) :
  (sd_type data = "GroupScene" ->
   forall g groupId,
     sd_group data = Some g -> int g = Returns groupId ->
     dict_get (_groups (bridge w)) groupId = None ->
     load_scene lower int (sceneId, data) w
     = (Returns tt, store_scene lower sceneId data w))
  /\ (sd_type data = "LightScene" -> sd_name data = "Last on state" ->
      load_scene lower int (sceneId, data) w
      = (Returns tt, store_scene lower sceneId data w))
  /\ (sd_type data = "LightScene" -> sd_name data <> "Last on state" ->
      forall ids,
        Forall2 (fun s k => int s = Returns k /\ k <> 0) (sd_lights data) ids ->
        fst (load_scene lower int (sceneId, data) w) = Returns tt
        /\ _groups (bridge (snd (load_scene lower int (sceneId, data) w)))
           = _groups (bridge w)
        /\ _scenes (bridge (snd (load_scene lower int (sceneId, data) w)))
           = dict_set (_scenes (bridge w)) sceneId
               (Scene_init lower sceneId (Scene_of_data data))
        /\ dict_keys
             (_lights (bridge (snd (load_scene lower int (sceneId, data) w))))
           = dict_keys (_lights (bridge w))
        /\ (forall k l,
              dict_get (_lights (bridge w)) k = Some l ->
              dict_get
                (_lights (bridge (snd (load_scene lower int (sceneId, data) w))))
                k
              = Some (light_with_myScenes
                        (light_myScenes l
                         ++ repeat sceneId (count_occ Z.eq_dec ids k))%list l))
        /\ (forall k l,
              dict_get (_lights (bridge w)) k = Some l -> ~ In k ids ->
              dict_get
                (_lights (bridge (snd (load_scene lower int (sceneId, data) w))))
                k
              = Some l)).
Proof.
  split; [|split].
  - intros Htype g groupId Hg Hint Hnone.
    unfold load_scene, link_group_scene. unfold_monad. cbn [fst snd].
    rewrite Htype, Hg, Hint. cbn [String.eqb Ascii.eqb Bool.eqb].
    unfold_monad. unfold Bridge_group. cbn [truthy_str String.eqb negb].
    unfold store_scene. cbn [bridge with_bridge _groups bridge_with_scenes].
    rewrite Hnone. reflexivity.
  - intros Htype Hname.
    unfold load_scene. unfold_monad. cbn [fst snd].
    rewrite Htype, Hname. reflexivity.
  - intros Htype Hname ids Hids.
    unfold load_scene. unfold_monad. cbn [fst snd].
    rewrite Htype, (String_eqb_neq _ _ Hname).
    cbn [String.eqb Ascii.eqb Bool.eqb andb negb].
    destruct (link_lights_run sceneId (sd_lights data) ids Hids
                (store_scene lower sceneId data w))
      as (Hret & Hg & Hs & Hkeys & Hlights).
    destruct (for_each (sd_lights data) (link_light_scene int sceneId)
                (store_scene lower sceneId data w)) as [res w'] eqn:Hrun.
    simpl in Hret, Hg, Hs, Hkeys, Hlights. subst res.
    split; [reflexivity|]. split; [exact Hg|]. split; [exact Hs|].
    split; [exact Hkeys|]. split; [exact Hlights|].
    intros k l Hl Hnot. rewrite (Hlights k l Hl).
    rewrite (proj1 (count_occ_not_In Z.eq_dec ids k) Hnot).
    cbn [repeat]. now rewrite app_nil_r, light_with_myScenes_same.
Qed.

Lemma scene_cross_linking_witness :
  sd_type evening_scene = "LightScene"
  /\ sd_name evening_scene <> "Last on state"
  /\ Forall2 (fun s k => decimal s = Returns k /\ k <> 0)
       (sd_lights evening_scene) [1; 9]
  /\ dict_get
       (_lights (bridge (snd (load_scene ascii_lower decimal
                                ("s1", evening_scene) kitchen_world)))) 1
     = Some (light_with_myScenes ["s1"]
               (Light_init ascii_lower 1 (Light_of_data kitchen_data)))
  /\ dict_keys
       (_lights (bridge (snd (load_scene ascii_lower decimal
                                ("s1", evening_scene) kitchen_world))))
     = [1].
Proof.
  assert (Hname : sd_name evening_scene <> "Last on state") by discriminate.
  assert (Hids : Forall2 (fun s k => decimal s = Returns k /\ k <> 0)
                   (sd_lights evening_scene) [1; 9]).
  { repeat constructor; discriminate. }
  destruct (proj2 (proj2 (scene_cross_linking ascii_lower decimal
                            kitchen_world "s1" evening_scene))
              eq_refl Hname [1; 9] Hids)
    as (_ & _ & _ & Hkeys & Hlights & _).
  split; [reflexivity|]. split; [exact Hname|]. split; [exact Hids|].
  split; [exact (Hlights 1 _ eq_refl) | exact Hkeys].
Defined.

(** ** Relations kept by a computation *)

Section Preserved.
Variable R : World -> World -> Prop.
Hypothesis R_refl : forall w, R w w.
Hypothesis R_trans : forall w1 w2 w3, R w1 w2 -> R w2 w3 -> R w1 w3.

Lemma preserves_ret {A} (a : A) : preserves R (ret a).
Proof. intros w. apply R_refl. Qed.

Lemma preserves_raise {A} (e : exn) : preserves R (@raise World A e).
Proof. intros w. apply R_refl. Qed.

Lemma preserves_lift_result {A} (r : Result A) : preserves R (lift_result r).
Proof. intros w. apply R_refl. Qed.

Lemma preserves_get : preserves R get.
Proof. intros w. apply R_refl. Qed.

Lemma preserves_bind {A B} (c : M World A) (k : A -> M World B) :
  preserves R c -> (forall a, preserves R (k a)) -> preserves R (bind c k).
Proof.
  intros Hc Hk w. unfold bind. specialize (Hc w).
  destruct (c w) as [[a|e] w1]; simpl in *; [|exact Hc].
  apply R_trans with w1; [exact Hc | apply Hk].
Qed.

Lemma preserves_try_except {A} (c : M World A) (h : exn -> M World A) :
  preserves R c -> (forall e, preserves R (h e)) ->
  preserves R (try_except c h).
Proof.
  intros Hc Hh w. unfold try_except. specialize (Hc w).
  destruct (c w) as [[a|e] w1]; simpl in *; [exact Hc|].
  apply R_trans with w1; [exact Hc | apply Hh].
Qed.

Lemma preserves_for_each {A} (l : list A) (body : A -> M World unit) :
  (forall x, preserves R (body x)) -> preserves R (for_each l body).
Proof.
  intros Hbody. induction l as [|x l IH]; simpl.
  - apply preserves_ret.
  - apply preserves_bind; [apply Hbody | intros _; exact IH].
Qed.

(** A relation that the recording of a request and the assignment of a
    registry respect is kept by the whole of [loadDevices]. *)
Hypothesis R_record : forall w rq, R w (record rq w).
Hypothesis R_groups : forall w gs, R w (with_bridge (bridge_with_groups gs) w).
Hypothesis R_lights : forall w ls, R w (with_bridge (bridge_with_lights ls) w).
Hypothesis R_scenes : forall w ss, R w (with_bridge (bridge_with_scenes ss) w).

Lemma preserves_sendAuthRequest
    (transport : list Request -> Request -> option Response)
    (url : string) (data : option Json) (method : string) :
  preserves R (Bridge_sendAuthRequest transport url data method false).
Proof. intros w. rewrite sendAuthRequest_run. apply R_record. Qed.

Lemma preserves_load_scene {lower : string -> string} {int : string -> Result Z}
    (item : string * SceneData) :
  preserves R (load_scene lower int item).
Proof.
  unfold load_scene. apply preserves_bind.
  { intros w. apply (R_scenes w). }
  intros _. destruct (String.eqb (sd_type (snd item)) "GroupScene").
  - unfold link_group_scene. destruct (sd_group (snd item)).
    + apply preserves_bind; [apply preserves_lift_result | intros groupId].
      apply preserves_bind; [apply preserves_get | intros w].
      destruct (Bridge_group (bridge w) groupId "") as [g|[]];
        first [ intros w'; apply (R_groups w') | apply preserves_ret
              | apply preserves_raise ].
    + apply preserves_raise.
  - destruct (String.eqb (sd_type (snd item)) "LightScene"
              && negb (String.eqb (sd_name (snd item)) "Last on state")).
    + apply preserves_for_each. intros s. unfold link_light_scene.
      apply preserves_bind; [apply preserves_lift_result | intros lightId].
      apply preserves_bind; [apply preserves_get | intros w].
      destruct (Bridge_light (bridge w) lightId "") as [l|[]];
        first [ intros w'; apply (R_lights w') | apply preserves_ret
              | apply preserves_raise ].
    + apply preserves_ret.
Qed.

Lemma preserves_loadDevices {lower : string -> string}
    {int : string -> Result Z}
    (transport : list Request -> Request -> option Response) :
  preserves R (Bridge_loadDevices lower int transport).
Proof.
  unfold Bridge_loadDevices.
  apply preserves_bind; [intros w; apply (R_groups w) | intros _].
  apply preserves_bind; [apply preserves_sendAuthRequest | intros req].
  apply preserves_bind.
  { destruct req as [r|]; [|apply preserves_ret].
    destruct (ok r); [|apply preserves_ret].
    apply preserves_bind; [apply preserves_lift_result | intros answer].
    apply preserves_bind; [apply preserves_lift_result | intros items].
    apply preserves_for_each. intros item. unfold load_group.
    apply preserves_bind; [apply preserves_lift_result | intros groupId].
    intros w. apply (R_groups w). }
  intros _.
  apply preserves_bind; [apply preserves_sendAuthRequest | intros req'].
  apply preserves_bind.
  { destruct req' as [r|]; [|apply preserves_ret].
    destruct (ok r); [|apply preserves_ret].
    apply preserves_bind; [apply preserves_lift_result | intros answer].
    apply preserves_bind; [apply preserves_lift_result | intros items].
    apply preserves_for_each. intros item. unfold load_light.
    apply preserves_bind; [apply preserves_lift_result | intros lightId].
    intros w. apply (R_lights w). }
  intros _.
  destruct (truthy_resp req'); [|apply preserves_ret].
  apply preserves_bind; [apply preserves_sendAuthRequest | intros req''].
  destruct req'' as [r|]; [|apply preserves_raise].
  apply preserves_bind; [apply preserves_lift_result | intros answer].
  apply preserves_bind; [apply preserves_lift_result | intros items].
  apply preserves_for_each. intros item. apply preserves_load_scene.
Qed.
End Preserved.

(** ** Reloading the registry *)

Lemma keeps_entries_refl (w : World) : keeps_entries w w.
Proof. repeat split; auto. Qed.

Lemma keeps_entries_trans (w1 w2 w3 : World) :
  keeps_entries w1 w2 -> keeps_entries w2 w3 -> keeps_entries w1 w3.
Proof. intros (?&?&?) (?&?&?). repeat split; auto. Qed.

Lemma grows_ret {A} (a : A) : grows (ret a).
Proof. intros w. apply keeps_entries_refl. Qed.

Lemma grows_raise {A} (e : exn) : grows (@raise World A e).
Proof. intros w. apply keeps_entries_refl. Qed.

Lemma grows_lift_result {A} (r : Result A) : grows (lift_result r).
Proof. intros w. apply keeps_entries_refl. Qed.

Lemma grows_get : grows get.
Proof. intros w. apply keeps_entries_refl. Qed.

Lemma grows_bind {A B} (c : M World A) (k : A -> M World B) :
  grows c -> (forall a, grows (k a)) -> grows (bind c k).
Proof.
  intros Hc Hk w. unfold bind. specialize (Hc w).
  destruct (c w) as [[a|e] w1]; simpl in *; [|exact Hc].
  apply keeps_entries_trans with w1; [exact Hc | apply Hk].
Qed.

Lemma grows_for_each {A} (l : list A) (body : A -> M World unit) :
  (forall x, grows (body x)) -> grows (for_each l body).
Proof.
  intros Hbody. induction l as [|x l IH]; simpl.
  - apply grows_ret.
  - apply grows_bind; [apply Hbody | intros _; exact IH].
Qed.

Lemma grows_modify (f : World -> World) :
  (forall w, keeps_entries w (f w)) -> grows (modify f).
Proof. intros Hf w. apply Hf. Qed.

Lemma grows_set_group (k : Z) (g : Group) :
  grows (modify (with_bridge (fun b =>
           bridge_with_groups (dict_set (_groups b) k g) b))).
Proof.
  apply grows_modify. intros w. repeat split; simpl; auto.
  intros k'. apply dict_mem_set.
Qed.

Lemma grows_set_light (k : Z) (l : Light) :
  grows (modify (with_bridge (fun b =>
           bridge_with_lights (dict_set (_lights b) k l) b))).
Proof.
  apply grows_modify. intros w. repeat split; simpl; auto.
  intros k'. apply dict_mem_set.
Qed.

Lemma grows_set_scene (k : string) (s : Scene) :
  grows (modify (with_bridge (fun b =>
           bridge_with_scenes (dict_set (_scenes b) k s) b))).
Proof.
  apply grows_modify. intros w. repeat split; simpl; auto.
  intros k'. apply dict_mem_set.
Qed.

Lemma grows_sendAuthRequest
    (transport : list Request -> Request -> option Response)
    (url : string) (data : option Json) (method : string) :
  grows (Bridge_sendAuthRequest transport url data method false).
Proof.
  intros w. rewrite sendAuthRequest_run. cbv zeta.
  repeat split; simpl; auto.
Qed.

Lemma grows_load_scene {lower : string -> string} {int : string -> Result Z}
    (item : string * SceneData) :
  grows (load_scene lower int item).
Proof.
  unfold load_scene.
  apply grows_bind; [apply (grows_set_scene (fst item)) | intros _].
  destruct (String.eqb (sd_type (snd item)) "GroupScene").
  - unfold link_group_scene. destruct (sd_group (snd item)).
    + apply grows_bind; [apply grows_lift_result | intros groupId].
      apply grows_bind; [apply grows_get | intros w].
      destruct (Bridge_group (bridge w) groupId "") as [g|[]];
        first [apply grows_set_group | apply grows_ret | apply grows_raise].
    + apply grows_raise.
  - destruct (String.eqb (sd_type (snd item)) "LightScene"
              && negb (String.eqb (sd_name (snd item)) "Last on state")).
    + apply grows_for_each. intros s. unfold link_light_scene.
      apply grows_bind; [apply grows_lift_result | intros lightId].
      apply grows_bind; [apply grows_get | intros w].
      destruct (Bridge_light (bridge w) lightId "") as [l|[]];
        first [apply grows_set_light | apply grows_ret | apply grows_raise].
    + apply grows_ret.
Qed.

Lemma grows_loadDevices {lower : string -> string} {int : string -> Result Z}
    (transport : list Request -> Request -> option Response) :
  grows (Bridge_loadDevices lower int transport).
Proof.
  unfold Bridge_loadDevices.
  apply grows_bind; [apply grows_set_group | intros _].
  apply grows_bind; [apply grows_sendAuthRequest | intros req].
  apply grows_bind.
  { destruct req as [r|]; [|apply grows_ret].
    destruct (ok r); [|apply grows_ret].
    apply grows_bind; [apply grows_lift_result | intros answer].
    apply grows_bind; [apply grows_lift_result | intros items].
    apply grows_for_each. intros item. unfold load_group.
    apply grows_bind; [apply grows_lift_result | intros groupId].
    apply grows_set_group. }
  intros _.
  apply grows_bind; [apply grows_sendAuthRequest | intros req'].
  apply grows_bind.
  { destruct req' as [r|]; [|apply grows_ret].
    destruct (ok r); [|apply grows_ret].
    apply grows_bind; [apply grows_lift_result | intros answer].
    apply grows_bind; [apply grows_lift_result | intros items].
    apply grows_for_each. intros item. unfold load_light.
    apply grows_bind; [apply grows_lift_result | intros lightId].
    apply grows_set_light. }
  intros _.
  destruct (truthy_resp req'); [|apply grows_ret].
  apply grows_bind; [apply grows_sendAuthRequest | intros req''].
  destruct req'' as [r|]; [|apply grows_raise].
  apply grows_bind; [apply grows_lift_result | intros answer].
  apply grows_bind; [apply grows_lift_result | intros items].
  apply grows_for_each. intros item. apply grows_load_scene.
Qed.

(** C1, as stated, fails: the registry holds light 1, group 7 and scene
    "s1", the bridge now reports empty listings, and after [loadDevices]
    has returned all three are still in the registry. *)
Lemma stale_entries_survive_reload :
  fst (Bridge_loadDevices ascii_lower decimal emptied_bridge loaded_world) = Returns tt
  /\ dict_mem (_groups (bridge (snd (Bridge_loadDevices ascii_lower decimal emptied_bridge
                                        loaded_world)))) 7 = true
  /\ dict_mem (_lights (bridge (snd (Bridge_loadDevices ascii_lower decimal emptied_bridge
                                        loaded_world)))) 1 = true
  /\ dict_mem (_scenes (bridge (snd (Bridge_loadDevices ascii_lower decimal emptied_bridge
                                        loaded_world)))) "s1" = true.
Proof. repeat split. Qed.

(** A turn of the lights loop stores the light it built under its id, and
    a turn of the groups loop the group. *)
Lemma load_light_stores {lower : string -> string} {int : string -> Result Z}
    (s : string) (d : LightData) (k : Z) (w : World) :
  int s = Returns k ->
  fst (load_light lower int (s, d) w) = Returns tt
  /\ dict_get (_lights (bridge (snd (load_light lower int (s, d) w)))) k
     = Some (Light_init lower k (Light_of_data d)).
Proof.
  intros Hint. unfold load_light. unfold_monad. cbn [fst snd]. rewrite Hint.
  split; [reflexivity | apply dict_get_set_eq].
Qed.

Lemma load_group_stores {lower : string -> string} {int : string -> Result Z}
    (s : string) (d : GroupData) (k : Z) (w : World) :
  int s = Returns k ->
  fst (load_group lower int (s, d) w) = Returns tt
  /\ dict_get (_groups (bridge (snd (load_group lower int (s, d) w)))) k
     = Some (Group_init lower k (Group_of_data d)).
Proof.
  intros Hint. unfold load_group. unfold_monad. cbn [fst snd]. rewrite Hint.
  split; [reflexivity | apply dict_get_set_eq].
Qed.

Lemma dict_set_twice {K V} `{EqDecision K} (d : list (K * V)) (k : K) (v : V) :
  dict_set (dict_set d k v) k v = dict_set d k v.
Proof.
  induction d as [|[k' v'] d IH]; simpl.
  - destruct (decide (k = k)); congruence.
  - destruct (decide (k = k')) as [->|Hne]; simpl.
    + destruct (decide (k' = k')); congruence.
    + destruct (decide (k = k')); [congruence | now rewrite IH].
Qed.

Lemma loadDevices_after_set_everywhere {lower : string -> string}
    {int : string -> Result Z}
    (transport : list Request -> Request -> option Response) (w : World) :
  Bridge_loadDevices lower int transport w
  = Bridge_loadDevices lower int transport (set_everywhere lower w).
Proof.
  unfold Bridge_loadDevices.
  change (bind (modify ?f) ?k w) with (k tt (f w)).
  change (bind (modify ?f) ?k (set_everywhere lower w))
    with (k tt (f (set_everywhere lower w))).
  unfold set_everywhere, with_bridge, bridge_with_groups. simpl.
  now rewrite dict_set_twice.
Qed.

Lemma bind_returns {S A B} (c : M S A) (k : A -> M S B) (s s' : S) (b : B) :
  bind c k s = (Returns b, s') ->
  exists a s1, c s = (Returns a, s1) /\ k a s1 = (Returns b, s').
Proof.
  unfold bind. destruct (c s) as [[a|e] s1]; [|discriminate].
  intros Hk. now exists a, s1.
Qed.

(** A loop whose turns assign into one registry and leave the rest of the
    world alone: when it returns, a key holds what the last item with that
    key gave it, and a key of no item holds what it held. *)
Section AssignLoop.
Context {A K V X : Type} `{EqDecision K}.
Variable key : A -> Result K.
Variable val : A -> K -> V.
Variable reg : World -> list (K * V).
Variable other : World -> X.
Variable body : A -> M World unit.
Hypothesis body_assigns : forall x w w1,
  body x w = (Returns tt, w1) ->
  exists k, key x = Returns k /\ reg w1 = dict_set (reg w) k (val x k).
Hypothesis body_other : forall x w, other (snd (body x w)) = other w.

Lemma assign_loop_other (items : list A) (w : World) :
  other (snd (for_each items body w)) = other w.
Proof.
  revert w. induction items as [|x items IH]; intros w; [reflexivity|].
  simpl. unfold bind. specialize (body_other x w).
  destruct (body x w) as [[[]|e] w1]; simpl in *.
  - now rewrite IH.
  - assumption.
Qed.

Lemma assign_loop_absent (items : list A) (w w2 : World) (k : K) :
  for_each items body w = (Returns tt, w2) ->
  Forall (fun y => key y <> Returns k) items ->
  dict_get (reg w2) k = dict_get (reg w) k.
Proof.
  revert w. induction items as [|x items IH]; intros w Hrun Hfree.
  - injection Hrun as <-. reflexivity.
  - simpl in Hrun. unfold bind in Hrun.
    destruct (body x w) as [[[]|e] w1] eqn:Hx; [|discriminate].
    inversion Hfree as [|? ? Hx_free Hitems]; subst.
    destruct (body_assigns x w w1 Hx) as (k0 & Hk0 & Hreg).
    rewrite (IH w1 Hrun Hitems), Hreg.
    apply dict_get_set_ne. intros ->. now apply Hx_free.
Qed.

Lemma assign_loop_last (items : list A) (w w2 : World) (pre : list A)
    (x : A) (post : list A) (k : K) :
  for_each items body w = (Returns tt, w2) ->
  items = (pre ++ x :: post)%list ->
  key x = Returns k ->
  Forall (fun y => key y <> Returns k) post ->
  dict_get (reg w2) k = Some (val x k).
Proof.
  revert w pre. induction items as [|x0 items IH];
    intros w pre Hrun Hsplit Hkey Hfree.
  - now destruct pre.
  - simpl in Hrun. unfold bind in Hrun.
    destruct (body x0 w) as [[[]|e] w1] eqn:Hx; [|discriminate].
    destruct pre as [|y pre]; simpl in Hsplit; injection Hsplit as -> ->.
    + destruct (body_assigns x w w1 Hx) as (k0 & Hk0 & Hreg).
      assert (k0 = k) as -> by congruence.
      rewrite (assign_loop_absent post w1 w2 k Hrun Hfree), Hreg.
      apply dict_get_set_eq.
    + exact (IH w1 pre Hrun eq_refl Hkey Hfree).
Qed.
End AssignLoop.

Lemma load_group_assigns {lower : string -> string}
    {int : string -> Result Z} (x : string * GroupData) (w w1 : World) :
  load_group lower int x w = (Returns tt, w1) ->
  exists k, int (fst x) = Returns k
            /\ _groups (bridge w1)
               = dict_set (_groups (bridge w)) k
                   (Group_init lower k (Group_of_data (snd x))).
Proof.
  destruct x as [s d]. unfold load_group. unfold_monad.
  destruct (int s) as [k|e]; simpl; [|discriminate].
  intros [= <-]. now exists k.
Qed.

Lemma load_group_other {lower : string -> string}
    {int : string -> Result Z} (x : string * GroupData) (w : World) :
  but_groups (snd (load_group lower int x w)) = but_groups w.
Proof.
  destruct x as [s d]. unfold load_group. unfold_monad.
  now destruct (int s).
Qed.

Lemma load_light_assigns {lower : string -> string}
    {int : string -> Result Z} (x : string * LightData) (w w1 : World) :
  load_light lower int x w = (Returns tt, w1) ->
  exists k, int (fst x) = Returns k
            /\ _lights (bridge w1)
               = dict_set (_lights (bridge w)) k
                   (Light_init lower k (Light_of_data (snd x))).
Proof.
  destruct x as [s d]. unfold load_light. unfold_monad.
  destruct (int s) as [k|e]; simpl; [|discriminate].
  intros [= <-]. now exists k.
Qed.

Lemma load_light_other {lower : string -> string}
    {int : string -> Result Z} (x : string * LightData) (w : World) :
  but_lights (snd (load_light lower int x w)) = but_lights w.
Proof.
  destruct x as [s d]. unfold load_light. unfold_monad.
  now destruct (int s).
Qed.

(** The scene loop appends to [myScenes] and does nothing else to the
    groups and the lights. *)
Lemma group_with_myScenes_same (g : Group) :
  group_with_myScenes (group_myScenes g) g = g.
Proof. now destruct g. Qed.

Lemma extended_refl (ids : list string) (w : World) : extended ids w w.
Proof.
  split; intros k x Hx; exists []; (split; [constructor|]);
    rewrite app_nil_r, Hx.
  - now rewrite group_with_myScenes_same.
  - now rewrite light_with_myScenes_same.
Qed.

Lemma extended_trans (ids : list string) (w1 w2 w3 : World) :
  extended ids w1 w2 -> extended ids w2 w3 -> extended ids w1 w3.
Proof.
  intros [Hg12 Hl12] [Hg23 Hl23]. split.
  - intros k g Hg. destruct (Hg12 k g Hg) as (e1 & Hin1 & H2).
    destruct (Hg23 k _ H2) as (e2 & Hin2 & H3).
    exists (e1 ++ e2)%list. split; [now apply Forall_app|].
    rewrite H3. simpl. now rewrite app_assoc.
  - intros k l Hl. destruct (Hl12 k l Hl) as (e1 & Hin1 & H2).
    destruct (Hl23 k _ H2) as (e2 & Hin2 & H3).
    exists (e1 ++ e2)%list. split; [now apply Forall_app|].
    rewrite H3. simpl. now rewrite app_assoc.
Qed.

Lemma linked_refl (ids : list string) (w : World) : linked ids w w.
Proof. split; [reflexivity | apply extended_refl]. Qed.

Lemma linked_trans (ids : list string) (w1 w2 w3 : World) :
  linked ids w1 w2 -> linked ids w2 w3 -> linked ids w1 w3.
Proof.
  intros [Hs12 He12] [Hs23 He23]. split; [congruence|].
  now apply extended_trans with w2.
Qed.

Lemma preserves_bind_get (R : World -> World -> Prop) {A}
    (k : World -> M World A) :
  (forall w, R w (snd (k w w))) -> preserves R (bind get k).
Proof. intros Hk w. apply Hk. Qed.

Lemma preserves_for_each_in (R : World -> World -> Prop)
    (R_refl : forall w, R w w)
    (R_trans : forall w1 w2 w3, R w1 w2 -> R w2 w3 -> R w1 w3)
    {A} (l : list A) (body : A -> M World unit) :
  (forall x, In x l -> preserves R (body x)) -> preserves R (for_each l body).
Proof.
  induction l as [|x l IH]; intros Hbody; simpl.
  - now apply preserves_ret.
  - apply (preserves_bind R R_trans).
    + apply Hbody. now left.
    + intros _. apply IH. intros y Hy. apply Hbody. now right.
Qed.

Lemma linked_append_group (ids : list string) (w : World) (k : Z)
    (g : Group) (sceneId : string) :
  In sceneId ids ->
  dict_get (_groups (bridge w)) k = Some g ->
  linked ids w
    (with_bridge (fun b =>
       bridge_with_groups
         (dict_set (_groups b) k
            (group_with_myScenes (group_myScenes g ++ [sceneId])%list g)) b)
       w).
Proof.
  intros Hid Hg. split; [reflexivity|]. split.
  - intros k0 g0 Hg0. simpl. destruct (Z.eq_dec k k0) as [<-|Hne].
    + assert (g = g0) as <- by congruence.
      exists [sceneId]. split; [now repeat constructor|].
      apply dict_get_set_eq.
    + exists []. split; [constructor|].
      rewrite dict_get_set_ne by exact Hne.
      now rewrite app_nil_r, group_with_myScenes_same.
  - intros k0 l0 Hl0. exists []. split; [constructor|]. simpl.
    now rewrite app_nil_r, light_with_myScenes_same.
Qed.

Lemma linked_append_light (ids : list string) (w : World) (k : Z)
    (l : Light) (sceneId : string) :
  In sceneId ids ->
  dict_get (_lights (bridge w)) k = Some l ->
  linked ids w
    (with_bridge (fun b =>
       bridge_with_lights
         (dict_set (_lights b) k
            (light_with_myScenes (light_myScenes l ++ [sceneId])%list l)) b)
       w).
Proof.
  intros Hid Hl. split; [reflexivity|]. split.
  - intros k0 g0 Hg0. exists []. split; [constructor|]. simpl.
    now rewrite app_nil_r, group_with_myScenes_same.
  - intros k0 l0 Hl0. simpl. destruct (Z.eq_dec k k0) as [<-|Hne].
    + assert (l = l0) as <- by congruence.
      exists [sceneId]. split; [now repeat constructor|].
      apply dict_get_set_eq.
    + exists []. split; [constructor|].
      rewrite dict_get_set_ne by exact Hne.
      now rewrite app_nil_r, light_with_myScenes_same.
Qed.

Lemma Bridge_group_by_id (b : Bridge) (k : Z) (g : Group) :
  Bridge_group b k "" = Returns g -> dict_get (_groups b) k = Some g.
Proof.
  unfold Bridge_group. cbn [truthy_str String.eqb negb].
  destruct (dict_get (_groups b) k); [congruence | discriminate].
Qed.

Lemma Bridge_light_by_id (b : Bridge) (k : Z) (l : Light) :
  Bridge_light b k "" = Returns l -> dict_get (_lights b) k = Some l.
Proof.
  unfold Bridge_light. cbn [truthy_str String.eqb negb].
  destruct (k =? 0)%Z; cbn [andb]; [discriminate|].
  destruct (dict_get (_lights b) k); [congruence | discriminate].
Qed.

Lemma linked_link_group_scene {int : string -> Result Z}
    (ids : list string) (sceneId : string) (data : SceneData) :
  In sceneId ids ->
  preserves (linked ids) (link_group_scene int sceneId data).
Proof.
  intros Hid. unfold link_group_scene.
  destruct (sd_group data);
    [|apply (preserves_raise (linked ids) (linked_refl ids))].
  apply (preserves_bind (linked ids) (linked_trans ids));
    [apply (preserves_lift_result (linked ids) (linked_refl ids))
    | intros groupId].
  apply preserves_bind_get. intros w.
  destruct (Bridge_group (bridge w) groupId "") as [g|e] eqn:Hg.
  - apply linked_append_group; [exact Hid | now apply Bridge_group_by_id].
  - destruct e; apply linked_refl.
Qed.

Lemma linked_link_light_scene {int : string -> Result Z}
    (ids : list string) (sceneId lightId : string) :
  In sceneId ids ->
  preserves (linked ids) (link_light_scene int sceneId lightId).
Proof.
  intros Hid. unfold link_light_scene.
  apply (preserves_bind (linked ids) (linked_trans ids));
    [apply (preserves_lift_result (linked ids) (linked_refl ids))
    | intros k].
  apply preserves_bind_get. intros w.
  destruct (Bridge_light (bridge w) k "") as [l|e] eqn:Hl.
  - apply linked_append_light; [exact Hid | now apply Bridge_light_by_id].
  - destruct e; apply linked_refl.
Qed.

(** A turn of the scene loop stores its scene and links it. *)
Lemma load_scene_linked {lower : string -> string}
    {int : string -> Result Z} (x : string * SceneData) (w : World) :
  linked [fst x] (store_scene lower (fst x) (snd x) w)
    (snd (load_scene lower int x w)).
Proof.
  assert (Hid : In (fst x) [fst x]) by now left.
  unfold load_scene.
  change (bind (modify ?f) ?k w) with (k tt (f w)). cbv beta.
  destruct (String.eqb (sd_type (snd x)) "GroupScene").
  - now apply linked_link_group_scene.
  - destruct (String.eqb (sd_type (snd x)) "LightScene"
              && negb (String.eqb (sd_name (snd x)) "Last on state")).
    + apply (preserves_for_each (linked [fst x]) (linked_refl _)
               (linked_trans _)).
      intros s. now apply linked_link_light_scene.
    + apply linked_refl.
Qed.

Lemma load_scene_assigns {lower : string -> string}
    {int : string -> Result Z} (x : string * SceneData) (w w1 : World) :
  load_scene lower int x w = (Returns tt, w1) ->
  exists k, Returns (fst x) = Returns k
            /\ _scenes (bridge w1)
               = dict_set (_scenes (bridge w)) k
                   (Scene_init lower k (Scene_of_data (snd x))).
Proof.
  intros Hrun. exists (fst x). split; [reflexivity|].
  destruct (load_scene_linked (lower:=lower) (int:=int) x w) as [Hs _].
  rewrite Hrun in Hs. exact Hs.
Qed.

Lemma extended_more (ids ids' : list string) (w w' : World) :
  (forall sceneId, In sceneId ids -> In sceneId ids') ->
  extended ids w w' -> extended ids' w w'.
Proof.
  intros Hsub [Hg Hl]. split.
  - intros k g Hk. destruct (Hg k g Hk) as (extra & Hin & Hget).
    exists extra. split; [|exact Hget].
    eapply List.Forall_impl; [|exact Hin]. exact Hsub.
  - intros k l Hk. destruct (Hl k l Hk) as (extra & Hin & Hget).
    exists extra. split; [|exact Hget].
    eapply List.Forall_impl; [|exact Hin]. exact Hsub.
Qed.

Lemma load_scene_extended {lower : string -> string}
    {int : string -> Result Z} (ids : list string)
    (x : string * SceneData) :
  In (fst x) ids ->
  preserves (extended ids) (load_scene lower int x).
Proof.
  intros Hid w.
  apply extended_trans with (store_scene lower (fst x) (snd x) w).
  - split; intros k y Hy; exists []; (split; [constructor|]); simpl;
      rewrite app_nil_r, Hy;
      [now rewrite group_with_myScenes_same
      | now rewrite light_with_myScenes_same].
  - apply extended_more with [fst x].
    + intros sceneId [<- | []]. exact Hid.
    + apply load_scene_linked.
Qed.

Lemma listing_request_same (w w' : World) (url : string) :
  _ip (bridge w') = _ip (bridge w) ->
  _username (bridge w') = _username (bridge w) ->
  listing_request w' url = listing_request w url.
Proof.
  intros Hip Hu. unfold listing_request, request_of, auth_url.
  now rewrite Hip, Hu.
Qed.

Lemma listing_step (transport : list Request -> Request -> option Response)
    (w w0 w1 : World) (url : string) (req : option Response) (r : Response) :
  Bridge_sendAuthRequest transport url None "GET" false w0
    = (Returns req, w1) ->
  _ip (bridge w0) = _ip (bridge w) ->
  _username (bridge w0) = _username (bridge w) ->
  transport (sent w0) (listing_request w url) = Some r ->
  req = Some r /\ w1 = record (listing_request w url) w0.
Proof.
  intros Hrun Hip Hu Hnet. rewrite sendAuthRequest_run in Hrun.
  cbv zeta in Hrun. fold (listing_request w0 url) in Hrun.
  rewrite (listing_request_same w w0 url Hip Hu) in Hrun.
  unfold delivered in Hrun. rewrite Hnet in Hrun.
  injection Hrun as <- <-. split; reflexivity.
Qed.

(** The worlds a returning reload goes through. *)
Lemma loadDevices_stages {lower : string -> string}
    {int : string -> Result Z}
    (transport : list Request -> Request -> option Response) (w w' : World)
    (gitems : list (string * GroupData)) (litems : list (string * LightData))
    (sitems : list (string * SceneData)) :
  answers_listings transport w gitems litems sitems ->
  Bridge_loadDevices lower int transport w = (Returns tt, w') ->
  exists w2 w4,
    for_each gitems (load_group lower int)
      (record (listing_request w "/groups") (set_everywhere lower w))
    = (Returns tt, w2)
    /\ for_each litems (load_light lower int)
         (record (listing_request w "/lights") w2)
       = (Returns tt, w4)
    /\ for_each sitems (load_scene lower int)
         (record (listing_request w "/scenes") w4)
       = (Returns tt, w').
Proof.
  intros (rg & rl & rs & Hg & Hokg & Hpg & Hl & Hokl & Hpl & Hs & Hps) Hrun.
  unfold Bridge_loadDevices in Hrun.
  change (bind (modify ?f) ?k w) with (k tt (f w)) in Hrun.
  fold (set_everywhere lower w) in Hrun. cbv beta in Hrun.
  apply bind_returns in Hrun as (req & w1 & H1 & Hrun).
  destruct (listing_step transport w _ _ _ _ rg H1 eq_refl eq_refl Hg)
    as [-> ->].
  apply bind_returns in Hrun as ([] & w2 & H2 & Hrun).
  rewrite Hokg in H2. unfold json in H2. rewrite Hpg in H2.
  change (for_each gitems (load_group lower int)
            (record (listing_request w "/groups") (set_everywhere lower w))
          = (Returns tt, w2)) in H2.
  pose proof (assign_loop_other but_groups (load_group lower int)
                load_group_other gitems
                (record (listing_request w "/groups")
                   (set_everywhere lower w))) as Ho2.
  rewrite H2 in Ho2. injection Ho2 as _ _ Hsent2 Hip2 Hu2.
  apply bind_returns in Hrun as (req' & w3 & H3 & Hrun).
  destruct (listing_step transport w _ _ _ _ rl H3 Hip2 Hu2) as [-> ->].
  { rewrite Hsent2. exact Hl. }
  apply bind_returns in Hrun as ([] & w4 & H4 & Hrun).
  rewrite Hokl in H4. unfold json in H4. rewrite Hpl in H4.
  change (for_each litems (load_light lower int)
            (record (listing_request w "/lights") w2)
          = (Returns tt, w4)) in H4.
  pose proof (assign_loop_other but_lights (load_light lower int)
                load_light_other litems
                (record (listing_request w "/lights") w2)) as Ho4.
  rewrite H4 in Ho4. injection Ho4 as _ _ Hsent4 Hip4 Hu4.
  unfold truthy_resp in Hrun. rewrite Hokl in Hrun.
  apply bind_returns in Hrun as (req'' & w5 & H5 & Hrun).
  destruct (listing_step transport w _ _ _ _ rs H5) as [-> ->].
  { now rewrite Hip4. }
  { now rewrite Hu4. }
  { rewrite Hsent4. simpl. rewrite Hsent2. simpl.
    rewrite <- app_assoc. exact Hs. }
  unfold json in Hrun. rewrite Hps in Hrun.
  exists w2, w4. split; [exact H2|]. split; [exact H4|]. exact Hrun.
Qed.

(** C1, amended: [loadDevices] does not replace the registry, it assigns
    into it.  Whatever the bridge answers, and whether the call returns or
    raises, every id of [_groups], [_lights] and [_scenes] is still there
    after the call, and group 0 is there.  When the bridge answers the
    three listings and the call returns, the registry holds, under the id
    [int] reads from its key, every group and every light of the answer,
    as the constructor and [init] build it, with scene ids of the answer
    appended to its [myScenes] by the scene loop (of two items with the
    same id, the later one); it holds every scene of the answer under its
    id; group 0 is the group "everywhere" unless the answer has a group 0;
    and an entry of before the call whose id the answer does not have is
    what it was, but for scene ids of the answer appended to the
    [myScenes] of a group or a light. *)
Theorem reload_assigns_into_registry (lower : string -> string)
    (int : string -> Result Z)
    (transport : list Request -> Request -> option Response) (w : World) :
  keeps_entries w (snd (Bridge_loadDevices lower int transport w))
  /\ dict_mem
       (_groups (bridge (snd (Bridge_loadDevices lower int transport w)))) 0
     = true
  /\ forall gitems litems sitems,
       answers_listings transport w gitems litems sitems ->
       fst (Bridge_loadDevices lower int transport w) = Returns tt ->
       let b' := bridge (snd (Bridge_loadDevices lower int transport w)) in
       (forall pre s d post k,
          gitems = (pre ++ (s, d) :: post)%list ->
          int s = Returns k ->
          Forall (fun item => int (fst item) <> Returns k) post ->
          exists scenes,
            Forall (fun sceneId => In sceneId (map fst sitems)) scenes
            /\ dict_get (_groups b') k
               = Some (group_with_myScenes scenes
                         (Group_init lower k (Group_of_data d))))
       /\ (forall pre s d post k,
             litems = (pre ++ (s, d) :: post)%list ->
             int s = Returns k ->
             Forall (fun item => int (fst item) <> Returns k) post ->
             exists scenes,
               Forall (fun sceneId => In sceneId (map fst sitems)) scenes
               /\ dict_get (_lights b') k
                  = Some (light_with_myScenes scenes
                            (Light_init lower k (Light_of_data d))))
       /\ (forall pre sceneId d post,
             sitems = (pre ++ (sceneId, d) :: post)%list ->
             ~ In sceneId (map fst post) ->
             dict_get (_scenes b') sceneId
             = Some (Scene_init lower sceneId (Scene_of_data d)))
       /\ (Forall (fun item => int (fst item) <> Returns 0) gitems ->
           exists scenes,
             Forall (fun sceneId => In sceneId (map fst sitems)) scenes
             /\ dict_get (_groups b') 0
                = Some (group_with_myScenes scenes (everywhere lower)))
       /\ (forall k g,
             dict_get (_groups (bridge w)) k = Some g -> k <> 0 ->
             Forall (fun item => int (fst item) <> Returns k) gitems ->
             exists extra,
               Forall (fun sceneId => In sceneId (map fst sitems)) extra
               /\ dict_get (_groups b') k
                  = Some (group_with_myScenes
                            (group_myScenes g ++ extra)%list g))
       /\ (forall k l,
             dict_get (_lights (bridge w)) k = Some l ->
             Forall (fun item => int (fst item) <> Returns k) litems ->
             exists extra,
               Forall (fun sceneId => In sceneId (map fst sitems)) extra
               /\ dict_get (_lights b') k
                  = Some (light_with_myScenes
                            (light_myScenes l ++ extra)%list l))
       /\ (forall sceneId sc,
             dict_get (_scenes (bridge w)) sceneId = Some sc ->
             ~ In sceneId (map fst sitems) ->
             dict_get (_scenes b') sceneId = Some sc).
Proof.
  split; [apply (grows_loadDevices transport w)|]. split.
  { rewrite loadDevices_after_set_everywhere.
    apply (grows_loadDevices transport (set_everywhere lower w)).
    simpl. apply dict_mem_set_eq. }
  intros gitems litems sitems Hnet Hret.
  destruct (Bridge_loadDevices lower int transport w) as [res w'] eqn:Hrun.
  simpl in Hret. subst res. cbv zeta. cbn [snd].
  destruct (loadDevices_stages transport w w' gitems litems sitems Hnet Hrun)
    as (w2 & w4 & H2 & H4 & H6).
  set (w1 := record (listing_request w "/groups") (set_everywhere lower w))
    in *.
  set (w3 := record (listing_request w "/lights") w2) in *.
  set (w5 := record (listing_request w "/scenes") w4) in *.
  (* what each loop leaves alone *)
  pose proof (assign_loop_other but_groups (load_group lower int)
                load_group_other gitems w1) as Ho2.
  rewrite H2 in Ho2. injection Ho2 as Hl2 Hs2 _ _ _.
  pose proof (assign_loop_other but_lights (load_light lower int)
                load_light_other litems w3) as Ho4.
  rewrite H4 in Ho4. injection Ho4 as Hg4 Hs4 _ _ _.
  pose proof (preserves_for_each_in (extended (map fst sitems))
                (extended_refl _) (extended_trans _)
                sitems (load_scene lower int)
                (fun x Hx => load_scene_extended (lower:=lower) (int:=int)
                               (map fst sitems) x (in_map fst sitems x Hx))
                w5)
    as [Hge Hle].
  rewrite H6 in Hge, Hle. cbn [snd] in Hge, Hle.
  (* what each loop assigns *)
  pose proof (assign_loop_last (fun x => int (fst x))
                (fun x k => Group_init lower k (Group_of_data (snd x)))
                (fun w => _groups (bridge w)) (load_group lower int)
                load_group_assigns gitems w1 w2) as Hglast.
  pose proof (assign_loop_absent (fun x => int (fst x))
                (fun x k => Group_init lower k (Group_of_data (snd x)))
                (fun w => _groups (bridge w)) (load_group lower int)
                load_group_assigns gitems w1 w2) as Hgabs.
  pose proof (assign_loop_last (fun x => int (fst x))
                (fun x k => Light_init lower k (Light_of_data (snd x)))
                (fun w => _lights (bridge w)) (load_light lower int)
                load_light_assigns litems w3 w4) as Hllast.
  pose proof (assign_loop_absent (fun x => int (fst x))
                (fun x k => Light_init lower k (Light_of_data (snd x)))
                (fun w => _lights (bridge w)) (load_light lower int)
                load_light_assigns litems w3 w4) as Hlabs.
  pose proof (assign_loop_last (fun x : string * SceneData => Returns (fst x))
                (fun x k => Scene_init lower k (Scene_of_data (snd x)))
                (fun w => _scenes (bridge w)) (load_scene lower int)
                load_scene_assigns sitems w5 w') as Hslast.
  pose proof (assign_loop_absent (fun x : string * SceneData => Returns (fst x))
                (fun x k => Scene_init lower k (Scene_of_data (snd x)))
                (fun w => _scenes (bridge w)) (load_scene lower int)
                load_scene_assigns sitems w5 w') as Hsabs.
  assert (Hfree : forall (sceneId : string) (l : list (string * SceneData)),
             ~ In sceneId (map fst l) ->
             Forall (fun y => @Returns string (fst y) <> Returns sceneId) l).
  { intros sceneId l Hnot. apply List.Forall_forall. intros y Hy [= Heq].
    apply Hnot. apply in_map_iff. now exists y. }
  repeat split.
  - intros pre s d post k Hsplit Hint Hpost.
    specialize (Hglast pre (s, d) post k H2 Hsplit Hint Hpost).
    cbn [snd] in Hglast.
    destruct (Hge k (Group_init lower k (Group_of_data d))) as (extra & He).
    { change (_groups (bridge w5)) with (_groups (bridge w4)).
      rewrite Hg4. exact Hglast. }
    exists extra. exact He.
  - intros pre s d post k Hsplit Hint Hpost.
    specialize (Hllast pre (s, d) post k H4 Hsplit Hint Hpost).
    cbn [snd] in Hllast.
    destruct (Hle k (Light_init lower k (Light_of_data d))) as (extra & He).
    { exact Hllast. }
    exists extra. exact He.
  - intros pre sceneId d post Hsplit Hnot.
    exact (Hslast pre (sceneId, d) post sceneId H6 Hsplit eq_refl
             (Hfree sceneId post Hnot)).
  - intros Hno0.
    destruct (Hge 0 (everywhere lower)) as (extra & He).
    { change (_groups (bridge w5)) with (_groups (bridge w4)).
      rewrite Hg4. change (_groups (bridge w3)) with (_groups (bridge w2)).
      rewrite (Hgabs 0 H2 Hno0). simpl. apply dict_get_set_eq. }
    exists extra. exact He.
  - intros k g Hg Hk Hnone.
    destruct (Hge k g) as (extra & He).
    { change (_groups (bridge w5)) with (_groups (bridge w4)).
      rewrite Hg4. change (_groups (bridge w3)) with (_groups (bridge w2)).
      rewrite (Hgabs k H2 Hnone). simpl.
      rewrite dict_get_set_ne by (intros Heq; apply Hk; now rewrite Heq).
      exact Hg. }
    exists extra. exact He.
  - intros k l Hl Hnone.
    destruct (Hle k l) as (extra & He).
    { change (_lights (bridge w5)) with (_lights (bridge w4)).
      rewrite (Hlabs k H4 Hnone).
      change (_lights (bridge w3)) with (_lights (bridge w2)).
      rewrite Hl2. exact Hl. }
    exists extra. exact He.
  - intros sceneId sc Hsc Hnot.
    rewrite (Hsabs sceneId H6 (Hfree sceneId sitems Hnot)).
    change (_scenes (bridge w5)) with (_scenes (bridge w4)).
    rewrite Hs4. change (_scenes (bridge w3)) with (_scenes (bridge w2)).
    rewrite Hs2. exact Hsc.
Qed.

Lemma reload_assigns_into_registry_witness :
  answers_listings listing_bridge loaded_world
    [("1", den_data)] [("1", kitchen_data)] [("s2", evening_scene)]
  /\ fst (Bridge_loadDevices ascii_lower decimal listing_bridge loaded_world)
     = Returns tt
  /\ (exists scenes,
        Forall (fun sceneId => In sceneId ["s2"]) scenes
        /\ dict_get
             (_groups (bridge (snd (Bridge_loadDevices ascii_lower decimal
                                      listing_bridge loaded_world)))) 1
           = Some (group_with_myScenes scenes
                     (Group_init ascii_lower 1 (Group_of_data den_data))))
  /\ dict_get
       (_scenes (bridge (snd (Bridge_loadDevices ascii_lower decimal
                                listing_bridge loaded_world)))) "s2"
     = Some (Scene_init ascii_lower "s2" (Scene_of_data evening_scene))
  /\ dict_get
       (_scenes (bridge (snd (Bridge_loadDevices ascii_lower decimal
                                listing_bridge loaded_world)))) "s1"
     = Some (Scene_init ascii_lower "s1" (Scene_of_data evening_scene)).
Proof.
  assert (Hnet : answers_listings listing_bridge loaded_world
                   [("1", den_data)] [("1", kitchen_data)]
                   [("s2", evening_scene)]).
  { do 3 eexists. repeat split. }
  assert (Hnot2 : ~ In "s2" (map fst ([] : list (string * SceneData))))
    by (intros []).
  assert (Hnot1 : ~ In "s1" (map fst [("s2", evening_scene)])).
  { intros [Heq | []]. discriminate Heq. }
  destruct (proj2 (proj2 (reload_assigns_into_registry ascii_lower decimal
                            listing_bridge loaded_world))
              _ _ _ Hnet eq_refl)
    as (Hgroups & _ & Hscenes & _ & _ & _ & Hstale).
  split; [exact Hnet|]. split; [reflexivity|]. split; [|split].
  - exact (Hgroups [] "1" den_data [] 1 eq_refl eq_refl (List.Forall_nil _)).
  - exact (Hscenes [] "s2" evening_scene [] eq_refl Hnot2).
  - exact (Hstale "s1" _ eq_refl Hnot1).
Defined.


(** * Further properties of the session *)

(** ** Where requests go *)

Lemma prefix_append (u r : string) : String.prefix u (u +:+ r) = true.
Proof.
  induction u as [|c u IH]; simpl; [destruct r; reflexivity|].
  destruct (ascii_dec c c); [exact IH | congruence].
Qed.

Lemma str_in_prefix (u h : string) :
  String.prefix u h = true -> str_in u h = true.
Proof. intros Hp. destruct h; cbn [str_in]; now rewrite Hp. Qed.

Lemma str_in_cons (u h : string) (c : ascii) :
  str_in u h = true -> str_in u (String c h) = true.
Proof.
  intros Hin. cbn [str_in]. now destruct (String.prefix u (String c h)).
Qed.

Lemma api_prefix_of_credential (u r : string) :
  startswith r "/" = true ->
  startswith ("/" +:+ u +:+ r) "/api" = startswith u "api".
Proof.
  unfold startswith. destruct r as [|c r]; [discriminate|].
  cbn [String.prefix]. destruct (ascii_dec "/" c) as [<-|]; [|discriminate].
  intros _.
  destruct u as [|c1 [|c2 [|c3 u]]]; simpl;
    repeat match goal with
           | |- context [ascii_dec ?a ?b] => destruct (ascii_dec a b); simpl
           end;
    try reflexivity; try discriminate; try congruence.
  now destruct u.
Qed.

Lemma slash_unless_rooted_slash (r : string) :
  slash_unless_rooted ("/" +:+ r) = "".
Proof.
  unfold slash_unless_rooted, startswith. simpl.
  destruct (ascii_dec "/" "/"); [now destruct r | congruence].
Qed.

Lemma rooted_starts_with_slash (url : string) :
  startswith (rooted url) "/" = true.
Proof.
  unfold rooted, slash_unless_rooted.
  destruct (startswith url "/") eqn:Hurl; [exact Hurl|].
  unfold startswith. simpl.
  destruct (ascii_dec "/" "/"); [now destruct url | congruence].
Qed.

(** Where an authenticated request goes.  For an URL that does not
    contain the credential, the request goes to the address of the
    session, path [/api/<credential>/<url>]; but when the credential
    begins with "api" the path that [sendAuthRequest] builds already
    starts with "/api", [sendRequest] puts no API root in front of it, and
    the request goes to [/<credential>/<url>], outside the API root.  The
    method is the caller's, and the body is the caller's data, or the
    empty object when there is none or it is falsy.  An URL that contains
    the credential is passed to [sendRequest] as it is. *)
Theorem authenticated_request_goes_to (b : Bridge) (url : string)
    (data : option Json) (method : string) :
  (str_in (_username b) url = false ->
   request_of b (Some (auth_url b url)) data method
   = mkRequest method
       ("http://" +:+ str_of_opt (_ip b)
        +:+ (if startswith (_username b) "api" then "" else "/api")
        +:+ "/" +:+ _username b +:+ rooted url)
       (match data with
        | Some d => if truthy d then d else JObj []
        | None => JObj []
        end))
  /\ (str_in (_username b) url = true ->
      request_of b (Some (auth_url b url)) data method
      = request_of b (Some url) data method).
Proof.
  split; intros Hin; unfold auth_url; rewrite Hin; cbn [negb];
    [|reflexivity].
  unfold request_of. fold (rooted url).
  change (truthy_str ("/" +:+ _username b +:+ rooted url)) with true.
  cbv iota.
  rewrite (api_prefix_of_credential (_username b) (rooted url)
             (rooted_starts_with_slash url)).
  destruct (startswith (_username b) "api"); [reflexivity|].
  now rewrite slash_unless_rooted_slash.
Qed.

Lemma authenticated_request_goes_to_witness :
  req_url (request_of sample_bridge (Some (auth_url sample_bridge "/lights"))
             None "GET")
  = "http://192.168.1.2/api/user/lights"
  /\ req_url (request_of (bridge_with_username "apikey" sample_bridge)
                (Some (auth_url (bridge_with_username "apikey" sample_bridge)
                         "lights"))
                None "GET")
     = "http://192.168.1.2/apikey/lights".
Proof.
  split.
  - exact (f_equal req_url
             (proj1 (authenticated_request_goes_to sample_bridge "/lights"
                       None "GET") eq_refl)).
  - exact (f_equal req_url
             (proj1 (authenticated_request_goes_to
                       (bridge_with_username "apikey" sample_bridge) "lights"
                       None "GET") eq_refl)).
Defined.

(** [sendAuthRequest] passes on an URL that contains the credential, and
    an URL it has produced is passed on as it is. *)
Theorem auth_url_embeds_credential (b : Bridge) (url : string) :
  str_in (_username b) (auth_url b url) = true
  /\ auth_url b (auth_url b url) = auth_url b url.
Proof.
  assert (Hin : str_in (_username b) (auth_url b url) = true).
  { unfold auth_url. destruct (str_in (_username b) url) eqn:Hu; cbn [negb].
    - exact Hu.
    - cbn [append]. apply str_in_cons, str_in_prefix, prefix_append. }
  split; [exact Hin|].
  unfold auth_url at 1. now rewrite Hin.
Qed.

(** One call of [sendRequest] records exactly one request and leaves the
    session and the config file alone.  A silent call never raises: it
    returns the response, or [None] on a transport failure; a call that is
    not silent returns the response or raises the request error, and
    raises nothing else. *)
Theorem sendRequest_outcomes
    (transport : list Request -> Request -> option Response)
    (url : option string) (data : option Json) (method : string)
    (silent : bool) (w : World) :
  snd (Bridge_sendRequest transport url data method silent w)
    = record (request_of (bridge w) url data method) w
  /\ fst (Bridge_sendRequest transport url data method silent w)
     = match transport (sent w) (request_of (bridge w) url data method) with
       | Some r => Returns (Some r)
       | None => if silent then Returns None else Raises PhueRequestError
       end.
Proof.
  unfold Bridge_sendRequest. unfold_monad.
  destruct (transport _ _); [split; reflexivity|].
  destruct silent; split; reflexivity.
Qed.

Lemma same_session_refl (w : World) : same_session w w.
Proof. repeat split. Qed.

Lemma same_session_trans (w1 w2 w3 : World) :
  same_session w1 w2 -> same_session w2 w3 -> same_session w1 w3.
Proof.
  intros (?&?&?&?&?) (?&?&?&?&?). repeat split; congruence.
Qed.

(** [loadDevices] touches the registries and the log of requests only. *)
Lemma loadDevices_same_session {lower : string -> string}
    {int : string -> Result Z}
    (transport : list Request -> Request -> option Response) (w : World) :
  same_session w (snd (Bridge_loadDevices lower int transport w)).
Proof.
  apply (preserves_loadDevices same_session same_session_refl
           same_session_trans); intros; repeat split.
Qed.

(** ** Connecting *)

Ltac connect_cases :=
  split;
  [ intros ? He0; first [discriminate He0 | injection He0 as <-; auto]
  | split;
    [ intros He0; discriminate He0
    | intros _; simpl; congruence ] ].

(** The first part of [autodiscover]'s effect on the session: the
    credential and the connection flag stay. *)
Lemma autodiscover_keeps_credential {disk : ConfFile -> Conf -> WriteOutcome}
    (discovery : option (list (string * bool)))
    (w : World) :
  _username (bridge (snd (Bridge_autodiscover disk discovery w)))
    = _username (bridge w)
  /\ _connected (bridge (snd (Bridge_autodiscover disk discovery w)))
     = _connected (bridge w)
  /\ sent (snd (Bridge_autodiscover disk discovery w)) = sent w
  /\ (forall e, fst (Bridge_autodiscover disk discovery w) = Raises e ->
        e = NoPhueBridgeFound).
Proof.
  unfold Bridge_autodiscover, Bridge_saveConfigFile.
  destruct discovery as [candidates|]; [|repeat split; discriminate].
  destruct (List.find Bridge_isPhueBridge candidates); unfold_monad.
  - destruct (disk _ _); repeat split; discriminate.
  - repeat split. intros e [= <-]. reflexivity.
Qed.

(** [connect] lets three exceptions through and no other, a failure of
    [loadDevices] included.  When it returns true the session is marked
    connected and its credential is not empty; in every other case the
    connection flag is what it was. *)
Theorem connect_outcomes (lower : string -> string) (int : string -> Result Z)
    (disk : ConfFile -> Conf -> WriteOutcome)
    (transport : list Request -> Request -> option Response)
    (discovery : option (list (string * bool))) (autodiscover : bool)
    (w : World) :
  (forall e, fst (Bridge_connect lower int disk transport discovery autodiscover w) = Raises e ->
     connect_exception e)
  /\ (fst (Bridge_connect lower int disk transport discovery autodiscover w) = Returns true ->
      _connected (bridge (snd (Bridge_connect lower int disk transport discovery autodiscover w)))
        = true
      /\ _username (bridge (snd (Bridge_connect lower int disk transport discovery
                                   autodiscover w))) <> "")
  /\ (fst (Bridge_connect lower int disk transport discovery autodiscover w) <> Returns true ->
      _connected (bridge (snd (Bridge_connect lower int disk transport discovery autodiscover w)))
        = _connected (bridge w)).
Proof.
  unfold Bridge_connect, Bridge_sendRequest, connect_exception.
  unfold_monad.
  destruct (autodiscover_keeps_credential (disk:=disk) discovery w)
    as (Hu & Hc & _ & He).
  set (pre := if negb (truthy_opt_str (_ip (bridge w))) && autodiscover
              then Bridge_autodiscover disk discovery
              else if negb (truthy_opt_str (_ip (bridge w)))
                      && negb autodiscover
                   then raise NoPhueIP else ret tt).
  assert (Hpre : _username (bridge (snd (pre w))) = _username (bridge w)
                 /\ _connected (bridge (snd (pre w))) = _connected (bridge w)
                 /\ (forall e, fst (pre w) = Raises e ->
                       e = NoPhueBridgeFound \/ e = NoPhueIP)).
  { subst pre. destruct (truthy_opt_str (_ip (bridge w))), autodiscover; simpl;
      repeat split; try discriminate; auto.
    intros e [= <-]. now right. }
  change (if match (if truthy_opt_str (_ip (bridge w)) then false else true)
                with true => autodiscover | false => false end
          then Bridge_autodiscover disk discovery
          else if match (if truthy_opt_str (_ip (bridge w)) then false else true)
                     with
                     | true => if autodiscover then false else true
                     | false => false
                     end
               then fun s : World => (Raises NoPhueIP, s)
               else fun s : World => (Returns tt, s)) with pre.
  destruct Hpre as (Hu' & Hc' & He').
  destruct (pre w) as [[[]|e] w1] eqn:Hrun; simpl in Hu', Hc', He'.
  - destruct (truthy_str (_username (bridge w1))) eqn:Huser; simpl;
      [|connect_cases].
    destruct (transport (sent w1) _) as [r|]; simpl; [|connect_cases].
    destruct (ok r); simpl; [|connect_cases].
    destruct (json r) as [answer|e]; simpl; [|destruct e; connect_cases].
    destruct (Bridge_errorReturned answer) as [[]|e]; simpl;
      [connect_cases | | destruct e; connect_cases].
    match goal with
    | |- context [Bridge_loadDevices lower int transport ?w2] =>
        pose proof (loadDevices_same_session (lower:=lower) (int:=int)
                      transport w2)
          as (_ & _ & Hlu & Hlc & _);
        destruct (Bridge_loadDevices lower int transport w2) as [[[]|e] w3]
    end; simpl in *.
    all: split; [intros e' [=] | split; [intros _ | intros Hne; now elim Hne]].
    all: split; [exact Hlc|].
    all: rewrite Hlu; intros Hempty; rewrite Hempty in Huser; discriminate.
  - destruct (He' e eq_refl) as [-> | ->]; simpl; connect_cases.
Qed.

Lemma connect_outcomes_witness :
  _connected (bridge (snd (Bridge_connect ascii_lower decimal good_disk emptied_bridge None true
                             paired_world))) = true
  /\ _username (bridge (snd (Bridge_connect ascii_lower decimal good_disk emptied_bridge None true
                               paired_world))) <> "".
Proof.
  exact (proj1 (proj2 (connect_outcomes ascii_lower decimal good_disk emptied_bridge None true paired_world))
           eq_refl).
Defined.

(** Without an address and with autodiscovery off, and with an address
    but without a credential, [connect] raises before any request is sent
    and leaves the world as it is. *)
Theorem connect_needs_address_and_credential (lower : string -> string)
    (int : string -> Result Z) (disk : ConfFile -> Conf -> WriteOutcome)
    (transport : list Request -> Request -> option Response)
    (discovery : option (list (string * bool))) (w : World) :
  (truthy_opt_str (_ip (bridge w)) = false ->
   Bridge_connect lower int disk transport discovery false w = (Raises NoPhueIP, w))
  /\ (truthy_opt_str (_ip (bridge w)) = true ->
      _username (bridge w) = "" ->
      forall autodiscover,
        Bridge_connect lower int disk transport discovery autodiscover w
        = (Raises UnauthorizedUser, w)).
Proof.
  split.
  - intros Hip. unfold Bridge_connect. unfold_monad. rewrite Hip. reflexivity.
  - intros Hip Huser autodiscover. unfold Bridge_connect. unfold_monad.
    rewrite Hip. unfold_monad. rewrite Huser. reflexivity.
Qed.

Lemma connect_needs_address_and_credential_witness :
  Bridge_connect ascii_lower decimal good_disk always_ok None true unpaired_world
  = (Raises UnauthorizedUser, unpaired_world).
Proof.
  exact (proj2 (connect_needs_address_and_credential ascii_lower decimal good_disk always_ok None
                  unpaired_world) eq_refl eq_refl true).
Defined.

(** A transport failure on the probe, an error status and a body that is
    not JSON make [connect] return false, with the one probe recorded and
    the session not connected by it; an answer whose first element holds
    an [error] key makes it raise the authorization error. *)
Theorem connect_probe_failures (lower : string -> string)
    (int : string -> Result Z) (disk : ConfFile -> Conf -> WriteOutcome)
    (transport : list Request -> Request -> option Response)
    (discovery : option (list (string * bool))) (autodiscover : bool)
    (w : World) :
  truthy_opt_str (_ip (bridge w)) = true ->
  _username (bridge w) <> "" ->
  let probe := request_of (bridge w) (Some ("/" +:+ _username (bridge w)))
                 None "GET" in
  (transport (sent w) probe = None
   \/ (exists r, transport (sent w) probe = Some r
                 /\ (ok r = false \/ payload r = None)) ->
   Bridge_connect lower int disk transport discovery autodiscover w
   = (Returns false, record probe w))
  /\ (forall r first rest,
        transport (sent w) probe = Some r -> ok r = true ->
        payload r = Some (Plain (JArr (first :: rest))) ->
        py_in "error" first = Returns true ->
        Bridge_connect lower int disk transport discovery autodiscover w
        = (Raises UnauthorizedUser, record probe w)).
Proof.
  intros Hip Huser probe. apply truthy_str_nonempty in Huser.
  split.
  - intros Hfail. unfold Bridge_connect, Bridge_sendRequest. unfold_monad.
    rewrite Hip. unfold_monad. rewrite Huser. unfold_monad. fold probe.
    destruct Hfail as [-> | (r & -> & [Hok | Hbody])]; [reflexivity | |].
    + now rewrite Hok.
    + destruct (ok r); [|reflexivity]. unfold json. now rewrite Hbody.
  - intros r first rest Hr Hok Hbody Herr.
    unfold Bridge_connect, Bridge_sendRequest. unfold_monad.
    rewrite Hip. unfold_monad. rewrite Huser. unfold_monad. fold probe.
    rewrite Hr, Hok. unfold json. rewrite Hbody.
    unfold Bridge_errorReturned, first_has. rewrite Herr. reflexivity.
Qed.

Lemma connect_probe_failures_witness :
  Bridge_connect ascii_lower decimal good_disk always_down None true paired_world
  = (Returns false,
     record (request_of (bridge paired_world) (Some "/user") None "GET")
       paired_world).
Proof.
  assert (Huser : _username (bridge paired_world) <> "") by discriminate.
  exact (proj1 (connect_probe_failures ascii_lower decimal good_disk always_down None true paired_world
                  eq_refl Huser) (or_introl eq_refl)).
Defined.

(** ** Registering *)

Ltac register_cases :=
  split;
  [ first [ left; reflexivity | right; left; reflexivity
          | right; right; reflexivity ]
  | split;
    [ intros [Hne | Hsave];
      first [ split; reflexivity | now elim Hne | discriminate Hsave ]
    | intros Hret Hsave;
      first [ discriminate Hret | discriminate Hsave | split; reflexivity ] ] ].

(** [register] returns true or raises one of two exceptions, the link
    button error or the registration error, and nothing else, when the
    bridge grants strings only.  Unless it returns true it changes neither
    the session nor the config file; when it returns true with
    [saveConnection] the session keeps its address and the config file is
    what the write of the address and the new credential made of it: these
    two when the write succeeded, what the failed write left otherwise;
    without [saveConnection] the session and the file are as before. *)
Theorem register_outcomes (disk : ConfFile -> Conf -> WriteOutcome)
    (transport : list Request -> Request -> option Response)
    (saveConnection : bool) (w : World) :
  grants_strings_only transport w ->
  (fst (Bridge_register disk transport saveConnection w) = Returns true
   \/ fst (Bridge_register disk transport saveConnection w)
      = Raises LinkButtonNotPressed
   \/ fst (Bridge_register disk transport saveConnection w)
      = Raises PhueRegistrationError)
  /\ (fst (Bridge_register disk transport saveConnection w) <> Returns true
      \/ saveConnection = false ->
      bridge (snd (Bridge_register disk transport saveConnection w)) = bridge w
      /\ confFile (snd (Bridge_register disk transport saveConnection w))
         = confFile w)
  /\ (fst (Bridge_register disk transport saveConnection w) = Returns true ->
      saveConnection = true ->
      _ip (bridge (snd (Bridge_register disk transport saveConnection w)))
        = _ip (bridge w)
      /\ confFile (snd (Bridge_register disk transport saveConnection w))
         = after_write disk (confFile w)
             (mkConf (_ip (bridge w))
                (_username (bridge (snd (Bridge_register disk transport
                                           saveConnection w)))))).
Proof.
  intros Hgrant.
  unfold Bridge_register, Bridge_sendRequest, Bridge_saveConfigFile,
    after_write.
  unfold_monad.
  destruct (transport (sent w) _) as [r|] eqn:Hr; simpl; [|register_cases].
  destruct (ok r); simpl; [|register_cases].
  unfold json.
  destruct (payload r) as [answer|] eqn:Hanswer; simpl; [|register_cases].
  destruct (Bridge_errorReturned answer) as [[]|e]; simpl;
    [register_cases | | destruct e; register_cases].
  destruct (Bridge_successReturned answer) as [[]|e]; simpl;
    [ | register_cases | destruct e; register_cases].
  destruct saveConnection; simpl; [|register_cases].
  destruct (registered_username answer) as [u|e] eqn:Hu; simpl.
  - destruct (disk (confFile w) (mkConf (_ip (bridge w)) u)) eqn:Hd; simpl;
      rewrite ?Hd; register_cases.
  - destruct e; register_cases.
Qed.

Lemma granting_bridge_grants_strings (w : World) :
  grants_strings_only granting_bridge w.
Proof.
  intros rq r answer v Hr Hanswer Hv.
  injection Hr as <-. injection Hanswer as <-. injection Hv as <-.
  now exists "k3y".
Qed.

Lemma register_outcomes_witness :
  grants_strings_only granting_bridge unpaired_world
  /\ confFile (snd (Bridge_register good_disk granting_bridge true
                      unpaired_world))
     = Stored (mkConf (Some "192.168.1.2") "k3y")
  /\ confFile (snd (Bridge_register full_disk granting_bridge true
                      unpaired_world))
     = NoFile.
Proof.
  split; [apply granting_bridge_grants_strings|]. split.
  - exact (proj2 (proj2 (proj2 (register_outcomes good_disk granting_bridge
                                  true unpaired_world
                                  (granting_bridge_grants_strings _)))
                    eq_refl eq_refl)).
  - exact (proj2 (proj2 (proj2 (register_outcomes full_disk granting_bridge
                                  true unpaired_world
                                  (granting_bridge_grants_strings _)))
                    eq_refl eq_refl)).
Defined.



(** ** The config store *)

(** What [saveConfigFile] writes, a constructor called without address
    and credential reads back: when the write succeeds, the new session has
    the address and the credential of the one that saved, and the file is
    kept.  When the write fails, [saveConfigFile] returns all the same, and
    the file is what the failed write left. *)
Theorem config_round_trip (disk : ConfFile -> Conf -> WriteOutcome)
    (w : World) (deviceName : string) :
  (disk (confFile w) (mkConf (_ip (bridge w)) (_username (bridge w)))
     = Written ->
   Bridge___init__ None deviceName ""
     (confFile (snd (Bridge_saveConfigFile disk w)))
   = (Returns (mkBridge (_ip (bridge w)) deviceName (_username (bridge w))
                 false [] [] []),
      confFile (snd (Bridge_saveConfigFile disk w))))
  /\ (forall left_behind,
        disk (confFile w) (mkConf (_ip (bridge w)) (_username (bridge w)))
          = WriteFailed left_behind ->
        Bridge_saveConfigFile disk w
        = (Returns tt, with_confFile left_behind w)).
Proof.
  split.
  - intros Hwritten. unfold Bridge_saveConfigFile. unfold_monad.
    rewrite Hwritten. reflexivity.
  - intros left_behind Hfailed. unfold Bridge_saveConfigFile. unfold_monad.
    rewrite Hfailed. reflexivity.
Qed.

Lemma config_round_trip_witness :
  Bridge___init__ None "phuepython" ""
    (confFile (snd (Bridge_saveConfigFile good_disk paired_world)))
  = (Returns (mkBridge (Some "192.168.1.2") "phuepython" "user"
                false [] [] []),
     Stored (mkConf (Some "192.168.1.2") "user")).
Proof.
  exact (proj1 (config_round_trip good_disk paired_world "phuepython")
           eq_refl).
Defined.

(** Without a loadable config file the constructor takes its arguments as
    they are and does not touch the file; the registries start empty and
    the session unconnected. *)
Theorem init_without_config (ip : option string) (deviceName username : string)
    (file : ConfFile) :
  file = NoFile \/ file = Unreadable ->
  Bridge___init__ ip deviceName username file
  = (Returns (mkBridge ip deviceName username false [] [] []), file).
Proof. intros [-> | ->]; reflexivity. Qed.

Lemma init_without_config_witness :
  Bridge___init__ (Some "192.168.1.2") "phuepython" "k3y" Unreadable
  = (Returns (mkBridge (Some "192.168.1.2") "phuepython" "k3y" false [] [] []),
     Unreadable).
Proof.
  exact (init_without_config (Some "192.168.1.2") "phuepython" "k3y"
           Unreadable (or_intror eq_refl)).
Defined.

(** ** Discovery *)

(** [autodiscover] takes the first candidate with an address whose probe
    answers as a bridge does: the session gets its address, and the config
    file is what the write of that address and the credential made of it:
    these two when the write succeeded, what the failed write left
    otherwise.  When no candidate qualifies it raises the bridge-not-found
    error, and when the discovery service fails it returns; in both cases
    the world is as before. *)
Theorem autodiscover_takes_first_bridge
    (disk : ConfFile -> Conf -> WriteOutcome) (w : World)
    (passed : list (string * bool)) (ip : string)
    (later : list (string * bool)) :
  (forall c, In c passed -> Bridge_isPhueBridge c = false) ->
  ip <> "" ->
  Bridge_autodiscover disk (Some (passed ++ (ip, true) :: later)%list) w
    = (Returns tt,
       mkWorld (bridge_with_ip (Some ip) (bridge w)) (sent w)
         (after_write disk (confFile w)
            (mkConf (Some ip) (_username (bridge w)))))
  /\ Bridge_autodiscover disk (Some passed) w = (Raises NoPhueBridgeFound, w)
  /\ Bridge_autodiscover disk None w = (Returns tt, w).
Proof.
  intros Hpassed Hip. split; [|split; [|reflexivity]].
  - unfold Bridge_autodiscover.
    rewrite (find_first_match Bridge_isPhueBridge passed later (ip, true)).
    + unfold Bridge_saveConfigFile, after_write. unfold_monad. simpl.
      destruct (disk (confFile w) _); reflexivity.
    + unfold Bridge_isPhueBridge. simpl. now rewrite truthy_str_nonempty.
    + exact Hpassed.
  - unfold Bridge_autodiscover. now rewrite find_no_match.
Qed.

Lemma autodiscover_takes_first_bridge_witness :
  Bridge_autodiscover good_disk two_candidates fresh_world
  = (Returns tt,
     mkWorld (bridge_with_ip (Some "192.168.1.2") (bridge fresh_world)) []
       (Stored (mkConf (Some "192.168.1.2") "")))
  /\ Bridge_autodiscover full_disk two_candidates fresh_world
     = (Returns tt,
        mkWorld (bridge_with_ip (Some "192.168.1.2") (bridge fresh_world)) []
          NoFile).
Proof.
  assert (Hip : "192.168.1.2" <> "") by discriminate.
  split.
  - refine (proj1 (autodiscover_takes_first_bridge good_disk fresh_world
                     [("192.168.1.7", false)] "192.168.1.2" [] _ Hip)).
    intros c [<- | []]. reflexivity.
  - refine (proj1 (autodiscover_takes_first_bridge full_disk fresh_world
                     [("192.168.1.7", false)] "192.168.1.2" [] _ Hip)).
    intros c [<- | []]. reflexivity.
Defined.

(** ** Applying a scene to a group *)

Lemma existsb_eqb_In (x : string) (l : list string) :
  existsb (String.eqb x) l = true <-> In x l.
Proof.
  rewrite existsb_exists. split.
  - intros (y & Hy & Heq). apply String.eqb_eq in Heq. now subst.
  - intros Hin. exists x. split; [exact Hin | apply String.eqb_refl].
Qed.

(** [Group.scene] by id, on a group attached to its session: an id the
    registry does not hold raises the scene not-found error, an id of the
    registry that is not among the scenes of the group raises the
    not-in-group error, and in both cases nothing is sent and nothing
    changes; otherwise the one request sent is the PUT of that scene id
    to the action of the group.  The name plays no part. *)
Theorem group_scene_by_id (lower : string -> string)
    (transport : list Request -> Request -> option Response)
    (g : Group) (w : World) (bg : BridgeRef) (sceneId sceneName : string) :
  group_bridge g = Some bg ->
  sceneId <> "" ->
  (dict_get (_scenes (bridge w)) sceneId = None ->
   Group_scene lower transport sceneId sceneName (g, w) = (Raises NoSuchScene, (g, w)))
  /\ (dict_get (_scenes (bridge w)) sceneId <> None ->
      ~ In sceneId (group_myScenes g) ->
      Group_scene lower transport sceneId sceneName (g, w)
      = (Raises NoSuchSceneInGroup, (g, w)))
  /\ (dict_get (_scenes (bridge w)) sceneId <> None ->
      In sceneId (group_myScenes g) ->
      snd (Group_scene lower transport sceneId sceneName (g, w))
      = (g, record (entity_request w "/groups" (group_action_url g)
                      (Some (JObj [("scene", JStr sceneId)])) "PUT") w)).
Proof.
  intros Hb Hid. apply truthy_str_nonempty in Hid.
  unfold Group_scene. rewrite Hid. unfold_monad. rewrite Hb.
  unfold dict_mem. split; [|split].
  - intros ->. reflexivity.
  - intros Hsome Hnot.
    destruct (dict_get (_scenes (bridge w)) sceneId); [|congruence].
    destruct (existsb (String.eqb sceneId) (group_myScenes g)) eqn:Hex;
      [|reflexivity].
    apply existsb_eqb_In in Hex. contradiction.
  - intros Hsome Hin.
    destruct (dict_get (_scenes (bridge w)) sceneId); [|congruence].
    apply existsb_eqb_In in Hin. rewrite Hin.
    erewrite Group_request_attached by exact Hb.
    destruct (delivered _ _ _); reflexivity.
Qed.

Lemma group_scene_by_id_witness :
  Group_scene ascii_lower always_ok "s9" "" (living_room_with_scenes, scenes_world)
  = (Raises NoSuchSceneInGroup, (living_room_with_scenes, scenes_world)).
Proof.
  assert (Hid : "s9" <> "") by discriminate.
  refine (proj1 (proj2 (group_scene_by_id ascii_lower always_ok living_room_with_scenes
                          scenes_world TheBridge "s9" "" eq_refl Hid)) _ _).
  - discriminate.
  - intros [Heq | [Heq | []]]; discriminate.
Defined.

(** The scenes of the group passed over by the scan by name. *)
Lemma scene_by_name_skips {lower : string -> string}
    (transport : list Request -> Request -> option Response)
    (sceneName : string) (passed rest : list string) (g : Group) (w : World) :
  Forall (fun sid => exists sc,
            dict_get (_scenes (bridge w)) sid = Some sc
            /\ lower (scene_name sc) <> lower sceneName) passed ->
  scene_by_name lower transport sceneName (passed ++ rest)%list (g, w)
  = scene_by_name lower transport sceneName rest (g, w).
Proof.
  induction 1 as [|sid passed (sc & Hsc & Hne) _ IH]; [reflexivity|].
  simpl. unfold_monad. rewrite Hsc, (String_eqb_neq _ _ Hne). exact IH.
Qed.

(** [Group.scene] by name, on a group attached to its session: the scenes
    of the group are scanned in order, and the name of each is compared
    with the query after [str.lower] has been applied to both; the first
    scene whose name matches is the one put to the action of the group.  When every scene of the group is in the registry and
    none matches, the not-in-group error is raised and nothing is sent;
    a scene of the group that the registry does not hold, met before a
    match, raises a key error. *)
Theorem group_scene_by_name (lower : string -> string)
    (transport : list Request -> Request -> option Response)
    (g : Group) (w : World) (bg : BridgeRef) (sceneName : string)
    (passed : list string) :
  group_bridge g = Some bg ->
  sceneName <> "" ->
  Forall (fun sid => exists sc,
            dict_get (_scenes (bridge w)) sid = Some sc
            /\ lower (scene_name sc) <> lower sceneName) passed ->
  (forall sid sc later,
     group_myScenes g = (passed ++ sid :: later)%list ->
     dict_get (_scenes (bridge w)) sid = Some sc ->
     lower (scene_name sc) = lower sceneName ->
     snd (Group_scene lower transport "" sceneName (g, w))
     = (g, record (entity_request w "/groups" (group_action_url g)
                     (Some (JObj [("scene", JStr sid)])) "PUT") w))
  /\ (group_myScenes g = passed ->
      Group_scene lower transport "" sceneName (g, w)
      = (Raises NoSuchSceneInGroup, (g, w)))
  /\ (forall sid later,
        group_myScenes g = (passed ++ sid :: later)%list ->
        dict_get (_scenes (bridge w)) sid = None ->
        Group_scene lower transport "" sceneName (g, w) = (Raises KeyError, (g, w))).
Proof.
  intros Hb Hname Hpassed. apply truthy_str_nonempty in Hname.
  unfold Group_scene. rewrite Hname. change (truthy_str "") with false.
  unfold_monad. rewrite Hb. split; [|split].
  - intros sid sc later Hmy Hsc Heq. rewrite Hmy.
    rewrite (scene_by_name_skips transport sceneName passed _ g w Hpassed).
    simpl. unfold_monad. rewrite Hsc, Heq, String.eqb_refl. unfold_monad.
    erewrite Group_request_attached by exact Hb.
    destruct (delivered _ _ _); reflexivity.
  - intros Hmy. rewrite Hmy.
    rewrite <- (app_nil_r passed) at 1.
    rewrite (scene_by_name_skips transport sceneName passed [] g w Hpassed).
    reflexivity.
  - intros sid later Hmy Hnone. rewrite Hmy.
    rewrite (scene_by_name_skips transport sceneName passed _ g w Hpassed).
    simpl. unfold_monad. rewrite Hnone. reflexivity.
Qed.

Lemma group_scene_by_name_witness :
  snd (Group_scene ascii_lower always_ok "" "RELAX" (living_room_with_scenes, scenes_world))
  = (living_room_with_scenes,
     record (entity_request scenes_world "/groups"
               (group_action_url living_room_with_scenes)
               (Some (JObj [("scene", JStr "s1")])) "PUT") scenes_world).
Proof.
  assert (Hname : "RELAX" <> "") by discriminate.
  exact (proj1 (group_scene_by_name ascii_lower always_ok living_room_with_scenes
                  scenes_world TheBridge "RELAX" [] eq_refl Hname
                  (List.Forall_nil _))
           "s1" _ ["s2"] eq_refl eq_refl eq_refl).
Defined.

(** ** Creating a group *)

(** The body [addGroup] posts always carries one of the six group types:
    the requested type when it is one of them, "LightGroup" otherwise; it
    carries the room class exactly when that type is "Room"; the name and
    the lights are the caller's.  The call sends this one request. *)
Theorem addGroup_body_is_well_typed
    (transport : list Request -> Request -> option Response)
    (groupName : string) (lights : list string) (groupType clazz : string)
    (w : World) :
  let body := addGroup_body groupName lights groupType clazz in
  let sent_type := if valid_groupType groupType then groupType
                   else "LightGroup" in
  valid_groupType sent_type = true
  /\ dict_get body "type" = Some (JStr sent_type)
  /\ dict_get body "name" = Some (JStr groupName)
  /\ dict_get body "lights" = Some (JArr (map JStr lights))
  /\ dict_get body "class"
     = (if String.eqb sent_type "Room" then Some (JStr clazz) else None)
  /\ snd (Bridge_addGroup transport groupName lights groupType clazz w)
     = record (request_of (bridge w) (Some (auth_url (bridge w) "/groups"))
                 (Some (JObj body)) "POST") w.
Proof.
  intros body sent_type.
  assert (Hsent : snd (Bridge_addGroup transport groupName lights groupType
                         clazz w)
                  = record (request_of (bridge w)
                              (Some (auth_url (bridge w) "/groups"))
                              (Some (JObj body)) "POST") w).
  { unfold Bridge_addGroup. unfold_monad. rewrite sendAuthRequest_run.
    cbv zeta. destruct (delivered _ _ _); reflexivity. }
  revert Hsent. generalize (Bridge_addGroup transport groupName lights
                              groupType clazz w).
  intros run Hsent. subst body sent_type. unfold addGroup_body in *.
  destruct (valid_groupType groupType) eqn:Hvalid; cbn [negb] in *.
  - split; [exact Hvalid|].
    destruct (String.eqb groupType "Room"); repeat split; exact Hsent.
  - split; [reflexivity|]. repeat split. exact Hsent.
Qed.

(** ** Configuring a light *)

Lemma configure_state_dom (data : list (string * Json))
    (state : gmap string Json) (k : string) :
  is_Some (configure_state data state !! k) <-> is_Some (state !! k).
Proof.
  revert state. induction data as [|[key value] data IH]; intros state; simpl.
  - reflexivity.
  - destruct (state !! key) eqn:Hkey; [|apply IH].
    rewrite IH. destruct (decide (key = k)) as [<-|Hne].
    + rewrite lookup_insert_eq, Hkey. split; eauto.
    + now rewrite lookup_insert_ne.
Qed.

Lemma configure_state_other (data : list (string * Json))
    (state : gmap string Json) (k : string) :
  ~ In k (map fst data) -> configure_state data state !! k = state !! k.
Proof.
  revert state. induction data as [|[key value] data IH]; intros state Hk;
    simpl in *; [reflexivity|].
  destruct (state !! key).
  - rewrite IH by tauto. apply lookup_insert_ne. tauto.
  - apply IH. tauto.
Qed.

Lemma configure_state_known (data : list (string * Json))
    (state : gmap string Json) (k : string) (v : Json) :
  List.NoDup (map fst data) -> In (k, v) data -> is_Some (state !! k) ->
  configure_state data state !! k = Some v.
Proof.
  revert state. induction data as [|[key value] data IH];
    intros state Hnd Hin Hk; simpl in *; [contradiction|].
  apply NoDup_cons_iff in Hnd as [Hfresh Hnd].
  destruct Hin as [[= -> ->] | Hin].
  - destruct Hk as [old Hold]. rewrite Hold.
    rewrite configure_state_other by exact Hfresh. apply lookup_insert_eq.
  - destruct (state !! key) eqn:Hkey; [|now apply IH].
    apply IH; [exact Hnd | exact Hin |].
    destruct (decide (key = k)) as [<-|Hne].
    + rewrite lookup_insert_eq. eauto.
    + now rewrite lookup_insert_ne.
Qed.

(** [Light.configure] updates the keys the state already holds and no
    other: the state has the same keys after the call, a key of the data
    that the state holds takes the value of the data, and a key the data
    does not name keeps its value.  With [sendToBridge] false the call
    returns without a request, on an unreachable light as well. *)
Theorem configure_updates_known_keys
    (transport : list Request -> Request -> option Response)
    (data : list (string * Json)) (l : Light) (w : World) :
  List.NoDup (map fst data) ->
  let after := light_state (fst (snd (Light_configure transport data false
                                        (l, w)))) in
  Light_configure transport data false (l, w)
    = (Returns tt,
       (light_with_state (configure_state data (light_state l)) l, w))
  /\ (forall k, is_Some (after !! k) <-> is_Some (light_state l !! k))
  /\ (forall k v, In (k, v) data -> is_Some (light_state l !! k) ->
        after !! k = Some v)
  /\ (forall k, ~ In k (map fst data) -> after !! k = light_state l !! k).
Proof.
  intros Hnd after. subst after. split; [reflexivity|]. simpl.
  split; [|split].
  - intros k. apply configure_state_dom.
  - intros k v Hin Hk. now apply configure_state_known.
  - intros k Hk. now apply configure_state_other.
Qed.

Lemma configure_updates_known_keys_witness :
  light_state (fst (snd (Light_configure always_ok
                           [("bri", JInt 7); ("speed", JInt 3)] false
                           (unreachable_white_light, sample_world))))
    !! "bri" = Some (JInt 7).
Proof.
  assert (Hnd : List.NoDup (map fst [("bri", JInt 7); ("speed", JInt 3)])).
  { repeat constructor; simpl; intuition discriminate. }
  refine (proj1 (proj2 (proj2 (configure_updates_known_keys always_ok _
                                 unreachable_white_light sample_world Hnd)))
            "bri" (JInt 7) _ _).
  - now left.
  - eexists. reflexivity.
Defined.

(** With [sendToBridge] the state is updated first and reachability is
    judged on the updated state.  When the light is reachable there and
    has a session, the one request sent is the PUT of the whole of the
    data, the keys the state does not hold included, to the state of the
    light.  When it is not reachable there, the not-reachable error is
    raised after the update and nothing is sent: data that set [reachable]
    to false on a reachable light make the call raise.  Data that do not
    name [reachable] leave it as it was. *)
Theorem configure_sends_all_data
    (transport : list Request -> Request -> option Response)
    (data : list (string * Json)) (l : Light) (w : World) (r : Json)
    (br : BridgeRef) :
  configure_state data (light_state l) !! "reachable" = Some r ->
  (truthy r = true -> light_bridge l = Some br ->
   snd (Light_configure transport data true (l, w))
   = (light_with_state (configure_state data (light_state l)) l,
      record (entity_request w "/lights" (light_state_url l)
                (Some (JObj data)) "PUT") w)
   /\ req_method (entity_request w "/lights" (light_state_url l)
                    (Some (JObj data)) "PUT") = "PUT"
   /\ req_data (entity_request w "/lights" (light_state_url l)
                  (Some (JObj data)) "PUT") = JObj data)
  /\ (truthy r = false ->
      Light_configure transport data true (l, w)
      = (Raises LightNotReachable,
         (light_with_state (configure_state data (light_state l)) l, w)))
  /\ (~ In "reachable" (map fst data) ->
      light_state l !! "reachable" = Some r).
Proof.
  intros Hr. split; [|split].
  - intros Ht Hb. unfold Light_configure, self_light. unfold_monad.
    erewrite Light_request_reachable;
      [ | simpl; exact Hr | exact Ht | exact Hb ].
    split; [reflexivity|]. split; [reflexivity|].
    destruct data; reflexivity.
  - intros Ht. unfold Light_configure, self_light. unfold_monad.
    erewrite Light_request_unreachable;
      [ reflexivity | simpl; exact Hr | exact Ht ].
  - intros Hnot. now rewrite <- (configure_state_other data _ _ Hnot).
Qed.

Lemma configure_sends_all_data_witness :
  Light_configure always_ok [("reachable", JBool false); ("speed", JInt 3)]
    true (colour_light, sample_world)
  = (Raises LightNotReachable,
     (light_with_state
        (configure_state [("reachable", JBool false); ("speed", JInt 3)]
           (light_state colour_light))
        colour_light,
      sample_world))
  /\ req_data (entity_request sample_world "/lights"
                 (light_state_url colour_light)
                 (Some (JObj [("bri", JInt 7); ("speed", JInt 3)])) "PUT")
     = JObj [("bri", JInt 7); ("speed", JInt 3)].
Proof.
  split.
  - exact (proj1 (proj2 (configure_sends_all_data always_ok
                           [("reachable", JBool false); ("speed", JInt 3)]
                           colour_light sample_world (JBool false) TheBridge
                           eq_refl))
             eq_refl).
  - exact (proj2 (proj2 (proj1 (configure_sends_all_data always_ok
                                  [("bri", JInt 7); ("speed", JInt 3)]
                                  colour_light sample_world (JBool true)
                                  TheBridge eq_refl)
                           eq_refl eq_refl))).
Defined.

(** ** Groups and scenes by name *)

Lemma find_app_last {A} (p : A -> bool) (l : list A) (x : A) :
  List.find p (l ++ [x]) =
    match List.find p l with
    | Some y => Some y
    | None => if p x then Some x else None
    end.
Proof.
  induction l as [|y l IH]; simpl; [reflexivity|].
  destruct (p y); [reflexivity | exact IH].
Qed.

Lemma by_name_last {A B} (val : A -> B) (name : B -> string) (l : list A)
    (acc : list (string * B)) (n : string) :
  dict_get (fold_left (fun acc x => dict_set acc (name (val x)) (val x)) l acc)
    n =
    match List.find (fun y => String.eqb (name y) n) (rev (map val l)) with
    | Some y => Some y
    | None => dict_get acc n
    end.
Proof.
  revert acc. induction l as [|x l IH]; intros acc; simpl; [reflexivity|].
  rewrite IH, find_app_last.
  destruct (List.find _ (rev (map val l))); [reflexivity|].
  destruct (String.eqb_spec (name (val x)) n) as [<-|Hne].
  - apply dict_get_set_eq.
  - now apply dict_get_set_ne.
Qed.

(** [groupsByName] holds, under a name, the last group of the registry
    with that name, where [group(groupName=...)] returns the first; names
    no group has are absent.  [scenesByName] does the same for scenes. *)
Theorem by_name_keeps_last (b : Bridge) (name : string) :
  dict_get (Bridge_groupsByName b) name
    = List.find (fun g => String.eqb (group_name g) name)
        (rev (dict_values (_groups b)))
  /\ dict_get (Bridge_scenesByName b) name
     = List.find (fun s => String.eqb (scene_name s) name)
         (rev (dict_values (_scenes b))).
Proof.
  split.
  - unfold Bridge_groupsByName.
    rewrite (by_name_last (fun g => g) group_name), map_id.
    now destruct (List.find _ _).
  - unfold Bridge_scenesByName, dict_values.
    rewrite (by_name_last snd scene_name). now destruct (List.find _ _).
Qed.

Lemma by_name_and_lookup_disagree :
  group_id <$> dict_get (Bridge_groupsByName twin_bridge) "living room"
    = Some 2
  /\ Bridge_group twin_bridge 0 "living room" = Returns living_room.
Proof. split; reflexivity. Qed.

(** ** Loading and looking up *)

Lemma dict_get_In {K V} `{EqDecision K} (d : list (K * V)) (k : K) (v : V) :
  dict_get d k = Some v -> In (k, v) d.
Proof.
  induction d as [|[k' v'] d IH]; simpl; [discriminate|].
  destruct (decide (k = k')) as [->|Hne].
  - intros [= ->]. now left.
  - intros Hget. right. now apply IH.
Qed.

Lemma find_finds {A} (p : A -> bool) (l : list A) (x : A) :
  In x l -> p x = true ->
  exists y, List.find p l = Some y /\ In y l /\ p y = true.
Proof.
  intros Hin Hp. destruct (List.find p l) as [y|] eqn:Hfind.
  - exists y. apply find_some in Hfind as [? ?]. auto.
  - rewrite (find_none _ _ Hfind x Hin) in Hp. discriminate.
Qed.

(** What a turn of the lights loop stored, the lookups give back: by the
    id [int] read from its key (other than 0) the light itself, whose name
    is what [str.lower] made of the name in the data, with its id and its
    session set; by that name, when it is not empty, a light of that name.
    The same for a turn of the groups loop, id 0 included. *)
Theorem loaded_entities_are_found (lower : string -> string)
    (int : string -> Result Z) (w : World) :
  (forall s d k,
     int s = Returns k -> k <> 0 ->
     let b := bridge (snd (load_light lower int (s, d) w)) in
     Bridge_light b k "" = Returns (Light_init lower k (Light_of_data d))
     /\ light_name (Light_init lower k (Light_of_data d)) = lower (ld_name d)
     /\ light_bridge (Light_init lower k (Light_of_data d)) = Some TheBridge
     /\ (lower (ld_name d) <> "" ->
         exists l, Bridge_light b 0 (lower (ld_name d)) = Returns l
                   /\ light_name l = lower (ld_name d)))
  /\ (forall s d k,
        int s = Returns k ->
        let b := bridge (snd (load_group lower int (s, d) w)) in
        Bridge_group b k "" = Returns (Group_init lower k (Group_of_data d))
        /\ group_name (Group_init lower k (Group_of_data d)) = lower (gd_name d)
        /\ (lower (gd_name d) <> "" ->
            exists g, Bridge_group b 0 (lower (gd_name d)) = Returns g
                      /\ group_name g = lower (gd_name d))).
Proof.
  split.
  - intros s d k Hint Hk b.
    destruct (load_light_stores (lower:=lower) (int:=int) s d k w Hint) as [_ Hget]. fold b in Hget.
    split; [|split; [reflexivity | split; [reflexivity|]]].
    + unfold Bridge_light. destruct (Z.eqb_spec k 0) as [|_]; [contradiction|].
      cbn [andb]. now rewrite Hget.
    + intros Hname. unfold Bridge_light.
      rewrite (truthy_str_nonempty _ Hname). simpl.
      destruct (find_finds
                  (fun l => String.eqb (light_name l) (lower (ld_name d)))
                  (dict_values (_lights b)) (Light_init lower k (Light_of_data d)))
        as (l & Hfind & _ & Hl).
      * apply in_map_iff. exists (k, Light_init lower k (Light_of_data d)).
        split; [reflexivity | now apply dict_get_In].
      * apply String.eqb_refl.
      * rewrite Hfind. exists l. split; [reflexivity|].
        now apply String.eqb_eq.
  - intros s d k Hint b.
    destruct (load_group_stores (lower:=lower) (int:=int) s d k w Hint) as [_ Hget]. fold b in Hget.
    split; [|split; [reflexivity|]].
    + unfold Bridge_group. simpl. now rewrite Hget.
    + intros Hname. unfold Bridge_group.
      rewrite (truthy_str_nonempty _ Hname).
      destruct (find_finds
                  (fun g => String.eqb (group_name g) (lower (gd_name d)))
                  (dict_values (_groups b)) (Group_init lower k (Group_of_data d)))
        as (g & Hfind & _ & Hg).
      * apply in_map_iff. exists (k, Group_init lower k (Group_of_data d)).
        split; [reflexivity | now apply dict_get_In].
      * apply String.eqb_refl.
      * rewrite Hfind. exists g. split; [reflexivity|].
        now apply String.eqb_eq.
Qed.

Lemma loaded_entities_are_found_witness :
  Bridge_light (bridge (snd (load_light ascii_lower decimal ("5", kitchen_data) sample_world)))
    5 ""
  = Returns (Light_init ascii_lower 5 (Light_of_data kitchen_data)).
Proof.
  assert (Hk : 5 <> 0) by discriminate.
  exact (proj1 (proj1 (loaded_entities_are_found ascii_lower decimal sample_world)
                  "5" kitchen_data 5 eq_refl Hk)).
Defined.

(** ** More on reloading *)

(** After [loadDevices], whatever the bridge answered and whether the call
    returned or raised, the registry has a group under id 0, and the
    address, the credential, the connection flag and the config file are
    what they were. *)
Theorem reload_has_group_0 (lower : string -> string) (int : string -> Result Z)
    (transport : list Request -> Request -> option Response) (w : World) :
  dict_mem (_groups (bridge (snd (Bridge_loadDevices lower int transport w)))) 0 = true
  /\ same_session w (snd (Bridge_loadDevices lower int transport w)).
Proof.
  split; [|apply loadDevices_same_session].
  rewrite loadDevices_after_set_everywhere.
  apply (grows_loadDevices transport (set_everywhere lower w)).
  simpl. apply dict_mem_set_eq.
Qed.

(** A transport failure on the groups listing ends [loadDevices] with the
    request error after that one request: group 0 has been assigned, the
    lights and the scenes are neither fetched nor touched. *)
Theorem reload_stops_at_transport_failure (lower : string -> string)
    (int : string -> Result Z)
    (transport : list Request -> Request -> option Response) (w : World) :
  (forall rq, transport (sent w) rq = None) ->
  Bridge_loadDevices lower int transport w
  = (Raises PhueRequestError,
     record (listing_request w "/groups") (set_everywhere lower w)).
Proof.
  intros Hnet. unfold Bridge_loadDevices.
  change (bind (modify ?f) ?k w) with (k tt (f w)).
  fold (set_everywhere lower w). unfold bind at 1.
  rewrite sendAuthRequest_run. cbv zeta. unfold delivered.
  change (sent (set_everywhere lower w)) with (sent w). rewrite Hnet.
  reflexivity.
Qed.

Lemma reload_stops_at_transport_failure_witness :
  Bridge_loadDevices ascii_lower decimal always_down loaded_world
  = (Raises PhueRequestError,
     record (listing_request loaded_world "/groups")
       (set_everywhere ascii_lower loaded_world)).
Proof.
  exact (reload_stops_at_transport_failure ascii_lower decimal always_down loaded_world
           (fun _ => eq_refl)).
Defined.

(** When the bridge answers the listings with an error status,
    [loadDevices] returns after two requests, for the groups and for the
    lights: the scenes are not asked for, and beyond group 0 the registry
    is what it was. *)
Theorem reload_skips_scenes_after_error_status (lower : string -> string)
    (int : string -> Result Z)
    (transport : list Request -> Request -> option Response) (w : World) :
  (forall history rq, exists r,
      transport history rq = Some r /\ ok r = false) ->
  Bridge_loadDevices lower int transport w
  = (Returns tt,
     record (listing_request w "/lights")
       (record (listing_request w "/groups") (set_everywhere lower w))).
Proof.
  intros Hnet. unfold Bridge_loadDevices.
  change (bind (modify ?f) ?k w) with (k tt (f w)).
  fold (set_everywhere lower w). unfold bind at 1.
  rewrite sendAuthRequest_run. cbv zeta. unfold delivered.
  match goal with
  | |- context [transport ?h ?rq] =>
      destruct (Hnet h rq) as (r1 & -> & Hok1)
  end.
  unfold bind at 1. rewrite Hok1. unfold ret at 1. unfold bind at 1.
  rewrite sendAuthRequest_run. cbv zeta. unfold delivered.
  match goal with
  | |- context [transport ?h ?rq] =>
      destruct (Hnet h rq) as (r2 & -> & Hok2)
  end.
  unfold bind at 1. rewrite Hok2. unfold ret at 1.
  unfold truthy_resp. rewrite Hok2. reflexivity.
Qed.

Lemma reload_skips_scenes_after_error_status_witness :
  Bridge_loadDevices ascii_lower decimal erring_bridge loaded_world
  = (Returns tt,
     record (listing_request loaded_world "/lights")
       (record (listing_request loaded_world "/groups")
          (set_everywhere ascii_lower loaded_world))).
Proof.
  refine (reload_skips_scenes_after_error_status ascii_lower decimal erring_bridge loaded_world _).
  intros history rq. eexists. split; reflexivity.
Defined.

(** * Further properties of the entities *)

(** ** Saturation, hue and colour mode *)

(** On a reachable light attached to its session the setters of
    saturation and hue cache the value clamped to [1,254] and to
    [0,65535] and send that same value in the one PUT they issue; a
    saturation of 0 becomes 1 (only brightness treats 0 apart). *)
Theorem light_saturation_hue_clamp
    (transport : list Request -> Request -> option Response)
    (l : Light) (w : World) (r : Json) (br : BridgeRef) (value : Z) :
  light_state l !! "reachable" = Some r ->
  truthy r = true ->
  light_bridge l = Some br ->
  (exists rq,
     snd (Light_saturation_set transport value (l, w))
     = (light_with_state (<["sat" := JInt (clamp 1 254 value)]> (light_state l))
          l, record rq w)
     /\ req_method rq = "PUT"
     /\ req_data rq = JObj [("sat", JInt (clamp 1 254 value))])
  /\ (exists rq,
        snd (Light_hue_set transport value (l, w))
        = (light_with_state
             (<["hue" := JInt (clamp 0 65535 value)]> (light_state l)) l,
           record rq w)
        /\ req_method rq = "PUT"
        /\ req_data rq = JObj [("hue", JInt (clamp 0 65535 value))])
  /\ 1 <= clamp 1 254 value <= 254
  /\ 0 <= clamp 0 65535 value <= 65535.
Proof.
  intros Hr Ht Hb. unfold clamp. split; [|split; [|lia]].
  - unfold Light_saturation_set, Light_state_set, self_light. unfold_monad.
    erewrite Light_request_reachable;
      [ | simpl; rewrite lookup_insert_ne by done; exact Hr | exact Ht
        | exact Hb ].
    rewrite sorted3_mid_Z_clamp by lia.
    eexists. split; [reflexivity|]. split; reflexivity.
  - unfold Light_hue_set, Light_state_set, self_light. unfold_monad.
    erewrite Light_request_reachable;
      [ | simpl; rewrite lookup_insert_ne by done; exact Hr | exact Ht
        | exact Hb ].
    rewrite sorted3_mid_Z_clamp by lia.
    eexists. split; [reflexivity|]. split; reflexivity.
Qed.

Lemma light_saturation_hue_clamp_witness :
  exists rq,
    snd (Light_saturation_set always_ok 0 (colour_light, sample_world))
    = (light_with_state (<["sat" := JInt 1]> (light_state colour_light))
         colour_light, record rq sample_world)
    /\ req_method rq = "PUT"
    /\ req_data rq = JObj [("sat", JInt 1)].
Proof.
  exact (proj1 (light_saturation_hue_clamp always_ok colour_light sample_world
                  (JBool true) TheBridge 0 eq_refl eq_refl eq_refl)).
Defined.

(** The same for a group attached to its session, on its [action]. *)
Theorem group_saturation_hue_clamp
    (transport : list Request -> Request -> option Response)
    (g : Group) (w : World) (bg : BridgeRef) (value : Z) :
  group_bridge g = Some bg ->
  (exists rq,
     snd (Group_saturation_set transport value (g, w))
     = (group_with_action
          (<["sat" := JInt (clamp 1 254 value)]> (group_action g)) g,
        record rq w)
     /\ req_method rq = "PUT"
     /\ req_data rq = JObj [("sat", JInt (clamp 1 254 value))])
  /\ (exists rq,
        snd (Group_hue_set transport value (g, w))
        = (group_with_action
             (<["hue" := JInt (clamp 0 65535 value)]> (group_action g)) g,
           record rq w)
        /\ req_method rq = "PUT"
        /\ req_data rq = JObj [("hue", JInt (clamp 0 65535 value))]).
Proof.
  intros Hb. unfold clamp. split.
  - unfold Group_saturation_set, Group_action_set, self_group. unfold_monad.
    erewrite Group_request_attached by exact Hb.
    rewrite sorted3_mid_Z_clamp by lia.
    eexists. split; [destruct (delivered _ _ _); reflexivity|].
    split; reflexivity.
  - unfold Group_hue_set, Group_action_set, self_group. unfold_monad.
    erewrite Group_request_attached by exact Hb.
    rewrite sorted3_mid_Z_clamp by lia.
    eexists. split; [destruct (delivered _ _ _); reflexivity|].
    split; reflexivity.
Qed.

Lemma group_saturation_hue_clamp_witness :
  exists rq,
    snd (Group_hue_set always_ok 70000 (living_room, sample_world))
    = (group_with_action (<["hue" := JInt 65535]> (group_action living_room))
         living_room, record rq sample_world)
    /\ req_method rq = "PUT"
    /\ req_data rq = JObj [("hue", JInt 65535)].
Proof.
  exact (proj2 (group_saturation_hue_clamp always_ok living_room sample_world
                  TheBridge 70000 eq_refl)).
Defined.

(** The setter of [colormode] on a reachable light attached to its
    session.  When the state has a [colormode] key, the mode cached and
    the mode sent are the same and one of "hs", "xy", "ct": the mode given
    when it is one of them, "ct" otherwise.  When the state has no such
    key, the call returns and changes and sends nothing. *)
Theorem colormode_is_coerced
    (transport : list Request -> Request -> option Response)
    (l : Light) (w : World) (r : Json) (br : BridgeRef) (mode : string) :
  light_state l !! "reachable" = Some r ->
  truthy r = true ->
  light_bridge l = Some br ->
  let mode' := if valid_colormode mode then mode else "ct" in
  valid_colormode mode' = true
  /\ (light_state l !! "colormode" <> None ->
      exists rq,
        snd (Light_colormode_set transport mode (l, w))
        = (light_with_state (<["colormode" := JStr mode']> (light_state l)) l,
           record rq w)
        /\ req_method rq = "PUT"
        /\ req_data rq = JObj [("colormode", JStr mode')])
  /\ (light_state l !! "colormode" = None ->
      Light_colormode_set transport mode (l, w) = (Returns tt, (l, w))).
Proof.
  intros Hr Ht Hb mode'. split; [|split].
  - subst mode'. destruct (valid_colormode mode) eqn:Hv; [exact Hv | reflexivity].
  - intros Hkey. unfold Light_colormode_set, Light_state_set, self_light.
    unfold_monad. destruct (light_state l !! "colormode"); [|congruence].
    unfold_monad.
    erewrite Light_request_reachable;
      [ | simpl; rewrite lookup_insert_ne by done; exact Hr | exact Ht
        | exact Hb ].
    eexists. split; [reflexivity|]. split; reflexivity.
  - intros Hkey. unfold Light_colormode_set, self_light. unfold_monad.
    now rewrite Hkey.
Qed.

Lemma colormode_is_coerced_witness :
  exists rq,
    snd (Light_colormode_set always_ok "rgb" (colour_light, sample_world))
    = (light_with_state (<["colormode" := JStr "ct"]> (light_state colour_light))
         colour_light, record rq sample_world)
    /\ req_method rq = "PUT"
    /\ req_data rq = JObj [("colormode", JStr "ct")].
Proof.
  refine (proj1 (proj2 (colormode_is_coerced always_ok colour_light
                          sample_world (JBool true) TheBridge "rgb"
                          eq_refl eq_refl eq_refl)) _).
  discriminate.
Defined.

(** ** Switching *)

Lemma Light_request_keeps_light
    (transport : list Request -> Request -> option Response)
    (l : Light) (w : World) (url : string) (data : option Json)
    (method : string) :
  fst (snd (Light_request transport url data method (l, w))) = l.
Proof.
  unfold Light_request, Light_reachable, self_light. unfold_monad.
  destruct (light_state l !! "reachable") as [r|]; [|reflexivity].
  unfold_monad. destruct (truthy r); [|reflexivity].
  destruct (light_bridge l); [|reflexivity]. unfold_monad.
  rewrite sendAuthRequest_run. cbv zeta.
  destruct (delivered _ _ _); reflexivity.
Qed.

(** [on], [off], [alert], [effect] and [delete] of a light leave the light
    as it is, its cached [on] flag included: [isOn] answers after [on()]
    and [off()] what it answered before.  On a reachable light attached to
    its session [on] and [off] send the one PUT of the flag. *)
Theorem light_switching_keeps_the_cache
    (transport : list Request -> Request -> option Response)
    (l : Light) (w : World) :
  (fst (snd (Light_on transport (l, w))) = l
   /\ fst (snd (Light_off transport (l, w))) = l
   /\ (forall state, fst (snd (Light_alert transport state (l, w))) = l)
   /\ (forall effect, fst (snd (Light_effect transport effect (l, w))) = l)
   /\ fst (snd (Light_delete transport (l, w))) = l)
  /\ Light_isOn (fst (snd (Light_on transport (l, w)))) = Light_isOn l
  /\ Light_isOn (fst (snd (Light_off transport (l, w)))) = Light_isOn l
  /\ (forall r br,
        light_state l !! "reachable" = Some r -> truthy r = true ->
        light_bridge l = Some br ->
        exists rq_on rq_off,
          snd (snd (Light_on transport (l, w))) = record rq_on w
          /\ req_data rq_on = JObj [("on", JBool true)]
          /\ snd (snd (Light_off transport (l, w))) = record rq_off w
          /\ req_data rq_off = JObj [("on", JBool false)]
          /\ req_method rq_on = "PUT" /\ req_method rq_off = "PUT").
Proof.
  pose proof (Light_request_keeps_light transport l w) as Hreq.
  assert (Hon : fst (snd (Light_on transport (l, w))) = l).
  { unfold Light_on, self_light. unfold_monad. apply Hreq. }
  assert (Hoff : fst (snd (Light_off transport (l, w))) = l).
  { unfold Light_off, self_light. unfold_monad. apply Hreq. }
  split; [|split; [|split]].
  - split; [exact Hon|]. split; [exact Hoff|]. split; [|split].
    + intros state. unfold Light_alert, self_light. unfold_monad. apply Hreq.
    + intros effect. unfold Light_effect, self_light. unfold_monad. apply Hreq.
    + unfold Light_delete, self_light. unfold_monad. apply Hreq.
  - now rewrite Hon.
  - now rewrite Hoff.
  - intros r br Hr Ht Hb. unfold Light_on, Light_off, self_light.
    unfold_monad.
    rewrite (Light_request_reachable transport (light_state_url l)
               (Some (JObj [("on", JBool true)])) "PUT" l w r br Hr Ht Hb).
    rewrite (Light_request_reachable transport (light_state_url l)
               (Some (JObj [("on", JBool false)])) "PUT" l w r br Hr Ht Hb).
    do 2 eexists. split; [reflexivity|]. split; [reflexivity|].
    split; [reflexivity|]. split; [reflexivity|]. split; reflexivity.
Qed.

Lemma light_switching_keeps_the_cache_witness :
  exists rq_on rq_off,
    snd (snd (Light_on always_ok (colour_light, sample_world)))
      = record rq_on sample_world
    /\ req_data rq_on = JObj [("on", JBool true)]
    /\ snd (snd (Light_off always_ok (colour_light, sample_world)))
       = record rq_off sample_world
    /\ req_data rq_off = JObj [("on", JBool false)]
    /\ req_method rq_on = "PUT" /\ req_method rq_off = "PUT".
Proof.
  exact (proj2 (proj2 (proj2 (light_switching_keeps_the_cache always_ok
                                colour_light sample_world)))
           (JBool true) TheBridge eq_refl eq_refl eq_refl).
Defined.

(** [Group.toggle] on a group attached to its session: both aggregate
    flags become the negation of what [any_on] was and the one PUT sent
    carries that value; without an [any_on] flag the call raises a key
    error, changes nothing and sends nothing. *)
Theorem group_toggle_flips
    (transport : list Request -> Request -> option Response)
    (g : Group) (w : World) (bg : BridgeRef) :
  group_bridge g = Some bg ->
  (forall any_on,
     group_state g !! "any_on" = Some any_on ->
     exists rq,
       snd (Group_toggle transport (g, w))
       = (group_with_state
            (<["all_on" := JBool (negb (truthy any_on))]>
               (<["any_on" := JBool (negb (truthy any_on))]> (group_state g)))
            g,
          record rq w)
       /\ req_method rq = "PUT"
       /\ req_data rq = JObj [("on", JBool (negb (truthy any_on)))])
  /\ (group_state g !! "any_on" = None ->
      Group_toggle transport (g, w) = (Raises KeyError, (g, w))).
Proof.
  intros Hb. split.
  - intros any_on Hany. unfold Group_toggle, self_group. unfold_monad.
    rewrite Hany.
    destruct (truthy any_on); cbn [negb];
      unfold Group_on, Group_off, Group_state_set, self_group; unfold_monad;
      erewrite Group_request_attached by exact Hb;
      eexists; (split; [destruct (delivered _ _ _); reflexivity|]);
      split; reflexivity.
  - intros Hany. unfold Group_toggle, self_group. unfold_monad.
    now rewrite Hany.
Qed.

Lemma group_toggle_flips_witness :
  exists rq,
    snd (Group_toggle always_ok (living_room, sample_world))
    = (group_with_state
         (<["all_on" := JBool false]>
            (<["any_on" := JBool false]> (group_state living_room)))
         living_room,
       record rq sample_world)
    /\ req_method rq = "PUT"
    /\ req_data rq = JObj [("on", JBool false)].
Proof.
  exact (proj1 (group_toggle_flips always_ok living_room sample_world
                  TheBridge eq_refl) (JBool true) eq_refl).
Defined.

(** ** Groups without a session, renames without an acknowledgment *)

(** A group that has no session sends nothing and raises nothing: [on],
    [off], [alert], [effect], [delete] and the setters of brightness,
    saturation and hue return with the world as it was, and [rename]
    returns false and keeps the name. *)
Theorem detached_group_sends_nothing
    (transport : list Request -> Request -> option Response)
    (g : Group) (w : World) :
  group_bridge g = None ->
  (Group_on transport (g, w)).1 = Returns tt
  /\ (Group_off transport (g, w)).1 = Returns tt
  /\ (forall state, (Group_alert transport state (g, w)) = (Returns tt, (g, w)))
  /\ (forall effect,
        (Group_effect transport effect (g, w)) = (Returns tt, (g, w)))
  /\ Group_delete transport (g, w) = (Returns tt, (g, w))
  /\ (forall value,
        (Group_brightness_set transport value (g, w)).1 = Returns tt
        /\ (Group_saturation_set transport value (g, w)).1 = Returns tt
        /\ (Group_hue_set transport value (g, w)).1 = Returns tt
        /\ (Group_brightness_set transport value (g, w)).2.2 = w
        /\ (Group_saturation_set transport value (g, w)).2.2 = w
        /\ (Group_hue_set transport value (g, w)).2.2 = w)
  /\ (Group_on transport (g, w)).2.2 = w
  /\ (Group_off transport (g, w)).2.2 = w
  /\ (forall newName allowExistingName,
        Group_rename transport newName allowExistingName (g, w)
        = (Returns false, (g, w))).
Proof.
  intros Hb.
  assert (Hreq : forall g' url data method,
             group_bridge g' = None ->
             Group_request transport url data method (g', w)
             = (Returns None, (g', w))).
  { intros g' url data method Hg'. unfold Group_request, self_group.
    unfold_monad. now rewrite Hg'. }
  repeat split; intros;
    unfold Group_on, Group_off, Group_alert, Group_effect, Group_delete,
      Group_brightness_set, Group_saturation_set, Group_hue_set, Group_rename,
      Group_off, Group_state_set, Group_action_set, self_group;
    try (destruct (value =? 0)%Z);
    unfold Group_off, Group_state_set, Group_action_set, self_group;
    unfold_monad; rewrite Hreq by exact Hb; reflexivity.
Qed.

Lemma detached_group_sends_nothing_witness :
  Group_rename always_ok "den" true (detached_group, sample_world)
  = (Returns false, (detached_group, sample_world)).
Proof.
  exact (proj2 (proj2 (proj2 (proj2 (proj2 (proj2 (proj2 (proj2
           (detached_group_sends_nothing always_ok detached_group
              sample_world eq_refl)))))))) "den" true).
Defined.

(** [rename] on a group attached to its session returns false, keeps the
    name and sends nothing after its one request when the response has an
    error status, and when its answers are all passed over (none holds the
    name of the group under [success]). *)
Theorem rename_without_acknowledgment
    (transport : list Request -> Request -> option Response)
    (g : Group) (w : World) (bg : BridgeRef) (r : Response)
    (newName : string) (allowExistingName : bool) :
  group_bridge g = Some bg ->
  (forall rq, transport (sent w) rq = Some r) ->
  (ok r = false
   \/ exists answers,
        ok r = true /\ payload r = Some (Plain (JArr answers))
        /\ Forall (fun a => rename_skips (group_name_key g) a = Returns true)
             answers) ->
  Group_rename transport newName allowExistingName (g, w)
  = (Returns false,
     (g, record (entity_request w "/groups" ("/" +:+ str_of_int (group_id g))
                   (Some (JObj [("name", JStr newName)])) "PUT") w)).
Proof.
  intros Hb Hnet Hr. unfold Group_rename, self_group. unfold_monad.
  erewrite Group_request_attached by exact Hb.
  unfold delivered. rewrite Hnet.
  destruct Hr as [Hok | (answers & Hok & Hbody & Hskip)]; rewrite Hok;
    [reflexivity|].
  unfold json. rewrite Hbody. unfold_monad. simpl py_iter. cbv iota.
  rewrite <- (app_nil_r answers).
  rewrite (rename_loop_skips transport newName allowExistingName answers []
             g _ Hskip).
  reflexivity.
Qed.

Lemma rename_without_acknowledgment_witness :
  Group_rename (fun _ _ => Some unrelated_answer) "den" false
    (living_room, sample_world)
  = (Returns false,
     (living_room,
      record (entity_request sample_world "/groups" "/1"
                (Some (JObj [("name", JStr "den")])) "PUT") sample_world)).
Proof.
  refine (rename_without_acknowledgment (fun _ _ => Some unrelated_answer)
            living_room sample_world TheBridge unrelated_answer "den" false
            eq_refl (fun _ => eq_refl) (or_intror _)).
  eexists. split; [reflexivity|]. split; [reflexivity|].
  repeat constructor.
Defined.

(** ** Which selector decides *)

(** An id the registry does not hold raises the not-found error of its
    kind.  When both an id and a name are given, [light()] and [scene()]
    go by the id and never look at the name, while [group()] goes by the
    name and never looks at the id. *)
Theorem lookup_selector_precedence (b : Bridge) :
  (forall lightId lightName,
     lightId <> 0 ->
     Bridge_light b lightId lightName =
       match dict_get (_lights b) lightId with
       | Some l => Returns l
       | None => Raises NoSuchLight
       end)
  /\ (forall sceneId sceneName,
        sceneId <> "" ->
        Bridge_scene b sceneId sceneName =
          match dict_get (_scenes b) sceneId with
          | Some s => Returns s
          | None => Raises NoSuchScene
          end)
  /\ (forall groupId groupId' groupName,
        groupName <> "" ->
        Bridge_group b groupId groupName = Bridge_group b groupId' groupName)
  /\ (forall groupId,
        Bridge_group b groupId "" =
          match dict_get (_groups b) groupId with
          | Some g => Returns g
          | None => Raises NoSuchGroup
          end).
Proof.
  split; [|split; [|split]].
  - intros lightId lightName Hid. unfold Bridge_light.
    destruct (Z.eqb_spec lightId 0) as [|_]; [contradiction|].
    cbn [andb]. now destruct (dict_get (_lights b) lightId).
  - intros sceneId sceneName Hid. unfold Bridge_scene.
    rewrite (truthy_str_nonempty _ Hid). cbn [negb andb].
    now destruct (dict_get (_scenes b) sceneId).
  - intros groupId groupId' groupName Hname. unfold Bridge_group.
    now rewrite (truthy_str_nonempty _ Hname).
  - intros groupId. unfold Bridge_group. cbn [truthy_str String.eqb negb].
    now destruct (dict_get (_groups b) groupId).
Qed.

Lemma lookup_selector_precedence_witness :
  Bridge_light kitchen_bridge 1 "no such name"
  = Returns (Light_init ascii_lower 1 (Light_of_data kitchen_data)).
Proof.
  assert (Hid : 1 <> 0) by discriminate.
  exact (proj1 (lookup_selector_precedence kitchen_bridge) 1 "no such name"
           Hid).
Defined.

(** ** A pair for [xy] *)

(** The setter of [xy] given fewer than two coordinates raises an index
    error before anything is cached or sent. *)
Theorem xy_setter_needs_a_pair
    (transport : list Request -> Request -> option Response)
    (value : list Num) (l : Light) (w : World) :
  (length value < 2)%nat ->
  Light_xy_set transport value (l, w) = (Raises IndexError, (l, w)).
Proof.
  intros Hlen. destruct value as [|x [|y value]]; [reflexivity | reflexivity|].
  simpl in Hlen. lia.
Qed.

Lemma xy_setter_needs_a_pair_witness :
  Light_xy_set always_ok [NFloat (1 # 2)] (colour_light, sample_world)
  = (Raises IndexError, (colour_light, sample_world)).
Proof.
  refine (xy_setter_needs_a_pair always_ok [NFloat (1 # 2)] colour_light
            sample_world _).
  simpl. lia.
Defined.
